(** * BytePS core loops

    A shallow embedding of the pipeline engine of BytePS: work items
    ([TensorTableEntry]), the partitioner, the stage loops that drive NCCL
    collectives on the root and non-root devices of a node, and the public
    entry points [byteps_init] and [EnqueueTensor].

    Conventions of the embedding.
    - The process state the loops share (scheduled queues, the atomic
      completion counters behind [counter_ptr], the queue of pending NCCL
      groups, the incoming signal channel) is an explicit [State]; every
      function of the source that touches it is a computation in the monad
      [M], which threads the state and can end the process.
    - Every call that leaves the translation unit (NCCL, CUDA, the signal
      channel, a scheduled queue, the user callback) is appended to the
      [trace] of the state, in program order, so that the order of calls can
      be stated.
    - A failed [BPS_CHECK] ends the process: the computation stops with
      [Aborted] and the state reached so far.
    - [BPS_LOG] statements have no effect on the state and are left out.
    - [NCCLCHECK] and [CUDA_CALL] wrap calls into external libraries; the
      embedding follows the runs in which those calls succeed. *)

From stdpp Require Import base numbers option list strings gmap pretty.

Local Open Scope Z_scope.

(** ** Machine integers *)

Definition INT_MAX : Z := 2 ^ 31 - 1.

(** Conversion to a C [int] (32 bits, two's complement). *)
Definition to_int (z : Z) : Z := (z + 2 ^ 31) `mod` 2 ^ 32 - 2 ^ 31.

(** Conversion to a C [unsigned int] (32 bits). *)
Definition to_uint (z : Z) : Z := z `mod` 2 ^ 32.

(** ** Data model *)

Inductive QueueType :=
| COORDINATE_REDUCE
| REDUCE
| COPYD2H
| PUSH
| PULL
| COPYH2D
| COORDINATE_BROADCAST
| BROADCAST.

#[global] Instance QueueType_eq_dec : EqDecision QueueType.
Proof. solve_decision. Defined.

Definition QueueType_to_nat (q : QueueType) : nat :=
  match q with
  | COORDINATE_REDUCE => 0 | REDUCE => 1 | COPYD2H => 2 | PUSH => 3
  | PULL => 4 | COPYH2D => 5 | COORDINATE_BROADCAST => 6 | BROADCAST => 7
  end%nat.

Definition QueueType_of_nat (n : nat) : QueueType :=
  match n with
  | 0 => COORDINATE_REDUCE | 1 => REDUCE | 2 => COPYD2H | 3 => PUSH
  | 4 => PULL | 5 => COPYH2D | 6 => COORDINATE_BROADCAST | _ => BROADCAST
  end%nat.

#[global] Instance QueueType_countable : Countable QueueType.
Proof.
  apply (inj_countable' QueueType_to_nat QueueType_of_nat).
  intros []; reflexivity.
Defined.

Inductive BytePSCommSignal :=
| REDUCE_READY
| BCAST_READY
| DO_REDUCE
| DO_BROADCAST
| DO_GROUP.

#[global] Instance BytePSCommSignal_eq_dec : EqDecision BytePSCommSignal.
Proof. solve_decision. Defined.

(** [struct BytePSCommMsg { src, signal, key }], built in the source by the
    initialiser lists [{ rank, signal, key }]. *)
Module BytePSCommMsg.
Record t := mk { src : Z; signal : BytePSCommSignal; key : Z }.
End BytePSCommMsg.

(** Only [Status::OK()] is ever constructed by the source; the error case is
    there to state that it is not produced. *)
Inductive Status :=
| OK
| Error (reason : string).

(** The tensor interface the loops consume: [data()] (an address, 0 for the
    null pointer), [size()] in bytes, [shape().num_elements()], [dtype()]. *)
Module Tensor.
Record t := mk { data : Z; size : Z; num_elements : Z; dtype : Z }.
End Tensor.

Module BPSContext.
Record t := mk {
  cpubuff : Z;
  buff_len : Z;
  key_list : list Z;
  initialized : bool;
  reuse_buff : bool }.
End BPSContext.

(** A work item.  [counter_ptr] is the address of the shared
    [std::atomic_int] in the store [atomics] of the state ([None] for a null
    pointer); [callback] and [ready_event] are handles.  A shared pointer to
    a tensor is [None] when null.  [key] is meaningful once [EnqueueTensor]
    has assigned it. *)
Record TensorTableEntry := mkEntry {
  tensor_name : string;
  key : Z;
  context : BPSContext.t;
  tensor : option Tensor.t;
  output : option Tensor.t;
  priority : Z;
  version : Z;
  ready_event : option nat;
  device : Z;
  callback : nat;
  cpubuff : Z;
  queue_list : list QueueType;
  offset : Z;
  len : Z;
  counter_ptr : option nat;
  total_partnum : Z }.

Definition with_queue_list (l : list QueueType) (e : TensorTableEntry)
  : TensorTableEntry :=
  mkEntry (tensor_name e) (key e) (context e) (tensor e) (output e)
    (priority e) (version e) (ready_event e) (device e) (callback e)
    (cpubuff e) l (offset e) (len e) (counter_ptr e) (total_partnum e).

Definition with_key (k : Z) (e : TensorTableEntry) : TensorTableEntry :=
  mkEntry (tensor_name e) k (context e) (tensor e) (output e)
    (priority e) (version e) (ready_event e) (device e) (callback e)
    (cpubuff e) (queue_list e) (offset e) (len e) (counter_ptr e)
    (total_partnum e).

(** A batch of work items whose collectives were issued inside one NCCL
    group.  [queues] holds, for the items a root pulled, the scheduled queue
    each came from (a queue is identified by its stage). *)
Module NcclGroupEntry.
Record t := mk {
  cuda_event : nat;
  tasks : list TensorTableEntry;
  queues : list QueueType }.
End NcclGroupEntry.

(** Calls that leave the translation unit, as recorded in the trace. *)
Module Call.
Inductive t :=
| addTask (q : QueueType) (task : TensorTableEntry)
| reportFinish (q : QueueType) (bytes : Z)
| callback (cb : nat) (s : Status)
| sendSignal (dst : Z) (msg : BytePSCommMsg.t)
| broadcastSignal (from : Z) (msg : BytePSCommMsg.t)
| ncclGroupStart
| ncclGroupEnd
| ncclReduce (buf count dtype root : Z)
| ncclBroadcast (buf count dtype root : Z)
| cudaEventCreateWithFlags (ev : nat)
| cudaEventRecord (ev : nat)
| cudaEventSynchronize (ev : nat)
| cudaEventDestroy (ev : nat)
| EnqueueNcclGroup (g : NcclGroupEntry.t)
| sleep_for (ns : Z).
End Call.

(** ** Process state *)

Record State := mkState {
  sched_queues : gmap QueueType (list TensorTableEntry);
  atomics : gmap nat Z;
  nccl_groups : list NcclGroupEntry.t;
  inbox : list (Z * BytePSCommMsg.t);
  fired : gset nat;
  next_event : nat;
  trace : list Call.t }.

Definition set_sched_queues (f : gmap QueueType (list TensorTableEntry))
  (st : State) : State :=
  mkState f (atomics st) (nccl_groups st) (inbox st) (fired st)
    (next_event st) (trace st).

Definition set_atomics (a : gmap nat Z) (st : State) : State :=
  mkState (sched_queues st) a (nccl_groups st) (inbox st) (fired st)
    (next_event st) (trace st).

Definition set_nccl_groups (g : list NcclGroupEntry.t) (st : State) : State :=
  mkState (sched_queues st) (atomics st) g (inbox st) (fired st)
    (next_event st) (trace st).

Definition set_inbox (i : list (Z * BytePSCommMsg.t)) (st : State) : State :=
  mkState (sched_queues st) (atomics st) (nccl_groups st) i (fired st)
    (next_event st) (trace st).

Definition set_next_event (n : nat) (st : State) : State :=
  mkState (sched_queues st) (atomics st) (nccl_groups st) (inbox st)
    (fired st) n (trace st).

Definition record (c : Call.t) (st : State) : State :=
  mkState (sched_queues st) (atomics st) (nccl_groups st) (inbox st)
    (fired st) (next_event st) (trace st ++ [c]).

(** ** The monad of the loops *)

Inductive Outcome (A : Type) :=
| Ret (a : A) (st : State)
| Aborted (st : State)
| Blocked (st : State)
| OutOfFuel.

Arguments Ret {A} a st.
Arguments Aborted {A} st.
Arguments Blocked {A} st.
Arguments OutOfFuel {A}.

Definition M (A : Type) : Type := State -> Outcome A.

#[global] Instance M_ret : MRet M := fun A (a : A) st => Ret a st.

#[global] Instance M_bind : MBind M := fun A B (k : A -> M B) (m : M A) st =>
  match m st with
  | Ret a st' => k a st'
  | Aborted st' => Aborted st'
  | Blocked st' => Blocked st'
  | OutOfFuel => OutOfFuel
  end.

Definition emit (c : Call.t) : M unit := fun st => Ret tt (record c st).

(** Modelled from the spec: the check macros of logging.h, which is not part
    of the sources at hand.  "Fatal: the check macro terminates the process
    with a diagnostic." *)
Definition BPS_CHECK (b : bool) : M unit :=
  fun st => if b then Ret tt st else Aborted st.

(** A hardware trap or an access through a null pointer: the process ends. *)
Definition crash {A} : M A := fun st => Aborted st.

Definition non_null {A} (p : option A) : bool :=
  match p with Some _ => true | None => false end.

(** ** The global registry

    [BytePSGlobal] is written at initialisation only; the loops read it.  Its
    accessors, the constant [CPU_DEVICE_ID] and the helper
    [getNcclDataType] are declared in headers that are not part of the
    sources at hand, so the values they return are taken as given. *)
Module BytePSGlobal.
Record t := mk {
  IsRootDevice : bool;
  GetRoot : Z;
  GetLocalRank : Z;
  GetLocalSize : Z;
  IsDistributed : bool;
  GetPartitionBound : Z;
  GetNcclGroupSize : Z }.
End BytePSGlobal.

Definition IsRoot (g : BytePSGlobal.t) : bool := BytePSGlobal.IsRootDevice g.
Definition GetRoot (g : BytePSGlobal.t) : Z := BytePSGlobal.GetRoot g.
Definition GetMyLocalRank (g : BytePSGlobal.t) : Z :=
  BytePSGlobal.GetLocalRank g.
Definition IsDistributedJob (g : BytePSGlobal.t) : bool :=
  BytePSGlobal.IsDistributed g.

(** ** Scheduled queues, NCCL group queue and signal channel *)

Definition GetScheduledQueue (q : QueueType) (st : State)
  : list TensorTableEntry :=
  default [] (sched_queues st !! q).

Definition put_queue (q : QueueType) (l : list TensorTableEntry) (st : State)
  : State :=
  set_sched_queues (<[q := l]> (sched_queues st)) st.

(** Modelled from the spec: [BytePSScheduledQueue::addTask], whose source is
    not at hand.  "addTask(item) — enqueue." *)
Definition addTask (q : QueueType) (task : TensorTableEntry) : M unit :=
  fun st =>
    Ret tt (record (Call.addTask q task)
              (put_queue q (GetScheduledQueue q st ++ [task]) st)).

(** An item is ready when it has no [ready_event] or its event has fired. *)
Definition is_ready (st : State) (e : TensorTableEntry) : bool :=
  match ready_event e with
  | None => true
  | Some ev => bool_decide (ev ∈ fired st)
  end.

(** Position and value of the ready item with the least priority value, the
    earliest enqueued among equals. *)
Fixpoint best_ready (ready : TensorTableEntry -> bool)
    (l : list TensorTableEntry) (i : nat)
    (best : option (nat * TensorTableEntry))
  : option (nat * TensorTableEntry) :=
  match l with
  | [] => best
  | e :: l' =>
      let best' :=
        if ready e then
          match best with
          | None => Some (i, e)
          | Some (_, b) =>
              if priority e <? priority b then Some (i, e) else best
          end
        else best in
      best_ready ready l' (S i) best'
  end.

(** Modelled from the spec: [BytePSScheduledQueue::getTask()], whose source
    is not at hand.  "Non-blocking; returns the highest-priority ready item
    or nothing"; "ordering tie-break: priority ascending, then enqueue
    order".  The spec gives no rule for credit-based throttling, so the
    model dispatches every ready item. *)
Definition getTask (q : QueueType) : M (option TensorTableEntry) :=
  fun st =>
    match best_ready (is_ready st) (GetScheduledQueue q st) 0 None with
    | None => Ret None st
    | Some (i, e) =>
        Ret (Some e) (put_queue q (delete i (GetScheduledQueue q st)) st)
    end.

(** First item with the given key, and the queue without it. *)
Fixpoint find_key (k : Z) (l : list TensorTableEntry)
  : option (TensorTableEntry * list TensorTableEntry) :=
  match l with
  | [] => None
  | e :: l' =>
      if key e =? k then Some (e, l')
      else match find_key k l' with
           | Some (t, r) => Some (t, e :: r)
           | None => None
           end
  end.

(** Modelled from the spec: [BytePSScheduledQueue::getTask(key)], whose
    source is not at hand.  "Non-blocking keyed dequeue ... returns nothing
    if absent." *)
Definition getTask_key (q : QueueType) (k : Z) : M (option TensorTableEntry) :=
  fun st =>
    match find_key k (GetScheduledQueue q st) with
    | None => Ret None st
    | Some (t, r) => Ret (Some t) (put_queue q r st)
    end.

(** Modelled from the spec: [BytePSScheduledQueue::reportFinish], whose
    source is not at hand.  "Updates a per-queue credit counter used for
    backpressure and observability"; the call is recorded with its queue and
    byte count. *)
Definition reportFinish (q : QueueType) (bytes : Z) : M unit :=
  emit (Call.reportFinish q bytes).

(** Modelled from the spec: [BytePSGlobal::EnqueueNcclGroup] and
    [BytePSGlobal::DequeueNcclGroup], whose source is not at hand.  The
    registry holds "a queue of pending NCCL Group Entries". *)
Definition EnqueueNcclGroup (e : NcclGroupEntry.t) : M unit :=
  fun st =>
    Ret tt (record (Call.EnqueueNcclGroup e)
              (set_nccl_groups (nccl_groups st ++ [e]) st)).

Definition DequeueNcclGroup : M (option NcclGroupEntry.t) :=
  fun st =>
    match nccl_groups st with
    | [] => Ret None st
    | e :: rest => Ret (Some e) (set_nccl_groups rest st)
    end.

(** Modelled from the spec: the signal channel [BytePSGlobal::GetComm()],
    whose source is not at hand.  [sendSignal] and [broadcastSignal] hand a
    message to the channel; [recvSignal] "blocks until the next message
    arrives" and yields its sender and payload. *)
Definition sendSignal (dst : Z) (msg : BytePSCommMsg.t) : M unit :=
  emit (Call.sendSignal dst msg).

Definition broadcastSignal (from : Z) (msg : BytePSCommMsg.t) : M unit :=
  emit (Call.broadcastSignal from msg).

Definition recvSignal : M (Z * BytePSCommMsg.t) :=
  fun st =>
    match inbox st with
    | [] => Blocked st
    | m :: rest => Ret m (set_inbox rest st)
    end.

(** [cudaEventCreateWithFlags] yields a fresh event handle. *)
Definition cudaEventCreateWithFlags : M nat :=
  fun st =>
    let ev := next_event st in
    Ret ev
      (record (Call.cudaEventCreateWithFlags ev) (set_next_event (S ev) st)).

(** [std::atomic_int::fetch_add]: one indivisible step that returns the old
    value and stores the sum, wrapped to an [int].  A shared pointer always
    points at a live atomic; an address without one ends the run. *)
Definition fetch_add (c : nat) (d : Z) : M Z :=
  fun st =>
    match atomics st !! c with
    | Some v => Ret v (set_atomics (<[c := to_int (v + d)]> (atomics st)) st)
    | None => Aborted st
    end.

(** [std::make_shared<std::atomic_int>(v)]: a new atomic at a fresh address. *)
Definition make_shared_atomic (v : Z) : M nat :=
  fun st =>
    let c := fresh (dom (atomics st)) in
    Ret c (set_atomics (<[c := v]> (atomics st)) st).

(** ** FinishOrProceed *)

Definition FinishOrProceed (task : TensorTableEntry) : M unit :=
  BPS_CHECK (1 <=? length (queue_list task))%nat;;
  let task := with_queue_list (tail (queue_list task)) task in
  match queue_list task with
  | next :: _ => addTask next task
  | [] =>
      match counter_ptr task with
      | None => BPS_CHECK false
      | Some c =>
          v ← fetch_add c 1;
          if v =? total_partnum task - 1
          then emit (Call.callback (callback task) OK)
          else mret tt
      end
  end.

(** C integer division and remainder; a zero divisor traps. *)
Definition c_div (a b : Z) : M Z :=
  if b =? 0 then crash else mret (Z.quot a b).

Definition c_rem (a b : Z) : M Z :=
  if b =? 0 then crash else mret (Z.rem a b).

Definition sleep_for (ns : Z) : M unit := emit (Call.sleep_for ns).

Section Loops.

Variable g : BytePSGlobal.t.
Variable CPU_DEVICE_ID : Z.
Variable getNcclDataType : Z -> Z.

(** ** Coordinate stages (non-root devices) *)

Definition RunCoordinateLoopOnce (this_op : QueueType) : M bool :=
  task ← getTask this_op;
  match task with
  | Some task =>
      BPS_CHECK (negb (IsRoot g));;
      let root := GetRoot g in
      let rank := GetMyLocalRank g in
      let key := to_int (key task) in
      FinishOrProceed task;;
      let msg :=
        BytePSCommMsg.mk rank
          (if decide (this_op = COORDINATE_REDUCE) then REDUCE_READY
           else BCAST_READY)
          key in
      sendSignal root msg;;
      reportFinish this_op (len task);;
      mret true
  | None =>
      sleep_for 1000;;
      mret true
  end.

(** ** NCCL stage of the root device *)

(** Lines 104-146: what the root does with one pulled item. *)
Definition RootNccl_issue (this_op : QueueType) (task : TensorTableEntry)
  : M unit :=
  let root := GetRoot g in
  let rank := GetMyLocalRank g in
  let tensor :=
    if decide (this_op = REDUCE) then tensor task else output task in
  BPS_CHECK (non_null tensor);;
  match tensor with
  | None => crash
  | Some tensor =>
      let key := to_int (key task) in
      let len := len task in
      let offset := offset task in
      if negb (device task =? CPU_DEVICE_ID) then
        BPS_CHECK (negb (Tensor.data tensor =? 0));;
        r ← c_rem (Tensor.size tensor) (Tensor.num_elements tensor);
        BPS_CHECK (0 =? r);;
        let nccl_dtype := getNcclDataType (Tensor.dtype tensor) in
        unit_len ← c_div (Tensor.size tensor) (Tensor.num_elements tensor);
        if 1 <? BytePSGlobal.GetLocalSize g then
          let msg :=
            BytePSCommMsg.mk rank
              (if decide (this_op = REDUCE) then DO_REDUCE else DO_BROADCAST)
              key in
          broadcastSignal rank msg;;
          count ← c_div len unit_len;
          if decide (this_op = REDUCE) then
            emit (Call.ncclReduce (Tensor.data tensor + offset) count
                    nccl_dtype root)
          else
            emit (Call.ncclBroadcast (Tensor.data tensor + offset) count
                    nccl_dtype root)
        else mret tt
      else mret tt
  end.

(** The inner [for] loop: at most [n] items are pulled from the queue of
    [this_op]; an empty queue ends the loop. *)
Fixpoint RootNccl_pull (n : nat) (this_op : QueueType)
    (nccl_entry : NcclGroupEntry.t) : M NcclGroupEntry.t :=
  match n with
  | O => mret nccl_entry
  | S n' =>
      task ← getTask this_op;
      match task with
      | None => mret nccl_entry
      | Some task =>
          let nccl_entry :=
            NcclGroupEntry.mk (NcclGroupEntry.cuda_event nccl_entry)
              (NcclGroupEntry.tasks nccl_entry ++ [task])
              (NcclGroupEntry.queues nccl_entry ++ [this_op]) in
          RootNccl_issue this_op task;;
          RootNccl_pull n' this_op nccl_entry
      end
  end.

(** The outer [for] loop over [nccl_ops]. *)
Fixpoint RootNccl_ops (nccl_ops : list QueueType)
    (nccl_entry : NcclGroupEntry.t) : M NcclGroupEntry.t :=
  match nccl_ops with
  | [] => mret nccl_entry
  | this_op :: rest =>
      nccl_entry ←
        RootNccl_pull (Z.to_nat (BytePSGlobal.GetNcclGroupSize g)) this_op
          nccl_entry;
      RootNccl_ops rest nccl_entry
  end.

Definition RunRootNcclLoopOnce : M bool :=
  let root := GetRoot g in
  let rank := GetMyLocalRank g in
  BPS_CHECK (rank =? root);;
  let nccl_ops := [REDUCE; BROADCAST] in
  let nccl_entry := NcclGroupEntry.mk 0 [] [] in
  emit Call.ncclGroupStart;;
  nccl_entry ← RootNccl_ops nccl_ops nccl_entry;
  if (0 <? length (NcclGroupEntry.tasks nccl_entry))%nat then
    let msg := BytePSCommMsg.mk rank DO_GROUP 0 in
    broadcastSignal rank msg;;
    emit Call.ncclGroupEnd;;
    ev ← cudaEventCreateWithFlags;
    emit (Call.cudaEventRecord ev);;
    EnqueueNcclGroup
      (NcclGroupEntry.mk ev (NcclGroupEntry.tasks nccl_entry)
         (NcclGroupEntry.queues nccl_entry));;
    mret true
  else
    emit Call.ncclGroupEnd;;
    sleep_for 1000;;
    mret true.

(** ** NCCL stage of a non-root device *)

(** Lines 204-234: the collective a non-root issues for a looked-up item. *)
Definition NonRootNccl_issue (this_op : QueueType) (task : TensorTableEntry)
  : M unit :=
  let root := GetRoot g in
  let tensor :=
    if decide (this_op = REDUCE) then tensor task else output task in
  if negb (device task =? CPU_DEVICE_ID) then
    let len := len task in
    let offset := offset task in
    match tensor with
    | None => crash
    | Some tensor =>
        BPS_CHECK (negb (Tensor.data tensor =? 0));;
        BPS_CHECK (negb (Tensor.data tensor + offset =? 0));;
        let nccl_dtype := getNcclDataType (Tensor.dtype tensor) in
        unit_len ← c_div (Tensor.size tensor) (Tensor.num_elements tensor);
        count ← c_div len unit_len;
        if decide (this_op = REDUCE) then
          emit (Call.ncclReduce (Tensor.data tensor + offset) count
                  nccl_dtype root)
        else
          emit (Call.ncclBroadcast (Tensor.data tensor + offset) count
                  nccl_dtype root)
    end
  else mret tt.


(** The [while (1)] loop.  Every turn takes one message off the channel, so
    [fuel] larger than the number of messages waiting is never used up: the
    loop ends on [DO_GROUP], on a failed check, or blocked in [recvSignal]. *)
Fixpoint NonRootNccl_loop (fuel : nat) (tasks : list TensorTableEntry)
  : M (list TensorTableEntry) :=
  match fuel with
  | O => fun _ => OutOfFuel
  | S fuel' =>
      m ← recvSignal;
      let src := fst m in
      let msg := snd m in
      BPS_CHECK (src =? GetRoot g);;
      if decide (BytePSCommMsg.signal msg = DO_GROUP) then mret tasks
      else
        this_op ←
          (if decide (BytePSCommMsg.signal msg = DO_BROADCAST)
           then mret BROADCAST
           else
             BPS_CHECK (bool_decide (BytePSCommMsg.signal msg = DO_REDUCE));;
             mret REDUCE);
        let key := BytePSCommMsg.key msg in
        task ← getTask_key this_op key;
        BPS_CHECK (non_null task);;
        match task with
        | None => crash
        | Some task =>
            BPS_CHECK (length (queue_list task) =? 1)%nat;;
            let tasks := tasks ++ [task] in
            NonRootNccl_issue this_op task;;
            NonRootNccl_loop fuel' tasks
        end
  end.

Definition RunNonRootNcclLoopOnce : M bool :=
  let root := GetRoot g in
  let rank := GetMyLocalRank g in
  BPS_CHECK (negb (rank =? root));;
  emit Call.ncclGroupStart;;
  tasks ← (fun st => NonRootNccl_loop (S (length (inbox st))) [] st);
  emit Call.ncclGroupEnd;;
  ev ← cudaEventCreateWithFlags;
  emit (Call.cudaEventRecord ev);;
  EnqueueNcclGroup (NcclGroupEntry.mk ev tasks []);;
  mret true.

(** ** SyncNccl stage (all devices) *)

(** The [for] loop over [nccl_entry->tasks], from index [i] on. *)
Fixpoint SyncNccl_advance (i : nat) (tasks : list TensorTableEntry)
    (queues : list QueueType) : M unit :=
  match tasks with
  | [] => mret tt
  | task :: rest =>
      FinishOrProceed task;;
      match queues !! i with
      | Some q => reportFinish q (len task)
      | None => mret tt
      end;;
      SyncNccl_advance (S i) rest queues
  end.

Definition RunSyncNcclOnce : M bool :=
  nccl_entry ← DequeueNcclGroup;
  match nccl_entry with
  | Some nccl_entry =>
      emit (Call.cudaEventSynchronize (NcclGroupEntry.cuda_event nccl_entry));;
      SyncNccl_advance 0 (NcclGroupEntry.tasks nccl_entry)
        (NcclGroupEntry.queues nccl_entry);;
      emit (Call.cudaEventDestroy (NcclGroupEntry.cuda_event nccl_entry));;
      mret true
  | None =>
      sleep_for 1000;;
      mret true
  end.

End Loops.

(** ** Public entry points *)

Inductive LoopFunction :=
| CoordinateReduceLoop
| CoordinateBroadcastLoop
| RootNcclLoop
| NonRootNcclLoop
| SyncNcclLoop
| CopyDevice2HostLoop
| PushLoop
| PullLoop
| CopyHost2DeviceLoop.

#[global] Instance LoopFunction_eq_dec : EqDecision LoopFunction.
Proof. solve_decision. Defined.

(** Modelled from the spec: [BytePSGlobal::Start], whose source is not at
    hand.  "Start(loops) launches one worker thread per loop": the threads
    started are the loops handed over, one each. *)
Definition Start (func : list LoopFunction) : list LoopFunction := func.

(** [byteps_init], as the list of loop threads it starts. *)
Definition byteps_init (g : BytePSGlobal.t) : list LoopFunction :=
  let func := [] in
  let func :=
    if IsRoot g then
      let func := func ++ [RootNcclLoop] in
      let func := func ++ [SyncNcclLoop] in
      if IsDistributedJob g then
        let func := func ++ [CopyDevice2HostLoop] in
        let func := func ++ [PushLoop] in
        let func := func ++ [PullLoop] in
        func ++ [CopyHost2DeviceLoop]
      else func
    else
      let func := func ++ [CoordinateReduceLoop] in
      let func := func ++ [NonRootNcclLoop] in
      let func := func ++ [SyncNcclLoop] in
      func ++ [CoordinateBroadcastLoop] in
  Start func.

(** ** Partitioner *)

(** The body of the [while] loop of [PartitionTensor]: the work item built
    when [i] partitions covering [accumulated] bytes exist.  The key of a
    new item is left unassigned by the source; it is 0 here until
    [EnqueueTensor] assigns it. *)
Definition PartitionTensor_item (entry : TensorTableEntry)
    (size bound accumulated i : Z) : TensorTableEntry :=
  {| tensor_name := tensor_name entry +:+ "_" +:+ pretty i;
     key := 0;
     context := context entry;
     ready_event := ready_event entry;
     device := device entry;
     priority := priority entry;
     version := version entry;
     callback := callback entry;
     cpubuff := cpubuff entry;
     queue_list := queue_list entry;
     tensor := tensor entry;
     output := output entry;
     offset := accumulated;
     len := if size - accumulated >? bound then bound else size - accumulated;
     counter_ptr := counter_ptr entry;
     total_partnum := total_partnum entry |}.

(** The [while (accumulated < size)] loop; [accumulated] and [i] are C
    [int]s.  The loop need not end (a bound of 0 never advances), hence the
    fuel. *)
Fixpoint PartitionTensor_loop (fuel : nat) (entry : TensorTableEntry)
    (size bound accumulated i : Z) (partitions : list TensorTableEntry)
  : M (list TensorTableEntry) :=
  match fuel with
  | O => fun _ => OutOfFuel
  | S fuel' =>
      if accumulated <? size then
        let e := PartitionTensor_item entry size bound accumulated i in
        let accumulated := to_int (accumulated + len e) in
        let i := to_int (i + 1) in
        PartitionTensor_loop fuel' entry size bound accumulated i
          (partitions ++ [e])
      else mret partitions
  end.

(** [entry->tensor ? entry->tensor->size() : entry->output->size()]; with
    both pointers null the second branch dereferences a null pointer. *)
Definition tensor_or_output_size (entry : TensorTableEntry) : M Z :=
  match tensor entry with
  | Some t => mret (Tensor.size t)
  | None =>
      match output entry with
      | Some o => mret (Tensor.size o)
      | None => crash
      end
  end.

Definition PartitionTensor (g : BytePSGlobal.t) (fuel : nat)
    (entry : TensorTableEntry) (partitions : list TensorTableEntry)
  : M (list TensorTableEntry) :=
  BPS_CHECK (non_null (counter_ptr entry));;
  size ← tensor_or_output_size entry;
  let bound := BytePSGlobal.GetPartitionBound g in
  PartitionTensor_loop fuel entry size bound 0 0 partitions.

(** ** EnqueueTensor *)

(** The [for] loop of [EnqueueTensor]: partition [i] gets [key_list[i]] and
    goes to the queue of the first stage; [accumulated] is an
    [unsigned int].  The caller has checked that both vectors have the same
    length. *)
Fixpoint EnqueueTensor_loop (q0 : QueueType) (key_list : list Z)
    (partitions : list TensorTableEntry) (accumulated : Z) : M Z :=
  match partitions with
  | [] => mret accumulated
  | task :: rest =>
      match key_list with
      | [] => crash
      | k :: key_list' =>
          let task := with_key k task in
          addTask q0 task;;
          EnqueueTensor_loop q0 key_list' rest
            (to_uint (accumulated + len task))
      end
  end.

(** Lines 552-565: the work item for the whole tensor.  Its [key], [offset]
    and [len] are not assigned by the source; they are 0 here. *)
Definition EnqueueTensor_entry (context : BPSContext.t)
    (input output : option Tensor.t) (ready_event : option nat)
    (name : string) (device priority version : Z) (callback : nat)
    (queue_list : list QueueType) (counter : nat) : TensorTableEntry :=
  {| tensor_name := name;
     key := 0;
     context := context;
     tensor := input;
     output := output;
     ready_event := ready_event;
     device := device;
     priority := priority;
     version := version;
     callback := callback;
     cpubuff := BPSContext.cpubuff context;
     queue_list := queue_list;
     offset := 0;
     len := 0;
     counter_ptr := Some counter;
     total_partnum := Z.of_nat (length (BPSContext.key_list context)) |}.

Definition EnqueueTensor (g : BytePSGlobal.t) (fuel : nat)
    (context : BPSContext.t) (input output : option Tensor.t)
    (ready_event : option nat) (name : string)
    (device priority version : Z) (callback : nat)
    (queue_list : list QueueType) : M Status :=
  match input, output with
  | Some i, Some o => BPS_CHECK (Tensor.size i =? Tensor.size o)
  | _, _ => mret tt
  end;;
  counter ← make_shared_atomic 0;
  let e :=
    EnqueueTensor_entry context input output ready_event name device priority
      version callback queue_list counter in
  partitions ← PartitionTensor g fuel e [];
  BPS_CHECK (length (BPSContext.key_list context) =? length partitions)%nat;;
  match queue_list with
  | [] =>
      emit (Call.callback callback OK);;
      mret OK
  | q0 :: _ =>
      accumulated ← EnqueueTensor_loop q0 (BPSContext.key_list context)
                      partitions 0;
      size ← tensor_or_output_size e;
      BPS_CHECK (accumulated =? size);;
      mret OK
  end.

(** ** Runs of final-stage completions

    The calls of [FinishOrProceed] on a list of work items, one after the
    other.  [fetch_add] is indivisible, so the calls that threads make on
    the partitions of one tensor take effect in some order; the list gives
    that order. *)
Fixpoint FinishAll (tasks : list TensorTableEntry) : M unit :=
  match tasks with
  | [] => mret tt
  | task :: rest => FinishOrProceed task;; FinishAll rest
  end.

(** A partition of the tensor whose completion counter is [c], whose
    callback is [cb] and which has [n] partitions, waiting in its last
    stage. *)
Definition last_stage_of (c cb : nat) (n : Z) (p : TensorTableEntry) : Prop :=
  (exists op, queue_list p = [op]) /\
  counter_ptr p = Some c /\ total_partnum p = n /\ callback p = cb.

(** The state after an indivisible increment of the atomic at [c], whose old
    value is [v]. *)
Definition incremented (c : nat) (v : Z) (st : State) : State :=
  set_atomics (<[c := to_int (v + 1)]> (atomics st)) st.

(** The state after [task] has been put on the queue of stage [q]. *)
Definition enqueued (q : QueueType) (task : TensorTableEntry) (st : State)
  : State :=
  record (Call.addTask q task)
    (put_queue q (GetScheduledQueue q st ++ [task]) st).

(** The state after [std::make_shared<std::atomic_int>(v)]. *)
Definition allocated (v : Z) (st : State) : State :=
  set_atomics (<[fresh (dom (atomics st)) := v]> (atomics st)) st.

(** The state after partition [i] of [partitions] has been given key [i] of
    [key_list] and put on the queue of stage [q0], for every [i] in turn. *)
Definition enqueue_all (q0 : QueueType) (key_list : list Z)
    (partitions : list TensorTableEntry) (st : State) : State :=
  foldl (fun st kp => enqueued q0 (with_key kp.1 kp.2) st) st
    (zip key_list partitions).

(** The byte size [PartitionTensor] reads: that of the input if there is
    one, else that of the output. *)
Definition byte_size (input output : option Tensor.t) : option Z :=
  match input with
  | Some t => Some (Tensor.size t)
  | None => option_map Tensor.size output
  end.

(** Input and output have the same byte size when both are given. *)
Definition sizes_agree (input output : option Tensor.t) : Prop :=
  forall i o,
    input = Some i -> output = Some o -> Tensor.size i = Tensor.size o.

(** The state in which a computation ended, if it ran at all. *)
Definition final_state {A} (o : Outcome A) : option State :=
  match o with
  | Ret _ st | Aborted st | Blocked st => Some st
  | OutOfFuel => None
  end.

(** ** Sample configurations

    Concrete registries, tensors, work items and states on which the
    definitions above are run. *)
Module Sample.

Definition CPU_DEVICE_ID : Z := -1.

Definition getNcclDataType (dtype : Z) : Z := dtype.

(** A node with two devices, local rank 0 being the root. *)
Definition root_registry (distributed : bool) (bound : Z) : BytePSGlobal.t :=
  BytePSGlobal.mk true 0 0 2 distributed bound 4.

Definition nonroot_registry (distributed : bool) (bound : Z) : BytePSGlobal.t :=
  BytePSGlobal.mk false 0 1 2 distributed bound 4.

(** A device tensor of [sz] bytes holding 4-byte elements. *)
Definition tensor_of (sz : Z) : Tensor.t := Tensor.mk 4096 sz (sz `div` 4) 0.

Definition context_of (sz : Z) (keys : list Z) : BPSContext.t :=
  BPSContext.mk 8192 sz keys true false.

(** A 16-byte partition on device 0 with callback 7. *)
Definition item (name : string) (k : Z) (stages : list QueueType)
    (counter : nat) (parts : Z) : TensorTableEntry :=
  {| tensor_name := name;
     key := k;
     context := context_of 16 [k];
     tensor := Some (tensor_of 16);
     output := Some (tensor_of 16);
     priority := 0;
     version := 0;
     ready_event := None;
     device := 0;
     callback := 7%nat;
     cpubuff := 8192;
     queue_list := stages;
     offset := 0;
     len := 16;
     counter_ptr := Some counter;
     total_partnum := parts |}.

Definition empty_state : State := mkState ∅ ∅ [] [] ∅ 0 [].

(** The empty state with one atomic counter, at address 5, holding 0. *)
Definition counter_state : State := set_atomics {[ 5%nat := 0 ]} empty_state.

(** A state whose only content is [task], waiting on the queue of [q]. *)
Definition waiting (q : QueueType) (task : TensorTableEntry) : State :=
  set_sched_queues {[ q := [task] ]} counter_state.

End Sample.

(** ** The partitioner as the specification words it

    "The [i]-th partition has [offset = i*B], [len = min(B, size - i*B)],
    [tensor_name = original + "_" + i], all other fields copied"; the number
    of partitions is [size / B] rounded up. *)
Definition partition_count (size bound : Z) : nat :=
  Z.to_nat ((size + bound - 1) `div` bound).

Definition nth_partition (entry : TensorTableEntry) (size bound : Z) (i : nat)
  : TensorTableEntry :=
  {| tensor_name := tensor_name entry +:+ "_" +:+ pretty (Z.of_nat i);
     key := 0;
     context := context entry;
     tensor := tensor entry;
     output := output entry;
     priority := priority entry;
     version := version entry;
     ready_event := ready_event entry;
     device := device entry;
     callback := callback entry;
     cpubuff := cpubuff entry;
     queue_list := queue_list entry;
     offset := Z.of_nat i * bound;
     len := Z.min bound (size - Z.of_nat i * bound);
     counter_ptr := counter_ptr entry;
     total_partnum := total_partnum entry |}.

Definition sum_len (l : list TensorTableEntry) : Z :=
  foldr (fun p s => len p + s) 0 l.

(** ** The SyncNccl stage as the specification words it

    Every item of the group is advanced, and its length is reported on the
    queue recorded for it, when one was recorded. *)
Fixpoint advance_and_report
    (items : list (TensorTableEntry * option QueueType)) : M unit :=
  match items with
  | [] => mret tt
  | (task, q) :: rest =>
      FinishOrProceed task;;
      match q with
      | Some q => reportFinish q (len task)
      | None => mret tt
      end;;
      advance_and_report rest
  end.

(** The items of a group, each with the queue recorded at its index. *)
Definition with_origin (tasks : list TensorTableEntry)
    (queues : list QueueType) : list (TensorTableEntry * option QueueType) :=
  imap (fun i task => (task, queues !! i)) tasks.

(** The [reportFinish] calls the worded stage makes, in order. *)
Definition reports (items : list (TensorTableEntry * option QueueType))
  : list Call.t :=
  omap (fun tq => (fun q => Call.reportFinish q (len tq.1)) <$> tq.2) items.

(** ** Reading traces *)

Definition is_reportFinish (c : Call.t) : bool :=
  match c with Call.reportFinish _ _ => true | _ => false end.

Definition is_ncclGroupEnd (c : Call.t) : bool :=
  match c with Call.ncclGroupEnd => true | _ => false end.

Definition is_broadcast_of (s : BytePSCommSignal) (c : Call.t) : bool :=
  match c with
  | Call.broadcastSignal _ msg => bool_decide (BytePSCommMsg.signal msg = s)
  | _ => false
  end.

(** Position of the first call of a trace that satisfies [P]. *)
Fixpoint first_index (P : Call.t -> bool) (l : list Call.t) : option nat :=
  match l with
  | [] => None
  | c :: l' => if P c then Some 0%nat else option_map S (first_index P l')
  end.

(** ** Queues, origins and the signal channel between the devices *)

(** A computation that, when it returns, has left the part [f] of the
    state as it was. *)
Definition preserves {A B} (f : State -> B) (m : M A) : Prop :=
  forall st a st', m st = Ret a st' -> f st' = f st.


(** ** One item through its stages

    The work item as a stage finds it after [FinishOrProceed] has erased the
    head of its [queue_list]: the handle is shared, so the next stage sees
    the shortened list. *)
Definition advanced (task : TensorTableEntry) : TensorTableEntry :=
  with_queue_list (tail (queue_list task)) task.

(** [n] successive completions of one item: each stage that holds the item
    calls [FinishOrProceed] on it once. *)
Fixpoint travel (n : nat) (task : TensorTableEntry) : M TensorTableEntry :=
  match n with
  | O => mret task
  | S n' => FinishOrProceed task;; travel n' (advanced task)
  end.

(** The hand-overs of an item that has the stages [rest] still to visit:
    one [addTask] per stage, on the queue of that stage, each with the list
    of stages as it is then. *)
Fixpoint visits (task : TensorTableEntry) (rest : list QueueType)
  : list Call.t :=
  match rest with
  | [] => []
  | q :: rest' =>
      Call.addTask q (with_queue_list rest task) :: visits task rest'
  end.

(** The partitions [EnqueueTensor] puts on a queue: partition [i] under key
    [i]. *)
Definition keyed (key_list : list Z) (partitions : list TensorTableEntry)
  : list TensorTableEntry :=
  (fun kp => with_key kp.1 kp.2) <$> zip key_list partitions.

(** The queue a recorded hand-over went to. *)
Definition visited_queue (c : Call.t) : option QueueType :=
  match c with
  | Call.addTask q _ => Some q
  | _ => None
  end.

(** The work item can complete its last stage: its counter pointer is not
    null and points at a live atomic. *)
Definition counter_live (task : TensorTableEntry) (st : State) : Prop :=
  exists c v, counter_ptr task = Some c /\ atomics st !! c = Some v.

(** ** Windows of the NCCL stages *)





(** ** Signals served by the non-root NCCL loop *)

(** The stage of a DO_REDUCE or DO_BROADCAST signal. *)
Definition stage_of_signal (msg : BytePSCommMsg.t) : QueueType :=
  if decide (BytePSCommMsg.signal msg = DO_BROADCAST) then BROADCAST
  else REDUCE.




(** ** Stages with device copies and parameter-server traffic

    The copy, push and pull stages and the initialisation of a tensor call
    the accelerator runtime and the parameter-server client.  Their calls
    are kept, together with the calls of the core trace and in program
    order, in the [log] of an [Engine], which wraps the state of the core
    loops. *)
Module Io.

Inductive MemcpyKind := cudaMemcpyDeviceToHost | cudaMemcpyHostToDevice.

Inductive Stream := CopyDevice2HostStream | CopyHost2DeviceStream.

(** [ps::kWorkerGroup], the only group the source names. *)
Inductive NodeGroup := kWorkerGroup.

(** [ZPush] and [ZPull] are recorded with the key and length that
    [EncodeDefaultKey] turns into server keys and lengths, the address of
    the values and the command. *)
Inductive t :=
| core (c : Call.t)
| cudaSetDevice (device : Z)
| cudaMemcpyAsync (dst src count : Z) (kind : MemcpyKind) (stream : Stream)
| cudaStreamSynchronize (stream : Stream)
| cudaHostAlloc (ptr size : Z)
| ZPush (key vals len cmd : Z)
| ZPull (key vals len cmd : Z)
| Wait
| Barrier (customer_id : Z) (group : NodeGroup).

End Io.

(** The continuation both [RunPushLoopOnce] and [RunPullLoopOnce] hand to
    the parameter-server client: [FinishOrProceed(task)], then
    [q->reportFinish(task->len)]. *)
Record Continuation := mkContinuation {
  cont_task : TensorTableEntry;
  cont_queue : QueueType }.

Record Engine := mkEngine {
  core : State;
  log : list Io.t;
  pending : list Continuation;
  host_brk : Z }.

Inductive Result (A : Type) :=
| Done (a : A) (s : Engine)
| Died (s : Engine)
| Stuck (s : Engine)
| Exhausted.

Arguments Done {A} a s.
Arguments Died {A} s.
Arguments Stuck {A} s.
Arguments Exhausted {A}.

Definition IoM (A : Type) : Type := Engine -> Result A.

#[global] Instance IoM_ret : MRet IoM := fun A (a : A) s => Done a s.

#[global] Instance IoM_bind : MBind IoM :=
  fun A B (k : A -> IoM B) (m : IoM A) s =>
    match m s with
    | Done a s' => k a s'
    | Died s' => Died s'
    | Stuck s' => Stuck s'
    | Exhausted => Exhausted
    end.

(** The engine after the core has moved on to [st']: the calls the core
    trace gained are appended to the log. *)
Definition absorb (s : Engine) (st' : State) : Engine :=
  mkEngine st'
    (log s ++ (Io.core <$> drop (length (trace (core s))) (trace st')))
    (pending s) (host_brk s).

(** A computation of the core loops, run inside the engine. *)
Definition lift {A} (m : M A) : IoM A :=
  fun s =>
    match m (core s) with
    | Ret a st' => Done a (absorb s st')
    | Aborted st' => Died (absorb s st')
    | Blocked st' => Stuck (absorb s st')
    | OutOfFuel => Exhausted
    end.

Definition io (c : Io.t) : IoM unit :=
  fun s => Done tt (mkEngine (core s) (log s ++ [c]) (pending s) (host_brk s)).

(** Modelled from the spec: the asynchronous calls of the parameter-server
    client, an external library.  "ZPush(keys, values, lengths, cmd, cb) and
    ZPull(...) — both asynchronous, invoke cb on completion": the call is
    logged and the continuation is owed until the client completes it. *)
Definition ZPush_async (key vals len cmd : Z) (cb : Continuation) : IoM unit :=
  fun s =>
    Done tt
      (mkEngine (core s) (log s ++ [Io.ZPush key vals len cmd])
         (pending s ++ [cb]) (host_brk s)).

Definition ZPull_async (key vals len cmd : Z) (cb : Continuation) : IoM unit :=
  fun s =>
    Done tt
      (mkEngine (core s) (log s ++ [Io.ZPull key vals len cmd])
         (pending s ++ [cb]) (host_brk s)).

(** The parameter-server client completes the [i]-th request it owes and
    runs its continuation. *)
Definition ps_complete (i : nat) : IoM unit :=
  fun s =>
    match pending s !! i with
    | None => Done tt s
    | Some cb =>
        (lift (FinishOrProceed (cont_task cb));;
         lift (reportFinish (cont_queue cb) (len (cont_task cb))))
          (mkEngine (core s) (log s) (delete i (pending s)) (host_brk s))
    end.

(** [cudaHostAlloc] hands out the next free host address. *)
Definition cudaHostAlloc (size : Z) : IoM Z :=
  fun s =>
    let ptr := host_brk s in
    Done ptr
      (mkEngine (core s) (log s ++ [Io.cudaHostAlloc ptr size]) (pending s)
         (ptr + size)).

Section Transfers.

Variable g : BytePSGlobal.t.
Variable CPU_DEVICE_ID : Z.

(** [GetCommandType(RequestType::kDefaultPushPull, dtype)], declared in a
    header that is not at hand. *)
Variable GetCommandType : Z -> Z.

(** [BytePSGlobal::GetWorkerID()], likewise. *)
Variable GetWorkerID : Z.

Definition RunCopyDevice2HostLoopOnce : IoM bool :=
  let this_op := COPYD2H in
  task ← lift (getTask this_op);
  match task with
  | Some task =>
      lift (BPS_CHECK (IsRoot g));;
      lift (BPS_CHECK (non_null (tensor task)));;
      (if negb (device task =? CPU_DEVICE_ID) then
         let len := len task in
         let offset := offset task in
         let cpubuff := cpubuff task + offset in
         lift (BPS_CHECK (negb (cpubuff =? 0)));;
         match tensor task with
         | None => lift crash
         | Some tensor =>
             io (Io.cudaMemcpyAsync cpubuff (Tensor.data tensor + offset) len
                   Io.cudaMemcpyDeviceToHost Io.CopyDevice2HostStream);;
             io (Io.cudaStreamSynchronize Io.CopyDevice2HostStream)
         end
       else mret tt);;
      lift (FinishOrProceed task);;
      lift (reportFinish this_op (len task));;
      mret true
  | None =>
      lift (sleep_for 1000);;
      mret true
  end.

Definition RunPushLoopOnce : IoM bool :=
  let this_op := PUSH in
  task ← lift (getTask this_op);
  match task with
  | Some task =>
      lift (BPS_CHECK (IsRoot g));;
      let offset := offset task in
      let len := len task in
      data ←
        (if negb (device task =? CPU_DEVICE_ID) then
           lift (BPS_CHECK (negb (cpubuff task + offset =? 0)));;
           mret (cpubuff task + offset)
         else
           lift (BPS_CHECK (non_null (tensor task)));;
           match tensor task with
           | None => lift crash
           | Some tensor => mret (Tensor.data tensor + offset)
           end);
      dtype ←
        match tensor task with
        | None => lift crash
        | Some tensor => mret (Tensor.dtype tensor)
        end;
      let cmd := GetCommandType dtype in
      ZPush_async (key task) data len cmd (mkContinuation task this_op);;
      mret true
  | None =>
      lift (sleep_for 1000);;
      mret true
  end.

Definition RunPullLoopOnce : IoM bool :=
  let this_op := PULL in
  task ← lift (getTask this_op);
  match task with
  | Some task =>
      lift (BPS_CHECK (IsRoot g));;
      let offset := offset task in
      let len := len task in
      data ←
        (if negb (device task =? CPU_DEVICE_ID) then
           lift (BPS_CHECK (negb (cpubuff task =? 0)));;
           mret (cpubuff task + offset)
         else
           lift (BPS_CHECK (non_null (output task)));;
           match output task with
           | None => lift crash
           | Some output => mret (Tensor.data output + offset)
           end);
      dtype ←
        match output task with
        | None => lift crash
        | Some output => mret (Tensor.dtype output)
        end;
      let cmd := GetCommandType dtype in
      ZPull_async (key task) data len cmd (mkContinuation task this_op);;
      mret true
  | None =>
      lift (sleep_for 1000);;
      mret true
  end.

Definition RunCopyHost2DeviceLoopOnce : IoM bool :=
  let this_op := COPYH2D in
  task ← lift (getTask this_op);
  match task with
  | Some task =>
      lift (BPS_CHECK (IsRoot g));;
      lift (BPS_CHECK (non_null (output task)));;
      (if negb (device task =? CPU_DEVICE_ID) then
         let len := len task in
         let offset := offset task in
         let cpubuff := cpubuff task + offset in
         lift (BPS_CHECK (negb (cpubuff =? 0)));;
         match output task with
         | None => lift crash
         | Some output =>
             let gpu_addr := Tensor.data output + offset in
             io (Io.cudaMemcpyAsync gpu_addr cpubuff len
                   Io.cudaMemcpyHostToDevice Io.CopyHost2DeviceStream);;
             io (Io.cudaStreamSynchronize Io.CopyHost2DeviceStream)
         end
       else mret tt);;
      lift (FinishOrProceed task);;
      lift (reportFinish this_op (len task));;
      mret true
  | None =>
      lift (sleep_for 1000);;
      mret true
  end.

(** ** Initialisation of a tensor *)

(** The [while (accumulated < size)] loop of [InitTensor]: [accumulated] and
    [i] are [unsigned int]s, [len] is an [int].  [key_list[i]] is an
    unchecked vector access; an index past the end is modelled as the end of
    the run.  The loop need not end (a length that wraps to 0 never
    advances), hence the fuel. *)
Fixpoint InitTensor_loop (fuel : nat) (key_list : list Z)
    (data size bound dtype accumulated i : Z) : IoM (Z * Z) :=
  match fuel with
  | O => fun _ => Exhausted
  | S fuel' =>
      if accumulated <? size then
        match key_list !! Z.to_nat i with
        | None => lift crash
        | Some key =>
            let len :=
              to_int (if size - accumulated >? bound then bound
                      else size - accumulated) in
            (if IsDistributedJob g && IsRoot g && (GetWorkerID =? 0) then
               let cmd := GetCommandType dtype in
               io (Io.ZPush key (data + accumulated) len cmd);;
               io Io.Wait
             else mret tt);;
            (if IsDistributedJob g && IsRoot g then
               io (Io.Barrier 0 Io.kWorkerGroup)
             else mret tt);;
            InitTensor_loop fuel' key_list data size bound dtype
              (to_uint (accumulated + len)) (to_uint (i + 1))
        end
      else mret (accumulated, i)
  end.

(** [InitTensor] writes to the context it is given by reference; the
    context as it is at the end is returned.  [name] is used in log lines
    only. *)
Definition InitTensor (fuel : nat) (context : BPSContext.t) (name : string)
    (dtype cpubuff : Z) : IoM BPSContext.t :=
  let size := BPSContext.buff_len context in
  context ←
    (if IsRoot g then
       if negb (cpubuff =? 0) then
         mret (BPSContext.mk cpubuff (BPSContext.buff_len context)
                 (BPSContext.key_list context)
                 (BPSContext.initialized context) true)
       else
         ptr ← cudaHostAlloc size;
         mret (BPSContext.mk ptr (BPSContext.buff_len context)
                 (BPSContext.key_list context)
                 (BPSContext.initialized context) false)
     else mret context);
  let key_list := BPSContext.key_list context in
  let data := BPSContext.cpubuff context in
  let bound := BytePSGlobal.GetPartitionBound g in
  lift (BPS_CHECK (0 <? length key_list)%nat);;
  parts ← lift (c_div (to_uint (size + bound - 1)) bound);
  lift (BPS_CHECK (Z.of_nat (length key_list) =? parts));;
  r ← InitTensor_loop fuel key_list data size bound dtype 0 0;
  let accumulated := r.1 in
  let i := r.2 in
  lift (BPS_CHECK (accumulated =? size));;
  lift (BPS_CHECK (i =? Z.of_nat (length key_list)));;
  mret (BPSContext.mk (BPSContext.cpubuff context)
          (BPSContext.buff_len context) (BPSContext.key_list context) true
          (BPSContext.reuse_buff context)).

Definition EnqueueTensorInit (fuel : nat) (context : BPSContext.t)
    (name : string) (dtype cpubuff : Z) (callback : nat)
  : IoM (Status * BPSContext.t) :=
  context ← InitTensor fuel context name dtype cpubuff;
  lift (emit (Call.callback callback OK));;
  mret (OK, context).

End Transfers.

(** The engine after the core has made the calls [calls] and reached
    [st']. *)
Definition moved_on (s : Engine) (st' : State) (calls : list Call.t) : Engine :=
  mkEngine st' (log s ++ (Io.core <$> calls)) (pending s) (host_brk s).

(** The calls of a log that are device copies. *)
Definition is_memcpy (c : Io.t) : bool :=
  match c with Io.cudaMemcpyAsync _ _ _ _ _ => true | _ => false end.

(** ** The stage threads *)

(** [while (RunOnce() && !BytePSGlobal::ShouldShutdown()) {}].
    [ShouldShutdown] reads a flag that another thread sets; the values a
    loop thread reads, one after the other, are given as a list, and a
    thread that outlives the list has run out of fuel.  The flag is read
    only after [RunOnce] has returned true. *)
Fixpoint stage_loop (RunOnce : IoM bool) (ShouldShutdown : list bool)
  : IoM (list bool) :=
  continue ← RunOnce;
  if continue : bool then
    match ShouldShutdown return IoM (list bool) with
    | [] => fun _ => Exhausted
    | shutdown :: later =>
        if shutdown then mret later else stage_loop RunOnce later
    end
  else mret ShouldShutdown.

Section Threads.

Variable g : BytePSGlobal.t.
Variable CPU_DEVICE_ID : Z.
Variable getNcclDataType : Z -> Z.
Variable GetCommandType : Z -> Z.

(** The function a loop thread runs again and again. *)
Definition RunOnce (f : LoopFunction) : IoM bool :=
  match f with
  | CoordinateReduceLoop => lift (RunCoordinateLoopOnce g COORDINATE_REDUCE)
  | CoordinateBroadcastLoop =>
      lift (RunCoordinateLoopOnce g COORDINATE_BROADCAST)
  | RootNcclLoop => lift (RunRootNcclLoopOnce g CPU_DEVICE_ID getNcclDataType)
  | NonRootNcclLoop =>
      lift (RunNonRootNcclLoopOnce g CPU_DEVICE_ID getNcclDataType)
  | SyncNcclLoop => lift RunSyncNcclOnce
  | CopyDevice2HostLoop => RunCopyDevice2HostLoopOnce g CPU_DEVICE_ID
  | PushLoop => RunPushLoopOnce g CPU_DEVICE_ID GetCommandType
  | PullLoop => RunPullLoopOnce g CPU_DEVICE_ID GetCommandType
  | CopyHost2DeviceLoop => RunCopyHost2DeviceLoopOnce g CPU_DEVICE_ID
  end.

(** The loops that begin with [cudaSetDevice(BytePSGlobal::GetLocalRank())]. *)
Definition sets_device (f : LoopFunction) : bool :=
  match f with
  | RootNcclLoop | NonRootNcclLoop | SyncNcclLoop
  | CopyDevice2HostLoop | CopyHost2DeviceLoop => true
  | CoordinateReduceLoop | CoordinateBroadcastLoop | PushLoop | PullLoop =>
      false
  end.

(** The nine loop functions, lines 410-449. *)
Definition run_loop (f : LoopFunction) (ShouldShutdown : list bool)
  : IoM (list bool) :=
  (if sets_device f then io (Io.cudaSetDevice (BytePSGlobal.GetLocalRank g))
   else mret tt);;
  stage_loop (RunOnce f) ShouldShutdown.

End Threads.

(** The queue a single-queue stage serves. *)
Definition stage_queue (f : LoopFunction) : option QueueType :=
  match f with
  | CoordinateReduceLoop => Some COORDINATE_REDUCE
  | CoordinateBroadcastLoop => Some COORDINATE_BROADCAST
  | CopyDevice2HostLoop => Some COPYD2H
  | PushLoop => Some PUSH
  | PullLoop => Some PULL
  | CopyHost2DeviceLoop => Some COPYH2D
  | RootNcclLoop | NonRootNcclLoop | SyncNcclLoop => None
  end.

(** The role a single-queue stage insists on: the coordinate stages run on
    non-root devices, the copy, push and pull stages on the root. *)
Definition root_stage (f : LoopFunction) : bool :=
  match f with
  | CoordinateReduceLoop | CoordinateBroadcastLoop => false
  | _ => true
  end.

(** No item of the queue is ready. *)
Definition none_ready (q : QueueType) (st : State) : Prop :=
  Forall (fun e => is_ready st e = false) (GetScheduledQueue q st).

(** A stage function that, when it returns, returns true. *)
Definition returns_true (m : IoM bool) : Prop :=
  forall s b s', m s = Done b s' -> b = true.

(** [n] runs of a stage function, one after the other. *)
Fixpoint runs (RunOnce : IoM bool) (n : nat) : IoM unit :=
  match n with
  | O => mret tt
  | S n' => RunOnce;; runs RunOnce n'
  end.

Definition core_returns_true (m : M bool) : Prop :=
  forall st b st', m st = Ret b st' -> b = true.

(** The entries an initialisation logs for partition [i] of a buffer at
    [data]: the push of the window and the wait for it on worker 0 of a
    distributed root, then the barrier on every distributed root. *)
Definition init_round (g : BytePSGlobal.t) (GetCommandType : Z -> Z)
    (GetWorkerID : Z) (key_list : list Z) (data size bound dtype : Z)
    (i : nat) : list Io.t :=
  (if IsDistributedJob g && IsRoot g && (GetWorkerID =? 0) then
     [Io.ZPush (default 0 (key_list !! i)) (data + Z.of_nat i * bound)
        (Z.min bound (size - Z.of_nat i * bound)) (GetCommandType dtype);
      Io.Wait]
   else []) ++
  (if IsDistributedJob g && IsRoot g then [Io.Barrier 0 Io.kWorkerGroup]
   else []).

(** The first step of [InitTensor]: on the root the host buffer of the
    context is the one handed in or, without one, a newly allocated one;
    elsewhere the context keeps what it has. *)
Definition init_buffer (g : BytePSGlobal.t) (context : BPSContext.t)
    (cpubuff : Z) (s : Engine) : Z :=
  if IsRoot g then (if cpubuff =? 0 then host_brk s else cpubuff)
  else BPSContext.cpubuff context.

Definition after_alloc (g : BytePSGlobal.t) (context : BPSContext.t)
    (cpubuff : Z) (s : Engine) : Engine :=
  if IsRoot g && (cpubuff =? 0) then
    mkEngine (core s)
      (log s ++ [Io.cudaHostAlloc (host_brk s) (BPSContext.buff_len context)])
      (pending s) (host_brk s + BPSContext.buff_len context)
  else s.

(** The context a successful [InitTensor] leaves. *)
Definition initialised (g : BytePSGlobal.t) (context : BPSContext.t)
    (cpubuff : Z) (s : Engine) : BPSContext.t :=
  BPSContext.mk (init_buffer g context cpubuff s)
    (BPSContext.buff_len context) (BPSContext.key_list context) true
    (if IsRoot g then negb (cpubuff =? 0)
     else BPSContext.reuse_buff context).

(** The parameter-server windows of a log: key, address and length of every
    push. *)
Definition pushes (l : list Io.t) : list (Z * Z * Z) :=
  omap (fun c => match c with
                 | Io.ZPush key vals len _ => Some (key, vals, len)
                 | _ => None
                 end) l.

(** The window of a work item in the host buffer of its tensor, with the
    key it goes under. *)
Definition host_window (p : TensorTableEntry) : Z * Z * Z :=
  (key p, cpubuff p + offset p, len p).

(** A log entry that is no call of the core loops: no callback, no queue
    operation, no signal. *)
Definition beside_core (c : Io.t) : Prop :=
  match c with Io.core _ => False | _ => True end.

(** A computation that leaves the core state alone and logs nothing but
    entries beside the core, however it ends, and whose results satisfy
    [P]. *)
Definition keeps_core {A} (P : A -> Prop) (m : IoM A) : Prop :=
  forall s,
    match m s with
    | Done a s' =>
        P a /\ core s' = core s /\
        exists l, log s' = log s ++ l /\ Forall beside_core l
    | Died s' | Stuck s' =>
        core s' = core s /\
        exists l, log s' = log s ++ l /\ Forall beside_core l
    | Exhausted => True
    end.

(** ** The inter-node stages in a row *)

(** The core state after the stage of queue [q] has taken its only item and
    handed it, as [task'], to the queue of [next], and [len] bytes were
    reported on [q]. *)
Definition handled (q next : QueueType) (task' : TensorTableEntry) (len : Z)
    (st : State) : State :=
  record (Call.reportFinish q len) (enqueued next task' (put_queue q [] st)).



(** ** Further sample states *)
Module Scenario.


(** An engine around a core state, with nothing logged or owed. *)
Definition engine (st : State) : Engine := mkEngine st [] [] 65536.

Definition GetCommandType (dtype : Z) : Z := dtype + 100.

(** An item of a distributed root on its way through the inter-node
    stages. *)
Definition traveller (stages : list QueueType) : TensorTableEntry :=
  Sample.item "w_0" 1 stages 5 1.

(** A partition that waits for its ready event 3. *)
Definition unready (stages : list QueueType) : TensorTableEntry :=
  {| tensor_name := "u_0";
     key := 1;
     context := Sample.context_of 16 [1];
     tensor := Some (Sample.tensor_of 16);
     output := Some (Sample.tensor_of 16);
     priority := 0;
     version := 0;
     ready_event := Some 3%nat;
     device := 0;
     callback := 7%nat;
     cpubuff := 8192;
     queue_list := stages;
     offset := 0;
     len := 16;
     counter_ptr := Some 5%nat;
     total_partnum := 1 |}.

End Scenario.

(** * Properties *)

Lemma to_int_id (z : Z) : - 2 ^ 31 <= z <= INT_MAX -> to_int z = z.
Proof.
  unfold to_int, INT_MAX. intros H.
  rewrite Z.mod_small by lia. lia.
Qed.

Lemma to_uint_id (z : Z) : 0 <= z < 2 ^ 32 -> to_uint z = z.
Proof. unfold to_uint. intros H. apply Z.mod_small; lia. Qed.

Lemma bind_unfold {A B} (m : M A) (k : A -> M B) (st : State) :
  (m ≫= k) st =
  match m st with
  | Ret a st' => k a st'
  | Aborted st' => Aborted st'
  | Blocked st' => Blocked st'
  | OutOfFuel => OutOfFuel
  end.
Proof. reflexivity. Qed.

Lemma bind_Ret {A B} (m : M A) (k : A -> M B) (st st' : State) (a : A) :
  m st = Ret a st' -> (m ≫= k) st = k a st'.
Proof. intros H. rewrite bind_unfold, H. reflexivity. Qed.

Lemma bind_Aborted {A B} (m : M A) (k : A -> M B) (st st' : State) :
  m st = Aborted st' -> (m ≫= k) st = Aborted st'.
Proof. intros H. rewrite bind_unfold, H. reflexivity. Qed.

Lemma bind_Ret_inv {A B} (m : M A) (k : A -> M B) (st st' : State) (b : B) :
  (m ≫= k) st = Ret b st' ->
  exists a st1, m st = Ret a st1 /\ k a st1 = Ret b st'.
Proof.
  rewrite bind_unfold. destruct (m st) as [a st1| | |]; try discriminate.
  intros H. exists a, st1. auto.
Qed.

Lemma bind_ext {A B} (m : M A) (k1 k2 : A -> M B) (st : State) :
  (forall a st', k1 a st' = k2 a st') -> (m ≫= k1) st = (m ≫= k2) st.
Proof.
  intros H. rewrite !bind_unfold. destruct (m st); auto.
Qed.

(** *** FinishOrProceed *)

Lemma FinishOrProceed_next (task : TensorTableEntry) (st : State)
    (this_op next : QueueType) (rest : list QueueType) :
  queue_list task = this_op :: next :: rest ->
  FinishOrProceed task st =
  Ret tt (enqueued next (with_queue_list (next :: rest) task) st).
Proof.
  intros Hq. unfold FinishOrProceed. rewrite Hq. reflexivity.
Qed.

Lemma FinishOrProceed_last (task : TensorTableEntry) (st : State)
    (this_op : QueueType) (c : nat) (v : Z) :
  queue_list task = [this_op] ->
  counter_ptr task = Some c ->
  atomics st !! c = Some v ->
  FinishOrProceed task st =
  Ret tt (if v =? total_partnum task - 1
          then record (Call.callback (callback task) OK) (incremented c v st)
          else incremented c v st).
Proof.
  intros Hq Hc Hv.
  unfold FinishOrProceed, mbind, M_bind, BPS_CHECK, fetch_add.
  rewrite Hq. cbn. rewrite Hc, Hv.
  destruct (v =? total_partnum task - 1); reflexivity.
Qed.

Lemma GetScheduledQueue_enqueued (q : QueueType) (task : TensorTableEntry)
    (st : State) :
  GetScheduledQueue q (enqueued q task st) = GetScheduledQueue q st ++ [task].
Proof.
  unfold GetScheduledQueue at 1. cbn. rewrite lookup_insert_eq. reflexivity.
Qed.

Lemma GetScheduledQueue_enqueued_ne (q q' : QueueType) (task : TensorTableEntry)
    (st : State) :
  q <> q' ->
  GetScheduledQueue q' (enqueued q task st) = GetScheduledQueue q' st.
Proof.
  intros Hne. unfold GetScheduledQueue. cbn.
  rewrite lookup_insert_ne by exact Hne. reflexivity.
Qed.

Lemma FinishAll_quiet (c cb : nat) (n : Z) (parts : list TensorTableEntry) :
  forall (v : Z) (st : State),
    Forall (last_stage_of c cb n) parts ->
    atomics st !! c = Some v ->
    0 <= v ->
    v + Z.of_nat (length parts) < n ->
    n <= INT_MAX ->
    exists st1,
      FinishAll parts st = Ret tt st1 /\
      trace st1 = trace st /\
      sched_queues st1 = sched_queues st /\
      atomics st1 !! c = Some (v + Z.of_nat (length parts)).
Proof.
  induction parts as [|p ps IH]; intros v st Hall Hv Hv0 Hlt Hn.
  - exists st. cbn. rewrite Z.add_0_r. auto.
  - apply Forall_cons in Hall as [Hp Hall].
    destruct Hp as ([op Hq] & Hc & Hn' & Hcb).
    cbn [length] in Hlt. rewrite Nat2Z.inj_succ in Hlt.
    destruct (IH (v + 1) (incremented c v st)) as (st1 & Hrun & Htr & Hqs & Hat);
      try lia; try assumption.
    { cbn. rewrite lookup_insert_eq. f_equal.
      apply to_int_id. unfold INT_MAX in *. lia. }
    exists st1. split; [|split; [|split]].
    + cbn [FinishAll].
      erewrite bind_Ret; [exact Hrun|].
      rewrite (FinishOrProceed_last p st op c v Hq Hc Hv).
      rewrite Hn'. replace (v =? n - 1) with false; [reflexivity|].
      symmetry. apply Z.eqb_neq. lia.
    + rewrite Htr. reflexivity.
    + rewrite Hqs. reflexivity.
    + rewrite Hat. f_equal. cbn [length]. lia.
Qed.

(** C1.  [FinishOrProceed] on a work item with a non-empty [queue_list]
    removes the head stage.  If stages remain, the item, with the shortened
    list, is put on the queue of the new head stage.  Otherwise the shared
    counter behind [counter_ptr] is incremented in one indivisible step, and
    the callback is invoked with success exactly when the value before the
    increment is [total_partnum - 1].  Over the partitions of one tensor,
    whose counter starts at 0: whatever the order in which the partitions
    pass their last stage, the calls for all but the last invoke nothing,
    and the last call, which finds [total_partnum - 1], invokes the callback
    once. *)
Theorem FinishOrProceed_contract :
  forall (task : TensorTableEntry) (st : State) (this_op : QueueType)
         (rest : list QueueType),
    queue_list task = this_op :: rest ->
    (forall next rest',
        rest = next :: rest' ->
        FinishOrProceed task st =
        Ret tt (enqueued next (with_queue_list rest task) st)) /\
    (forall c v,
        rest = [] ->
        counter_ptr task = Some c ->
        atomics st !! c = Some v ->
        FinishOrProceed task st =
        Ret tt (if v =? total_partnum task - 1
                then record (Call.callback (callback task) OK)
                       (incremented c v st)
                else incremented c v st)) /\
    (forall c (others : list TensorTableEntry),
        rest = [] ->
        counter_ptr task = Some c ->
        total_partnum task = Z.of_nat (length (others ++ [task])) ->
        total_partnum task <= INT_MAX ->
        Forall (last_stage_of c (callback task) (total_partnum task)) others ->
        atomics st !! c = Some 0 ->
        exists st1 st2,
          FinishAll others st = Ret tt st1 /\
          trace st1 = trace st /\
          atomics st1 !! c = Some (total_partnum task - 1) /\
          FinishOrProceed task st1 = Ret tt st2 /\
          trace st2 = trace st ++ [Call.callback (callback task) OK] /\
          atomics st2 !! c = Some (total_partnum task)).
Proof.
  intros task st this_op rest Hq. split; [|split].
  - intros next rest' ->. apply (FinishOrProceed_next _ _ this_op). exact Hq.
  - intros c v -> Hc Hv. apply (FinishOrProceed_last _ _ this_op); assumption.
  - intros c others -> Hc Hn Hmax Hall H0.
    rewrite length_app in Hn. cbn [length] in Hn.
    destruct (FinishAll_quiet c (callback task) (total_partnum task) others 0 st)
      as (st1 & Hrun & Htr & _ & Hat); try assumption; try lia.
    replace (0 + Z.of_nat (length others)) with (total_partnum task - 1)
      in Hat by lia.
    exists st1.
    exists (record (Call.callback (callback task) OK)
              (incremented c (total_partnum task - 1) st1)).
    split; [exact Hrun|]. split; [exact Htr|]. split; [exact Hat|].
    split; [|split].
    + rewrite (FinishOrProceed_last task st1 this_op c _ Hq Hc Hat).
      rewrite Z.eqb_refl. reflexivity.
    + cbn. rewrite Htr. reflexivity.
    + cbn. rewrite lookup_insert_eq. f_equal.
      rewrite to_int_id; unfold INT_MAX in *; lia.
Qed.

Lemma FinishOrProceed_contract_witness :
  exists st1 st2,
    FinishAll [Sample.item "w_0" 1 [BROADCAST] 5 2] Sample.counter_state
      = Ret tt st1 /\
    trace st1 = [] /\
    FinishOrProceed (Sample.item "w_1" 2 [BROADCAST] 5 2) st1 = Ret tt st2 /\
    trace st2 = [Call.callback 7%nat OK].
Proof.
  destruct (FinishOrProceed_contract (Sample.item "w_1" 2 [BROADCAST] 5 2)
              Sample.counter_state BROADCAST [] eq_refl) as (_ & _ & H).
  destruct (H 5%nat [Sample.item "w_0" 1 [BROADCAST] 5 2])
    as (st1 & st2 & H1 & H2 & _ & H3 & H4 & _).
  - reflexivity.
  - reflexivity.
  - reflexivity.
  - vm_compute. discriminate.
  - repeat constructor. exists BROADCAST. reflexivity.
  - reflexivity.
  - exists st1, st2. auto.
Defined.

(** *** PartitionTensor *)

Section Partition.

Variables (size bound : Z).
Hypothesis bound_pos : 0 < bound.

Lemma below_count (i : nat) :
  Z.of_nat i * bound < size <-> (i < partition_count size bound)%nat.
Proof.
  unfold partition_count. split; intros H.
  - assert (Z.of_nat i + 1 <= (size + bound - 1) `div` bound).
    { apply Z.div_le_lower_bound; lia. }
    lia.
  - assert (Hle : Z.of_nat i + 1 <= (size + bound - 1) `div` bound) by lia.
    pose proof (Z.mul_div_le (size + bound - 1) bound bound_pos) as Hm.
    nia.
Qed.

Lemma item_is_nth (entry : TensorTableEntry) (i : nat) :
  PartitionTensor_item entry size bound (Z.of_nat i * bound) (Z.of_nat i) =
  nth_partition entry size bound i.
Proof.
  unfold PartitionTensor_item, nth_partition. f_equal.
  destruct (size - Z.of_nat i * bound >? bound) eqn:E.
  - apply Z.gtb_lt in E. lia.
  - rewrite Z.gtb_ltb in E. apply Z.ltb_ge in E. lia.
Qed.

Lemma PartitionTensor_loop_run (entry : TensorTableEntry) (fuel : nat) :
  forall (i : nat) (partitions : list TensorTableEntry) (st : State),
    size <= INT_MAX ->
    (partition_count size bound - i < fuel)%nat ->
    PartitionTensor_loop fuel entry size bound
      (Z.min (Z.of_nat i * bound) size) (Z.of_nat i) partitions st =
    Ret (partitions ++
           map (nth_partition entry size bound)
             (seq i (partition_count size bound - i))) st.
Proof.
  induction fuel as [|fuel IH]; intros i ps st Hmax Hfuel; [lia|].
  cbn [PartitionTensor_loop].
  destruct (Z.min (Z.of_nat i * bound) size <? size) eqn:E.
  - apply Z.ltb_lt in E.
    assert (Hi : Z.of_nat i * bound < size) by lia.
    pose proof (proj1 (below_count i) Hi) as Hc.
    rewrite Z.min_l by lia.
    rewrite item_is_nth.
    replace (to_int (Z.of_nat i + 1)) with (Z.of_nat (S i)).
    2:{ rewrite to_int_id; unfold INT_MAX in *; nia. }
    replace (to_int (Z.of_nat i * bound +
                     len (nth_partition entry size bound i)))
      with (Z.min (Z.of_nat (S i) * bound) size).
    2:{ cbn [len nth_partition]. rewrite to_int_id; unfold INT_MAX in *; lia. }
    rewrite IH by (try assumption; lia).
    replace (partition_count size bound - i)%nat
      with (S (partition_count size bound - S i)) by lia.
    cbn [seq map]. rewrite <- app_assoc. reflexivity.
  - apply Z.ltb_ge in E.
    assert (Hi : ~ Z.of_nat i * bound < size) by lia.
    rewrite below_count in Hi.
    replace (partition_count size bound - i)%nat with 0%nat by lia.
    cbn. rewrite app_nil_r. reflexivity.
Qed.

Lemma sum_len_partitions (entry : TensorTableEntry) (k : nat) :
  forall i : nat,
    k = (partition_count size bound - i)%nat ->
    sum_len (map (nth_partition entry size bound) (seq i k)) =
    size - Z.min (Z.of_nat i * bound) size.
Proof.
  induction k as [|k IH]; intros i Hk.
  - cbn. assert (Hi : ~ Z.of_nat i * bound < size) by (rewrite below_count; lia).
    lia.
  - assert (Hi : Z.of_nat i * bound < size) by (rewrite below_count; lia).
    cbn [seq map sum_len foldr].
    fold (sum_len (map (nth_partition entry size bound) (seq (S i) k))).
    rewrite IH by lia. cbn [len nth_partition]. lia.
Qed.

Lemma len_partitions_pos (entry : TensorTableEntry) (k i : nat) :
  (i + k <= partition_count size bound)%nat ->
  Forall (fun p => 0 < len p) (map (nth_partition entry size bound) (seq i k)).
Proof.
  revert i. induction k as [|k IH]; intros i Hk; cbn [seq map]; constructor.
  - assert (Hi : Z.of_nat i * bound < size) by (rewrite below_count; lia).
    cbn [len nth_partition]. lia.
  - apply IH. lia.
Qed.

End Partition.

(** *** EnqueueTensor *)

Lemma EnqueueTensor_loop_run (q0 : QueueType)
    (partitions : list TensorTableEntry) :
  forall (key_list : list Z) (accumulated : Z) (st : State),
    length key_list = length partitions ->
    Forall (fun p => 0 < len p) partitions ->
    0 <= accumulated ->
    accumulated + sum_len partitions < 2 ^ 32 ->
    EnqueueTensor_loop q0 key_list partitions accumulated st =
    Ret (accumulated + sum_len partitions)
      (enqueue_all q0 key_list partitions st).
Proof.
  induction partitions as [|p ps IH]; intros keys acc st Hlen Hpos Hacc Hsum.
  - destruct keys; [|discriminate]. cbn. rewrite Z.add_0_r. reflexivity.
  - destruct keys as [|k keys]; [discriminate|].
    apply Forall_cons in Hpos as [Hp Hpos].
    cbn [sum_len foldr] in Hsum |- *. fold (sum_len ps) in Hsum |- *.
    assert (Hs : 0 <= sum_len ps).
    { clear -Hpos. induction Hpos; cbn; [lia|].
      fold (sum_len l). lia. }
    cbn [EnqueueTensor_loop].
    erewrite bind_Ret; [|reflexivity].
    change (len (with_key k p)) with (len p).
    rewrite to_uint_id by lia.
    rewrite IH; try assumption; try lia.
    + f_equal. lia.
    + cbn in Hlen. lia.
Qed.

Section Enqueue.

Variables (g : BytePSGlobal.t) (context : BPSContext.t).
Variables (ready_event : option nat).
Variables (name : string) (device priority version : Z) (callback : nat).
Variable queue_list : list QueueType.

Let bound := BytePSGlobal.GetPartitionBound g.
Let key_list := BPSContext.key_list context.

Lemma tensor_or_output_size_read (e : TensorTableEntry) (size : Z)
    (st : State) :
  byte_size (tensor e) (output e) = Some size ->
  tensor_or_output_size e st = Ret size st.
Proof.
  unfold tensor_or_output_size, byte_size.
  destruct (tensor e); [intros [= <-]; reflexivity|].
  destruct (output e); cbn; [intros [= <-]; reflexivity|discriminate].
Qed.

Lemma EnqueueTensor_run (input output : option Tensor.t) (size : Z)
    (fuel : nat) (st : State) :
  byte_size input output = Some size ->
  0 <= size <= INT_MAX ->
  0 < bound ->
  sizes_agree input output ->
  (partition_count size bound < fuel)%nat ->
  let e :=
    EnqueueTensor_entry context input output ready_event name device priority
      version callback queue_list (fresh (dom (atomics st))) in
  let partitions :=
    map (nth_partition e size bound) (seq 0 (partition_count size bound)) in
  EnqueueTensor g fuel context input output ready_event name device priority
    version callback queue_list st =
  if (length key_list =? partition_count size bound)%nat then
    match queue_list with
    | [] => Ret OK (record (Call.callback callback OK) (allocated 0 st))
    | q0 :: _ => Ret OK (enqueue_all q0 key_list partitions (allocated 0 st))
    end
  else Aborted (allocated 0 st).
Proof.
  intros size_read size_range bound_pos Hagree Hfuel e partitions.
  unfold EnqueueTensor.
  erewrite bind_Ret with (st' := st) (a := tt).
  2:{ destruct input as [i|], output as [o|]; try reflexivity.
      unfold BPS_CHECK. rewrite (Hagree i o eq_refl eq_refl), Z.eqb_refl.
      reflexivity. }
  erewrite bind_Ret; [|reflexivity]. fold e.
  assert (Hpart : PartitionTensor g fuel e [] (allocated 0 st) =
                  Ret partitions (allocated 0 st)).
  { unfold PartitionTensor.
    erewrite bind_Ret; [|reflexivity].
    erewrite bind_Ret; [|apply tensor_or_output_size_read; exact size_read].
    fold bound.
    pose proof (PartitionTensor_loop_run size bound bound_pos
                  e fuel 0 [] (allocated 0 st) (proj2 size_range)) as H.
    rewrite Nat.sub_0_r in H. cbn [Z.of_nat] in H.
    rewrite Z.mul_0_l, Z.min_l in H by lia.
    apply H. exact Hfuel. }
  erewrite bind_Ret; [|exact Hpart].
  assert (Hlen : length partitions = partition_count size bound).
  { unfold partitions. rewrite length_map, length_seq. reflexivity. }
  rewrite Hlen. fold key_list.
  destruct (length key_list =? partition_count size bound)%nat eqn:E;
    [|reflexivity].
  apply Nat.eqb_eq in E.
  erewrite bind_Ret; [|reflexivity].
  destruct queue_list as [|q0 ql]; [reflexivity|].
  assert (Hsum : sum_len partitions = size).
  { unfold partitions.
    rewrite (sum_len_partitions size bound bound_pos e
               (partition_count size bound) 0) by lia.
    cbn [Z.of_nat]. lia. }
  erewrite bind_Ret.
  2:{ apply EnqueueTensor_loop_run.
      - lia.
      - apply len_partitions_pos; [exact bound_pos|lia].
      - lia.
      - rewrite Hsum. unfold INT_MAX in size_range. lia. }
  erewrite bind_Ret; [|apply tensor_or_output_size_read; exact size_read].
  rewrite Hsum, Z.add_0_l. unfold BPS_CHECK at 1. rewrite bind_unfold.
  rewrite Z.eqb_refl. reflexivity.
Qed.

End Enqueue.

Lemma lookup_map_seq {A} (f : nat -> A) (k : nat) :
  forall i j : nat, (j < k)%nat -> map f (seq i k) !! j = Some (f (i + j)%nat).
Proof.
  induction k as [|k IH]; intros i j Hj; [lia|].
  destruct j as [|j]; cbn [seq map].
  - rewrite Nat.add_0_r. reflexivity.
  - change ((f i :: map f (seq (S i) k)) !! S j) with (map f (seq (S i) k) !! j).
    rewrite IH by lia. f_equal. f_equal. lia.
Qed.

Lemma PartitionTensor_loop_zero_bound (entry : TensorTableEntry) (size : Z)
    (st : State) (fuel : nat) :
  forall (i : Z) (partitions : list TensorTableEntry),
    0 < size ->
    PartitionTensor_loop fuel entry size 0 0 i partitions st = OutOfFuel.
Proof.
  induction fuel as [|fuel IH]; intros i ps Hs; [reflexivity|].
  cbn [PartitionTensor_loop].
  replace (0 <? size) with true by (symmetry; apply Z.ltb_lt; exact Hs).
  cbn [len PartitionTensor_item].
  replace (size - 0 >? 0) with true
    by (symmetry; rewrite Z.gtb_ltb; apply Z.ltb_lt; lia).
  change (to_int (0 + 0)) with 0. apply IH. exact Hs.
Qed.

(** C2 (amended).  When input and output are both given and their byte
    sizes differ, the size check of [EnqueueTensor] fails and ends the
    process before anything else is done: no callback is invoked, with
    whatever status, nothing is put on a queue, and the state is the one the
    call was made in. *)
Theorem EnqueueTensor_size_mismatch :
  forall (g : BytePSGlobal.t) (fuel : nat) (context : BPSContext.t)
         (i o : Tensor.t) (ready_event : option nat) (name : string)
         (device priority version : Z) (callback : nat)
         (queue_list : list QueueType) (st : State),
    Tensor.size i <> Tensor.size o ->
    EnqueueTensor g fuel context (Some i) (Some o) ready_event name device
      priority version callback queue_list st = Aborted st.
Proof.
  intros g fuel context i o re name dev prio ver cb ql st Hne.
  unfold EnqueueTensor. apply bind_Aborted. unfold BPS_CHECK.
  replace (Tensor.size i =? Tensor.size o) with false; [reflexivity|].
  symmetry. apply Z.eqb_neq. exact Hne.
Qed.

Lemma EnqueueTensor_size_mismatch_witness :
  EnqueueTensor (Sample.root_registry false 1024) 10
    (Sample.context_of 16 [1]) (Some (Sample.tensor_of 16))
    (Some (Sample.tensor_of 32)) None "grad" 0 0 0 7%nat [REDUCE; BROADCAST]
    Sample.empty_state = Aborted Sample.empty_state.
Proof.
  apply EnqueueTensor_size_mismatch. cbn. lia.
Defined.

(** C2, as stated, fails: with a 16-byte input and a 32-byte output the call
    ends in a state whose trace holds no callback invocation with a failure
    status. *)
Lemma EnqueueTensor_size_mismatch_no_failure_callback :
  ~ (exists st' reason,
        final_state
          (EnqueueTensor (Sample.root_registry false 1024) 10
             (Sample.context_of 16 [1]) (Some (Sample.tensor_of 16))
             (Some (Sample.tensor_of 32)) None "grad" 0 0 0 7%nat
             [REDUCE; BROADCAST] Sample.empty_state) = Some st' /\
        In (Call.callback 7%nat (Error reason)) (trace st')).
Proof.
  intros (st' & reason & Hfin & Hin).
  vm_compute in Hfin. injection Hfin as <-. exact Hin.
Qed.

Lemma PartitionTensor_loop_state (entry : TensorTableEntry) (size bound : Z)
    (fuel : nat) :
  forall (accumulated i : Z) (partitions result : list TensorTableEntry)
         (st st' : State),
    PartitionTensor_loop fuel entry size bound accumulated i partitions st =
      Ret result st' ->
    st' = st.
Proof.
  induction fuel as [|fuel IH]; intros acc i ps result st st' Hrun;
    [discriminate|].
  cbn [PartitionTensor_loop] in Hrun.
  destruct (acc <? size).
  - exact (IH _ _ _ _ _ _ Hrun).
  - injection Hrun as _ <-. reflexivity.
Qed.

Lemma PartitionTensor_state (g : BytePSGlobal.t) (fuel : nat)
    (entry : TensorTableEntry) (partitions result : list TensorTableEntry)
    (st st' : State) :
  PartitionTensor g fuel entry partitions st = Ret result st' -> st' = st.
Proof.
  unfold PartitionTensor. intros Hrun.
  apply bind_Ret_inv in Hrun as ([] & st1 & Hcheck & Hrun).
  apply bind_Ret_inv in Hrun as (size & st2 & Hsize & Hrun).
  apply PartitionTensor_loop_state in Hrun. subst st'.
  unfold BPS_CHECK in Hcheck.
  destruct (non_null (counter_ptr entry)); [|discriminate].
  injection Hcheck as <-.
  unfold tensor_or_output_size in Hsize.
  destruct (tensor entry); [injection Hsize as _ <-; reflexivity|].
  destruct (output entry); [injection Hsize as _ <-; reflexivity|discriminate].
Qed.

(** C8 (amended).  A call of [EnqueueTensor] with an empty [queue_list],
    for a tensor of [size] bytes with [0 <= size <= INT_MAX] (input and
    output, when both are given, having the same byte size), with a positive
    partition bound and on a context whose [key_list] has one key per
    partition, invokes the callback with success before it returns, puts
    nothing on any queue and returns success. *)
Theorem EnqueueTensor_empty_queue_list :
  forall (g : BytePSGlobal.t) (fuel : nat) (context : BPSContext.t)
         (input output : option Tensor.t) (ready_event : option nat)
         (name : string) (device priority version : Z) (callback : nat)
         (size : Z) (st : State),
    let bound := BytePSGlobal.GetPartitionBound g in
    byte_size input output = Some size ->
    sizes_agree input output ->
    0 <= size <= INT_MAX ->
    0 < bound ->
    (partition_count size bound < fuel)%nat ->
    length (BPSContext.key_list context) = partition_count size bound ->
    exists st',
      EnqueueTensor g fuel context input output ready_event name device
        priority version callback [] st = Ret OK st' /\
      trace st' = trace st ++ [Call.callback callback OK] /\
      sched_queues st' = sched_queues st /\
      nccl_groups st' = nccl_groups st.
Proof.
  intros g fuel context input output re name dev prio ver cb size st bound
    Hsize Hagree Hrange Hbound Hfuel Hkeys.
  rewrite (EnqueueTensor_run g context re name dev prio ver cb [] input
             output size fuel st Hsize Hrange Hbound Hagree Hfuel).
  fold bound. rewrite Hkeys, Nat.eqb_refl.
  eexists. split; [reflexivity|]. cbn. auto.
Qed.

Lemma EnqueueTensor_empty_queue_list_witness :
  exists st',
    EnqueueTensor (Sample.root_registry false 20) 10
      (Sample.context_of 77 [1; 2; 3; 4]) (Some (Sample.tensor_of 77))
      (Some (Sample.tensor_of 77)) None "grad" 0 0 0 7%nat []
      Sample.empty_state = Ret OK st' /\
    trace st' = trace Sample.empty_state ++ [Call.callback 7%nat OK] /\
    sched_queues st' = sched_queues Sample.empty_state /\
    nccl_groups st' = nccl_groups Sample.empty_state.
Proof.
  apply (EnqueueTensor_empty_queue_list (Sample.root_registry false 20) 10
           (Sample.context_of 77 [1; 2; 3; 4]) (Some (Sample.tensor_of 77))
           (Some (Sample.tensor_of 77)) None "grad" 0 0 0 7%nat 77
           Sample.empty_state).
  - reflexivity.
  - intros i o [= <-] [= <-]. reflexivity.
  - unfold INT_MAX. lia.
  - cbn. lia.
  - vm_compute. lia.
  - reflexivity.
Defined.

(** C8, as stated, fails.  With an empty [queue_list] and a context that
    holds the one key of a tensor of one partition, a call whose input has
    16 bytes and whose output has 32 ends the process on the size check: no
    callback is invoked and the call does not return.  With a partition
    bound of 0 the partitioner never finishes, so the call neither invokes
    the callback nor returns, however long it runs. *)
Lemma EnqueueTensor_empty_queue_list_no_callback :
  (length (BPSContext.key_list (Sample.context_of 16 [1])) =
     partition_count 16 1024 /\
   EnqueueTensor (Sample.root_registry false 1024) 10
     (Sample.context_of 16 [1]) (Some (Sample.tensor_of 16))
     (Some (Sample.tensor_of 32)) None "grad" 0 0 0 7%nat []
     Sample.empty_state = Aborted Sample.empty_state /\
   trace Sample.empty_state = []) /\
  (forall fuel : nat,
      EnqueueTensor (Sample.root_registry false 0) fuel
        (Sample.context_of 16 [1]) (Some (Sample.tensor_of 16))
        (Some (Sample.tensor_of 16)) None "grad" 0 0 0 7%nat []
        Sample.empty_state = OutOfFuel).
Proof.
  split.
  - split; [reflexivity|]. split; [vm_compute; reflexivity|reflexivity].
  - intros fuel. unfold EnqueueTensor.
    erewrite bind_Ret; [|reflexivity].
    erewrite bind_Ret; [|reflexivity].
    rewrite bind_unfold. unfold PartitionTensor.
    erewrite bind_Ret; [|reflexivity].
    erewrite bind_Ret; [|reflexivity].
    rewrite PartitionTensor_loop_zero_bound; [reflexivity|reflexivity].
Qed.




(** *** byteps_init *)

(** C9.  [byteps_init] starts, on a root device, the RootNccl and SyncNccl
    loops, and with them the CopyD2H, Push, Pull and CopyH2D loops exactly
    when the job is distributed; on a non-root device it starts the
    CoordinateReduce, NonRootNccl, SyncNccl and CoordinateBroadcast loops;
    no loop is started twice.  A distributed root thus starts at least 5
    loop threads and a non-root at least 4. *)
Theorem byteps_init_loops :
  forall g : BytePSGlobal.t,
    byteps_init g =
      (if IsRoot g then
         [RootNcclLoop; SyncNcclLoop] ++
         (if IsDistributedJob g
          then [CopyDevice2HostLoop; PushLoop; PullLoop; CopyHost2DeviceLoop]
          else [])
       else [CoordinateReduceLoop; NonRootNcclLoop; SyncNcclLoop;
             CoordinateBroadcastLoop]) /\
    NoDup (byteps_init g) /\
    (forall l,
        In l [CopyDevice2HostLoop; PushLoop; PullLoop; CopyHost2DeviceLoop] ->
        In l (byteps_init g) <-> IsRoot g = true /\ IsDistributedJob g = true) /\
    (IsRoot g = true -> IsDistributedJob g = true ->
     (5 <= length (byteps_init g))%nat) /\
    (IsRoot g = false -> (4 <= length (byteps_init g))%nat).
Proof.
  intros g. unfold byteps_init, Start.
  destruct (IsRoot g), (IsDistributedJob g); cbn [app length];
    (split; [reflexivity|]);
    (split;
       [repeat (apply NoDup_cons_2;
                  [intros H%list_elem_of_In; cbn in H; intuition discriminate|]);
        apply NoDup_nil_2|]);
    (split; [|split; intros; first [discriminate|lia]]);
    intros l Hl; cbn in Hl |- *;
    intuition (subst; first [discriminate|reflexivity|tauto]).
Qed.

Lemma byteps_init_loops_witness :
  (5 <= length (byteps_init (Sample.root_registry true 1024)))%nat /\
  (4 <= length (byteps_init (Sample.nonroot_registry true 1024)))%nat.
Proof.
  split.
  - apply (byteps_init_loops (Sample.root_registry true 1024)); reflexivity.
  - apply (byteps_init_loops (Sample.nonroot_registry true 1024)); reflexivity.
Defined.

(** *** Root NCCL loop *)

Section RootNccl.

Variables (g : BytePSGlobal.t) (CPU_DEVICE_ID : Z) (getNcclDataType : Z -> Z).

Lemma RootNccl_pull_none (n : nat) (this_op : QueueType)
    (nccl_entry : NcclGroupEntry.t) (st : State) :
  getTask this_op st = Ret None st ->
  RootNccl_pull g CPU_DEVICE_ID getNcclDataType n this_op nccl_entry st =
  Ret nccl_entry st.
Proof.
  intros Hnone. destruct n as [|n]; [reflexivity|].
  cbn [RootNccl_pull]. erewrite bind_Ret; [|exact Hnone]. reflexivity.
Qed.

Lemma RootNccl_ops_none (nccl_entry : NcclGroupEntry.t) (st : State) :
  getTask REDUCE st = Ret None st ->
  getTask BROADCAST st = Ret None st ->
  RootNccl_ops g CPU_DEVICE_ID getNcclDataType [REDUCE; BROADCAST] nccl_entry st =
  Ret nccl_entry st.
Proof.
  intros Hr Hb. cbn [RootNccl_ops].
  erewrite bind_Ret; [|apply RootNccl_pull_none; exact Hr].
  erewrite bind_Ret; [|apply RootNccl_pull_none; exact Hb].
  reflexivity.
Qed.

(** C4 (amended).  In an iteration of the root NCCL loop that pulled at
    least one item, the root first broadcasts DO_GROUP, then ends the NCCL
    group, then creates an event and records it on the collective stream,
    and then hands the batch to the SyncNccl stage, in that order.  In an
    iteration that pulled no item it ends the empty group and idles; when
    neither queue has an item to give, that is all the iteration does after
    opening the group. *)
Theorem RunRootNcclLoopOnce_tail :
  forall (st st1 : State) (nccl_entry : NcclGroupEntry.t),
    GetMyLocalRank g = GetRoot g ->
    RootNccl_ops g CPU_DEVICE_ID getNcclDataType [REDUCE; BROADCAST]
      (NcclGroupEntry.mk 0 [] []) (record Call.ncclGroupStart st) =
      Ret nccl_entry st1 ->
    let rank := GetMyLocalRank g in
    let ev := next_event st1 in
    let group :=
      NcclGroupEntry.mk ev (NcclGroupEntry.tasks nccl_entry)
        (NcclGroupEntry.queues nccl_entry) in
    (NcclGroupEntry.tasks nccl_entry <> [] ->
     exists st',
       RunRootNcclLoopOnce g CPU_DEVICE_ID getNcclDataType st = Ret true st' /\
       trace st' =
         trace st1 ++
         [Call.broadcastSignal rank (BytePSCommMsg.mk rank DO_GROUP 0);
          Call.ncclGroupEnd;
          Call.cudaEventCreateWithFlags ev;
          Call.cudaEventRecord ev;
          Call.EnqueueNcclGroup group] /\
       nccl_groups st' = nccl_groups st1 ++ [group]) /\
    (NcclGroupEntry.tasks nccl_entry = [] ->
     exists st',
       RunRootNcclLoopOnce g CPU_DEVICE_ID getNcclDataType st = Ret true st' /\
       trace st' = trace st1 ++ [Call.ncclGroupEnd; Call.sleep_for 1000] /\
       nccl_groups st' = nccl_groups st1) /\
    (getTask REDUCE st = Ret None st ->
     getTask BROADCAST st = Ret None st ->
     exists st',
       RunRootNcclLoopOnce g CPU_DEVICE_ID getNcclDataType st = Ret true st' /\
       trace st' =
         trace st ++
         [Call.ncclGroupStart; Call.ncclGroupEnd; Call.sleep_for 1000]).
Proof.
  intros st st1 nccl_entry Hrank Hops rank ev group.
  assert (Hrun : forall k : NcclGroupEntry.t -> M bool,
             (BPS_CHECK (GetMyLocalRank g =? GetRoot g);;
              emit Call.ncclGroupStart;;
              nccl_entry ← RootNccl_ops g CPU_DEVICE_ID getNcclDataType
                             [REDUCE; BROADCAST] (NcclGroupEntry.mk 0 [] []);
              k nccl_entry) st = k nccl_entry st1).
  { intros k. rewrite Hrank, Z.eqb_refl.
    erewrite bind_Ret; [|reflexivity].
    erewrite bind_Ret; [|reflexivity].
    erewrite bind_Ret; [|exact Hops]. reflexivity. }
  split; [|split].
  - intros Hne. unfold RunRootNcclLoopOnce. rewrite Hrun.
    destruct (NcclGroupEntry.tasks nccl_entry) as [|t ts] eqn:Et; [congruence|].
    cbn [length Nat.ltb Nat.leb].
    eexists. split; [reflexivity|]. cbn.
    rewrite <- !app_assoc. cbn. unfold group, ev, rank. auto.
  - intros He. unfold RunRootNcclLoopOnce. rewrite Hrun, He.
    eexists. split; [reflexivity|]. cbn. rewrite <- !app_assoc. auto.
  - intros Hr Hb.
    assert (Hsame : getTask REDUCE (record Call.ncclGroupStart st) =
                    Ret None (record Call.ncclGroupStart st) /\
                    getTask BROADCAST (record Call.ncclGroupStart st) =
                    Ret None (record Call.ncclGroupStart st)).
    { unfold getTask in *. cbn.
      change (GetScheduledQueue REDUCE (record Call.ncclGroupStart st))
        with (GetScheduledQueue REDUCE st).
      change (GetScheduledQueue BROADCAST (record Call.ncclGroupStart st))
        with (GetScheduledQueue BROADCAST st).
      change (is_ready (record Call.ncclGroupStart st)) with (is_ready st).
      destruct (best_ready (is_ready st) (GetScheduledQueue REDUCE st) 0 None)
        as [[? ?]|]; [discriminate|].
      destruct (best_ready (is_ready st) (GetScheduledQueue BROADCAST st) 0 None)
        as [[? ?]|]; [discriminate|].
      auto. }
    destruct Hsame as [Hr' Hb'].
    rewrite (RootNccl_ops_none _ _ Hr' Hb') in Hops.
    injection Hops as <- <-.
    unfold RunRootNcclLoopOnce.
    rewrite Hrank, Z.eqb_refl.
    erewrite bind_Ret; [|reflexivity].
    erewrite bind_Ret; [|reflexivity].
    erewrite bind_Ret; [|apply RootNccl_ops_none; assumption].
    eexists. split; [reflexivity|]. cbn. rewrite <- !app_assoc. reflexivity.
Qed.

End RootNccl.

Lemma RunRootNcclLoopOnce_tail_witness :
  exists st',
    RunRootNcclLoopOnce (Sample.root_registry false 1024) Sample.CPU_DEVICE_ID
      Sample.getNcclDataType
      (Sample.waiting REDUCE (Sample.item "w_0" 1 [REDUCE; BROADCAST] 5 1))
      = Ret true st' /\
    trace st' =
      [Call.ncclGroupStart;
       Call.broadcastSignal 0 (BytePSCommMsg.mk 0 DO_REDUCE 1);
       Call.ncclReduce 4096 4 0 0;
       Call.broadcastSignal 0 (BytePSCommMsg.mk 0 DO_GROUP 0);
       Call.ncclGroupEnd;
       Call.cudaEventCreateWithFlags 0;
       Call.cudaEventRecord 0;
       Call.EnqueueNcclGroup
         (NcclGroupEntry.mk 0 [Sample.item "w_0" 1 [REDUCE; BROADCAST] 5 1]
            [REDUCE])].
Proof.
  destruct (RunRootNcclLoopOnce_tail (Sample.root_registry false 1024)
              Sample.CPU_DEVICE_ID Sample.getNcclDataType
              (Sample.waiting REDUCE (Sample.item "w_0" 1 [REDUCE; BROADCAST] 5 1))
              _ _ eq_refl eq_refl) as ((st' & Hrun & Htr & _) & _).
  - discriminate.
  - exists st'. split; [exact Hrun|]. rewrite Htr. reflexivity.
Defined.

(** C4, as stated, fails: in an iteration that pulled one item, the
    broadcast of DO_GROUP is the call just before [ncclGroupEnd], not a call
    after it. *)
Lemma RunRootNcclLoopOnce_group_signal_first :
  exists st',
    RunRootNcclLoopOnce (Sample.root_registry false 1024) Sample.CPU_DEVICE_ID
      Sample.getNcclDataType
      (Sample.waiting REDUCE (Sample.item "w_0" 1 [REDUCE; BROADCAST] 5 1))
      = Ret true st' /\
    first_index (is_broadcast_of DO_GROUP) (trace st') = Some 3%nat /\
    first_index is_ncclGroupEnd (trace st') = Some 4%nat /\
    ~ (exists i j,
          trace st' !! i = Some Call.ncclGroupEnd /\
          trace st' !! j =
            Some (Call.broadcastSignal 0 (BytePSCommMsg.mk 0 DO_GROUP 0)) /\
          (i < j)%nat).
Proof.
  eexists. split; [vm_compute; reflexivity|].
  split; [reflexivity|]. split; [reflexivity|].
  intros (i & j & Hi & Hj & Hlt).
  assert (Hj3 : j = 3%nat).
  { do 8 (destruct j as [|j]; [first [discriminate Hj|reflexivity]|]).
    destruct j; discriminate Hj. }
  subst j.
  do 3 (destruct i as [|i]; [discriminate Hi|]). lia.
Qed.

(** *** SyncNccl stage *)

Lemma FinishOrProceed_calls (task : TensorTableEntry) (st st' : State) :
  FinishOrProceed task st = Ret tt st' ->
  exists calls,
    trace st' = trace st ++ calls /\
    filter is_reportFinish calls = [] /\
    nccl_groups st' = nccl_groups st.
Proof.
  unfold FinishOrProceed, mbind, M_bind, BPS_CHECK, fetch_add, addTask, emit.
  destruct (queue_list task) as [|op [|next rest]]; cbn.
  - discriminate.
  - destruct (counter_ptr task) as [c|]; [|discriminate].
    destruct (atomics st !! c) as [v|]; [|discriminate].
    destruct (v =? total_partnum task - 1); intros [= <-].
    + exists [Call.callback (callback task) OK]. auto.
    + exists []. cbn. rewrite app_nil_r. auto.
  - intros [= <-]. eexists [_]. cbn. auto.
Qed.

Lemma advance_and_report_calls
    (items : list (TensorTableEntry * option QueueType)) :
  forall st st' : State,
    advance_and_report items st = Ret tt st' ->
    exists calls,
      trace st' = trace st ++ calls /\
      filter is_reportFinish calls = reports items /\
      nccl_groups st' = nccl_groups st.
Proof.
  induction items as [|[task q] items IH]; intros st st' Hrun.
  - injection Hrun as <-. exists []. rewrite app_nil_r. auto.
  - cbn [advance_and_report] in Hrun.
    apply bind_Ret_inv in Hrun as ([] & st1 & Hfin & Hrun).
    apply bind_Ret_inv in Hrun as ([] & st2 & Hrep & Hrun).
    destruct (FinishOrProceed_calls _ _ _ Hfin) as (c1 & Ht1 & Hf1 & Hg1).
    destruct (IH _ _ Hrun) as (c3 & Ht3 & Hf3 & Hg3).
    destruct q as [q|].
    + injection Hrep as <-.
      exists (c1 ++ [Call.reportFinish q (len task)] ++ c3).
      split; [|split].
      * rewrite Ht3. cbn. rewrite Ht1, <- !app_assoc. reflexivity.
      * rewrite !filter_app, Hf1, Hf3. reflexivity.
      * rewrite Hg3. cbn. exact Hg1.
    + injection Hrep as <-.
      exists (c1 ++ c3). split; [|split].
      * rewrite Ht3, Ht1, <- app_assoc. reflexivity.
      * rewrite filter_app, Hf1, Hf3. reflexivity.
      * rewrite Hg3. exact Hg1.
Qed.

Lemma SyncNccl_advance_worded (queues : list QueueType)
    (tasks : list TensorTableEntry) :
  forall (i : nat) (st : State),
    SyncNccl_advance i tasks queues st =
    advance_and_report
      (imap (fun j task => (task, queues !! (i + j)%nat)) tasks) st.
Proof.
  induction tasks as [|task tasks IH]; intros i st; [reflexivity|].
  cbn [SyncNccl_advance imap advance_and_report].
  rewrite Nat.add_0_r.
  apply bind_ext. intros _ st1. apply bind_ext. intros _ st2.
  rewrite IH. f_equal. apply imap_ext. intros j x _. cbn.
  f_equal. f_equal. lia.
Qed.

Lemma reports_with_origin (queues : list QueueType)
    (tasks : list TensorTableEntry) :
  reports (with_origin tasks queues) =
  (fun tq => Call.reportFinish tq.2 (len tq.1)) <$> zip tasks queues.
Proof.
  unfold with_origin. revert queues.
  induction tasks as [|task tasks IH]; intros queues; [reflexivity|].
  destruct queues as [|q queues].
  - cbn. clear IH. generalize 1%nat.
    induction tasks as [|t ts IH]; intros n; [reflexivity|].
    cbn. apply (IH (S n)).
  - cbn. f_equal. apply IH.
Qed.

(** *** Where the items of a root group come from *)

Section Preserved.

Context {B : Type} (f : State -> B).
Hypothesis f_record : forall c st, f (record c st) = f st.

Lemma preserves_ret {A} (a : A) : preserves f (mret a).
Proof. intros st a' st' H. inversion H. reflexivity. Qed.

Lemma preserves_bind {A C} (m : M A) (k : A -> M C) :
  preserves f m -> (forall a, preserves f (k a)) -> preserves f (m ≫= k).
Proof.
  intros Hm Hk st b st' H. apply bind_Ret_inv in H as (a & st1 & H1 & H2).
  rewrite (Hk a _ _ _ H2). exact (Hm _ _ _ H1).
Qed.

Lemma preserves_check (b : bool) : preserves f (BPS_CHECK b).
Proof.
  intros st a st'. unfold BPS_CHECK. destruct b; [|discriminate].
  intros H. inversion H. reflexivity.
Qed.

Lemma preserves_emit (c : Call.t) : preserves f (emit c).
Proof. intros st a st' H. inversion H. apply f_record. Qed.

Lemma preserves_crash {A} : preserves f (@crash A).
Proof. intros st a st' H. discriminate. Qed.

Lemma preserves_c_div (a b : Z) : preserves f (c_div a b).
Proof.
  unfold c_div. destruct (b =? 0); [apply preserves_crash|apply preserves_ret].
Qed.

Lemma preserves_c_rem (a b : Z) : preserves f (c_rem a b).
Proof.
  unfold c_rem. destruct (b =? 0); [apply preserves_crash|apply preserves_ret].
Qed.

Lemma RootNccl_issue_preserves (g : BytePSGlobal.t) (CPU_DEVICE_ID : Z)
    (getNcclDataType : Z -> Z) (this_op : QueueType) (task : TensorTableEntry) :
  preserves f (RootNccl_issue g CPU_DEVICE_ID getNcclDataType this_op task).
Proof.
  unfold RootNccl_issue, broadcastSignal.
  apply preserves_bind; [apply preserves_check|intros _].
  destruct (if decide (this_op = REDUCE) then tensor task else output task)
    as [t|]; [|apply preserves_crash].
  destruct (negb (device task =? CPU_DEVICE_ID)); [|apply preserves_ret].
  apply preserves_bind; [apply preserves_check|intros _].
  apply preserves_bind; [apply preserves_c_rem|intros r].
  apply preserves_bind; [apply preserves_check|intros _].
  apply preserves_bind; [apply preserves_c_div|intros u].
  destruct (1 <? BytePSGlobal.GetLocalSize g); [|apply preserves_ret].
  apply preserves_bind; [apply preserves_emit|intros _].
  apply preserves_bind; [apply preserves_c_div|intros c].
  destruct (decide (this_op = REDUCE)); apply preserves_emit.
Qed.

End Preserved.

Lemma getTask_groups (q : QueueType) : preserves nccl_groups (getTask q).
Proof.
  intros st a st'. unfold getTask.
  destruct (best_ready (is_ready st) (GetScheduledQueue q st) 0 None)
    as [[i x]|]; intros H; inversion H; reflexivity.
Qed.

Lemma best_ready_lookup (ready : TensorTableEntry -> bool)
    (l : list TensorTableEntry) :
  forall (i : nat) (best : option (nat * TensorTableEntry)) (j : nat)
         (e : TensorTableEntry),
    best_ready ready l i best = Some (j, e) ->
    best = Some (j, e) \/ (i <= j)%nat /\ l !! (j - i)%nat = Some e.
Proof.
  induction l as [|x l IH]; intros i best j e H; cbn [best_ready] in H.
  - left. exact H.
  - apply IH in H as [H|[Hle Hl]].
    + destruct (ready x); [|left; exact H].
      destruct best as [[bi b]|].
      * destruct (priority x <? priority b); [|left; exact H].
        injection H as <- <-. right. rewrite Nat.sub_diag. split; [lia|reflexivity].
      * injection H as <- <-. right. rewrite Nat.sub_diag. split; [lia|reflexivity].
    + right. split; [lia|].
      replace (j - i)%nat with (S (j - S i)) by lia. exact Hl.
Qed.

Lemma GetScheduledQueue_put_queue (q : QueueType) (l : list TensorTableEntry)
    (st : State) :
  GetScheduledQueue q (put_queue q l st) = l.
Proof.
  unfold GetScheduledQueue, put_queue. cbn. rewrite lookup_insert_eq.
  reflexivity.
Qed.

Lemma GetScheduledQueue_put_queue_ne (q q' : QueueType)
    (l : list TensorTableEntry) (st : State) :
  q' <> q ->
  GetScheduledQueue q' (put_queue q l st) = GetScheduledQueue q' st.
Proof.
  intros Hne. unfold GetScheduledQueue, put_queue. cbn.
  rewrite lookup_insert_ne by congruence. reflexivity.
Qed.

Lemma getTask_Some_queue (q : QueueType) (st st' : State) (e : TensorTableEntry) :
  getTask q st = Ret (Some e) st' ->
  GetScheduledQueue q st ≡ₚ e :: GetScheduledQueue q st' /\
  (forall q', q' <> q -> GetScheduledQueue q' st' = GetScheduledQueue q' st).
Proof.
  unfold getTask.
  destruct (best_ready (is_ready st) (GetScheduledQueue q st) 0 None)
    as [[i x]|] eqn:E; [|discriminate].
  intros H. inversion H. subst x. clear H.
  apply best_ready_lookup in E as [E|[_ E]]; [discriminate|].
  rewrite Nat.sub_0_r in E. split.
  - rewrite GetScheduledQueue_put_queue.
    apply delete_Permutation. exact E.
  - intros q' Hne. apply GetScheduledQueue_put_queue_ne. exact Hne.
Qed.

Lemma getTask_None_state (q : QueueType) (st st' : State) :
  getTask q st = Ret None st' -> st' = st.
Proof.
  unfold getTask.
  destruct (best_ready (is_ready st) (GetScheduledQueue q st) 0 None)
    as [[i x]|]; [discriminate|]. intros H. inversion H. reflexivity.
Qed.

Section Origin.

Variables (g : BytePSGlobal.t) (CPU_DEVICE_ID : Z) (getNcclDataType : Z -> Z).

Lemma RootNccl_pull_origin (n : nat) (this_op : QueueType) :
  forall (nccl_entry e : NcclGroupEntry.t) (st st' : State),
    RootNccl_pull g CPU_DEVICE_ID getNcclDataType n this_op nccl_entry st =
      Ret e st' ->
    exists pulled,
      (length pulled <= n)%nat /\
      NcclGroupEntry.tasks e = NcclGroupEntry.tasks nccl_entry ++ pulled /\
      NcclGroupEntry.queues e =
        NcclGroupEntry.queues nccl_entry ++
        replicate (length pulled) this_op /\
      GetScheduledQueue this_op st ≡ₚ
        pulled ++ GetScheduledQueue this_op st' /\
      (forall q, q <> this_op ->
                 GetScheduledQueue q st' = GetScheduledQueue q st).
Proof.
  induction n as [|n IH]; intros nccl_entry e st st' Hrun.
  - inversion Hrun. subst. exists []. cbn. rewrite !app_nil_r.
    repeat split; auto.
  - cbn [RootNccl_pull] in Hrun.
    apply bind_Ret_inv in Hrun as (task & st1 & Hget & Hrun).
    destruct task as [task|].
    + apply bind_Ret_inv in Hrun as ([] & st2 & Hissue & Hrun).
      apply getTask_Some_queue in Hget as (Hperm & Hother).
      apply (RootNccl_issue_preserves sched_queues) in Hissue;
        [|reflexivity].
      apply IH in Hrun as (pulled & Hlen & Ht & Hq & Hp & Ho).
      cbn [NcclGroupEntry.tasks NcclGroupEntry.queues] in Ht, Hq.
      assert (Hsame : forall q, GetScheduledQueue q st2 = GetScheduledQueue q st1).
      { intros q. unfold GetScheduledQueue. rewrite Hissue. reflexivity. }
      exists (task :: pulled). cbn [length replicate].
      rewrite Ht, Hq, <- !app_assoc. cbn [app].
      split; [lia|]. split; [reflexivity|]. split; [reflexivity|]. split.
      * rewrite Hperm. cbn [app]. constructor.
        rewrite <- Hp, Hsame. reflexivity.
      * intros q Hne. rewrite (Ho q Hne), Hsame. apply Hother. exact Hne.
    + apply getTask_None_state in Hget as ->. inversion Hrun. subst.
      exists []. cbn. rewrite !app_nil_r. repeat split; auto. lia.
Qed.

Lemma RootNccl_ops_origin (st st1 : State) (e : NcclGroupEntry.t) :
  RootNccl_ops g CPU_DEVICE_ID getNcclDataType [REDUCE; BROADCAST]
    (NcclGroupEntry.mk 0 [] []) st = Ret e st1 ->
  exists reduced broadcast,
    (length reduced <= Z.to_nat (BytePSGlobal.GetNcclGroupSize g))%nat /\
    (length broadcast <= Z.to_nat (BytePSGlobal.GetNcclGroupSize g))%nat /\
    NcclGroupEntry.tasks e = reduced ++ broadcast /\
    NcclGroupEntry.queues e =
      replicate (length reduced) REDUCE ++
      replicate (length broadcast) BROADCAST /\
    GetScheduledQueue REDUCE st ≡ₚ reduced ++ GetScheduledQueue REDUCE st1 /\
    GetScheduledQueue BROADCAST st ≡ₚ
      broadcast ++ GetScheduledQueue BROADCAST st1.
Proof.
  intros Hrun. cbn [RootNccl_ops] in Hrun.
  apply bind_Ret_inv in Hrun as (e1 & st2 & H1 & Hrun).
  apply bind_Ret_inv in Hrun as (e2 & st3 & H2 & Hrun).
  inversion Hrun. subst e2 st3. clear Hrun.
  apply RootNccl_pull_origin in H1 as (reduced & Hl1 & Ht1 & Hq1 & Hp1 & Ho1).
  apply RootNccl_pull_origin in H2 as (broadcast & Hl2 & Ht2 & Hq2 & Hp2 & Ho2).
  cbn [NcclGroupEntry.tasks NcclGroupEntry.queues app] in Ht1, Hq1.
  exists reduced, broadcast.
  rewrite Ht2, Hq2, Ht1, Hq1.
  split; [exact Hl1|]. split; [exact Hl2|].
  split; [reflexivity|]. split; [reflexivity|]. split.
  - rewrite Hp1, (Ho2 REDUCE) by discriminate. reflexivity.
  - rewrite <- (Ho1 BROADCAST) by discriminate. exact Hp2.
Qed.

Lemma origin_recorded (tasks reduced broadcast before_r before_b after_r after_b
                         : list TensorTableEntry) (queues : list QueueType) :
  tasks = reduced ++ broadcast ->
  queues = replicate (length reduced) REDUCE ++
           replicate (length broadcast) BROADCAST ->
  before_r ≡ₚ reduced ++ after_r ->
  before_b ≡ₚ broadcast ++ after_b ->
  forall (i : nat) (task : TensorTableEntry),
    tasks !! i = Some task ->
    queues !! i = Some REDUCE /\ task ∈ before_r \/
    queues !! i = Some BROADCAST /\ task ∈ before_b.
Proof.
  intros -> -> Hr Hb i task Hi.
  destruct (decide (i < length reduced)%nat) as [Hlt|Hge].
  - left. rewrite lookup_app_l in Hi by exact Hlt.
    rewrite lookup_app_l by (rewrite length_replicate; exact Hlt).
    split; [apply lookup_replicate_2; exact Hlt|].
    rewrite Hr. apply elem_of_app. left.
    eapply list_elem_of_lookup_2. exact Hi.
  - right. rewrite lookup_app_r in Hi by lia.
    pose proof (lookup_lt_Some _ _ _ Hi) as Hlt.
    rewrite lookup_app_r by (rewrite length_replicate; lia).
    rewrite length_replicate.
    split; [apply lookup_replicate_2; exact Hlt|].
    rewrite Hb. apply elem_of_app. left.
    eapply list_elem_of_lookup_2. exact Hi.
Qed.

Lemma RootNccl_pull_groups (n : nat) (this_op : QueueType) :
  forall nccl_entry,
    preserves nccl_groups
      (RootNccl_pull g CPU_DEVICE_ID getNcclDataType n this_op nccl_entry).
Proof.
  induction n as [|n IH]; intros nccl_entry; cbn [RootNccl_pull].
  - apply preserves_ret.
  - apply preserves_bind; [apply getTask_groups|].
    intros [task|]; [|apply preserves_ret].
    apply preserves_bind; [|intros _; apply IH].
    apply RootNccl_issue_preserves. reflexivity.
Qed.

Lemma RootNccl_ops_groups (nccl_ops : list QueueType) :
  forall nccl_entry,
    preserves nccl_groups
      (RootNccl_ops g CPU_DEVICE_ID getNcclDataType nccl_ops nccl_entry).
Proof.
  induction nccl_ops as [|this_op ops IH]; intros nccl_entry;
    cbn [RootNccl_ops].
  - apply preserves_ret.
  - apply preserves_bind; [apply RootNccl_pull_groups|]. intros e. apply IH.
Qed.

End Origin.

Section SyncNccl.

Variables (g : BytePSGlobal.t) (CPU_DEVICE_ID : Z) (getNcclDataType : Z -> Z).

Lemma RootNccl_pull_queues (n : nat) (this_op : QueueType) :
  forall (nccl_entry e : NcclGroupEntry.t) (st st' : State),
    length (NcclGroupEntry.queues nccl_entry) =
      length (NcclGroupEntry.tasks nccl_entry) ->
    RootNccl_pull g CPU_DEVICE_ID getNcclDataType n this_op nccl_entry st =
      Ret e st' ->
    length (NcclGroupEntry.queues e) = length (NcclGroupEntry.tasks e).
Proof.
  induction n as [|n IH]; intros nccl_entry e st st' Hlen Hrun.
  - injection Hrun as <- _. exact Hlen.
  - cbn [RootNccl_pull] in Hrun.
    apply bind_Ret_inv in Hrun as (task & st1 & _ & Hrun).
    destruct task as [task|].
    + apply bind_Ret_inv in Hrun as ([] & st2 & _ & Hrun).
      apply IH in Hrun; [exact Hrun|].
      cbn. rewrite !length_app, Hlen. reflexivity.
    + injection Hrun as <- _. exact Hlen.
Qed.

Lemma RootNccl_ops_queues (nccl_ops : list QueueType) :
  forall (nccl_entry e : NcclGroupEntry.t) (st st' : State),
    length (NcclGroupEntry.queues nccl_entry) =
      length (NcclGroupEntry.tasks nccl_entry) ->
    RootNccl_ops g CPU_DEVICE_ID getNcclDataType nccl_ops nccl_entry st =
      Ret e st' ->
    length (NcclGroupEntry.queues e) = length (NcclGroupEntry.tasks e).
Proof.
  induction nccl_ops as [|this_op ops IH]; intros nccl_entry e st st' Hlen Hrun.
  - injection Hrun as <- _. exact Hlen.
  - cbn [RootNccl_ops] in Hrun.
    apply bind_Ret_inv in Hrun as (e1 & st1 & Hpull & Hrun).
    apply RootNccl_pull_queues in Hpull; [|exact Hlen].
    exact (IH _ _ _ _ Hpull Hrun).
Qed.

Lemma RunNonRootNcclLoopOnce_group (st st' : State) :
  RunNonRootNcclLoopOnce g CPU_DEVICE_ID getNcclDataType st = Ret true st' ->
  exists group,
    last (nccl_groups st') = Some group /\ NcclGroupEntry.queues group = [].
Proof.
  unfold RunNonRootNcclLoopOnce. intros Hrun.
  apply bind_Ret_inv in Hrun as ([] & st1 & _ & Hrun).
  apply bind_Ret_inv in Hrun as ([] & st2 & _ & Hrun).
  apply bind_Ret_inv in Hrun as (tasks & st3 & _ & Hrun).
  apply bind_Ret_inv in Hrun as ([] & st4 & _ & Hrun).
  apply bind_Ret_inv in Hrun as (ev & st5 & _ & Hrun).
  apply bind_Ret_inv in Hrun as ([] & st6 & _ & Hrun).
  apply bind_Ret_inv in Hrun as ([] & st7 & Henq & Hrun).
  injection Hrun as <-. injection Henq as <-.
  exists (NcclGroupEntry.mk ev tasks []). cbn. rewrite last_snoc. auto.
Qed.

Lemma RunRootNcclLoopOnce_group (st st' : State) :
  RunRootNcclLoopOnce g CPU_DEVICE_ID getNcclDataType st = Ret true st' ->
  exists reduced broadcast,
    (reduced ++ broadcast = [] /\ nccl_groups st' = nccl_groups st \/
     exists ev,
       nccl_groups st' =
         nccl_groups st ++
         [NcclGroupEntry.mk ev (reduced ++ broadcast)
            (replicate (length reduced) REDUCE ++
             replicate (length broadcast) BROADCAST)]) /\
    GetScheduledQueue REDUCE st ≡ₚ reduced ++ GetScheduledQueue REDUCE st' /\
    GetScheduledQueue BROADCAST st ≡ₚ
      broadcast ++ GetScheduledQueue BROADCAST st'.
Proof.
  unfold RunRootNcclLoopOnce. intros Hrun.
  apply bind_Ret_inv in Hrun as ([] & st1 & Hc & Hrun).
  assert (st1 = st) as ->.
  { unfold BPS_CHECK in Hc.
    destruct (GetMyLocalRank g =? GetRoot g); [|discriminate].
    inversion Hc. reflexivity. }
  apply bind_Ret_inv in Hrun as ([] & st2 & Hs & Hrun).
  inversion Hs. subst st2. clear Hs.
  apply bind_Ret_inv in Hrun as (e & st3 & Hops & Hrun).
  pose proof (RootNccl_ops_groups g CPU_DEVICE_ID getNcclDataType _ _ _ _ _
                Hops) as Hgroups.
  apply RootNccl_ops_origin in Hops
    as (reduced & broadcast & _ & _ & Ht & Hq & Hr & Hb).
  exists reduced, broadcast.
  destruct (0 <? length (NcclGroupEntry.tasks e))%nat eqn:E.
  - apply bind_Ret_inv in Hrun as ([] & st4 & H4 & Hrun).
    inversion H4. subst st4. clear H4.
    apply bind_Ret_inv in Hrun as ([] & st5 & H5 & Hrun).
    inversion H5. subst st5. clear H5.
    apply bind_Ret_inv in Hrun as (ev & st6 & H6 & Hrun).
    inversion H6. subst ev st6. clear H6.
    apply bind_Ret_inv in Hrun as ([] & st7 & H7 & Hrun).
    inversion H7. subst st7. clear H7.
    apply bind_Ret_inv in Hrun as ([] & st8 & H8 & Hrun).
    inversion H8. subst st8. clear H8.
    inversion Hrun. subst st'. clear Hrun.
    split; [|split; [exact Hr|exact Hb]].
    right. eexists. cbn. cbn in Hgroups. rewrite Hgroups, Ht, Hq.
    reflexivity.
  - apply bind_Ret_inv in Hrun as ([] & st4 & H4 & Hrun).
    inversion H4. subst st4. clear H4.
    apply bind_Ret_inv in Hrun as ([] & st5 & H5 & Hrun).
    inversion H5. subst st5. clear H5.
    inversion Hrun. subst st'. clear Hrun.
    split; [|split; [exact Hr|exact Hb]].
    left. apply Nat.ltb_ge in E. rewrite Ht in E.
    split; [destruct (reduced ++ broadcast); [reflexivity|cbn in E; lia]|].
    cbn. cbn in Hgroups. exact Hgroups.
Qed.

(** C5 (amended).  For a dequeued NCCL group the SyncNccl stage first
    blocks on the event of the group, then advances every item of the group
    with [FinishOrProceed], reporting the length of an item on the queue
    recorded for it exactly when the group recorded a queue at the index of
    the item, and last destroys the event.  The groups a root builds record
    one queue per item, namely the queue the item was pulled from: the
    items of a group are the items that left the REDUCE queue, recorded
    under REDUCE, followed by the items that left the BROADCAST queue,
    recorded under BROADCAST, and this is the group entry an iteration of
    the root NCCL loop hands over when it has pulled an item.  The groups
    the non-root loop builds record no queue. *)
Theorem RunSyncNcclOnce_group :
  forall (st : State) (nccl_entry : NcclGroupEntry.t)
         (rest : list NcclGroupEntry.t),
    nccl_groups st = nccl_entry :: rest ->
    let ev := NcclGroupEntry.cuda_event nccl_entry in
    let tasks := NcclGroupEntry.tasks nccl_entry in
    let queues := NcclGroupEntry.queues nccl_entry in
    RunSyncNcclOnce st =
      (emit (Call.cudaEventSynchronize ev);;
       advance_and_report (with_origin tasks queues);;
       emit (Call.cudaEventDestroy ev);;
       mret true) (set_nccl_groups rest st) /\
    (forall st',
        RunSyncNcclOnce st = Ret true st' ->
        exists calls,
          trace st' =
            trace st ++ [Call.cudaEventSynchronize ev] ++ calls ++
            [Call.cudaEventDestroy ev] /\
          filter is_reportFinish calls =
            (fun tq => Call.reportFinish tq.2 (len tq.1)) <$> zip tasks queues) /\
    (forall st0 st0',
        RunNonRootNcclLoopOnce g CPU_DEVICE_ID getNcclDataType st0 =
          Ret true st0' ->
        exists group,
          last (nccl_groups st0') = Some group /\
          NcclGroupEntry.queues group = []) /\
    (forall st0 st1 e,
        RootNccl_ops g CPU_DEVICE_ID getNcclDataType [REDUCE; BROADCAST]
          (NcclGroupEntry.mk 0 [] []) st0 = Ret e st1 ->
        length (NcclGroupEntry.queues e) = length (NcclGroupEntry.tasks e) /\
        (exists reduced broadcast,
            NcclGroupEntry.tasks e = reduced ++ broadcast /\
            NcclGroupEntry.queues e =
              replicate (length reduced) REDUCE ++
              replicate (length broadcast) BROADCAST /\
            GetScheduledQueue REDUCE st0 ≡ₚ
              reduced ++ GetScheduledQueue REDUCE st1 /\
            GetScheduledQueue BROADCAST st0 ≡ₚ
              broadcast ++ GetScheduledQueue BROADCAST st1) /\
        (forall (i : nat) (task : TensorTableEntry),
            NcclGroupEntry.tasks e !! i = Some task ->
            exists q,
              NcclGroupEntry.queues e !! i = Some q /\
              task ∈ GetScheduledQueue q st0)) /\
    (forall st0 st1,
        RunRootNcclLoopOnce g CPU_DEVICE_ID getNcclDataType st0 =
          Ret true st1 ->
        exists reduced broadcast,
          (reduced ++ broadcast = [] /\ nccl_groups st1 = nccl_groups st0 \/
           exists ev,
             nccl_groups st1 =
               nccl_groups st0 ++
               [NcclGroupEntry.mk ev (reduced ++ broadcast)
                  (replicate (length reduced) REDUCE ++
                   replicate (length broadcast) BROADCAST)]) /\
          GetScheduledQueue REDUCE st0 ≡ₚ
            reduced ++ GetScheduledQueue REDUCE st1 /\
          GetScheduledQueue BROADCAST st0 ≡ₚ
            broadcast ++ GetScheduledQueue BROADCAST st1).
Proof.
  intros st nccl_entry rest Hgroups ev tasks queues.
  assert (Heq : RunSyncNcclOnce st =
                (emit (Call.cudaEventSynchronize ev);;
                 advance_and_report (with_origin tasks queues);;
                 emit (Call.cudaEventDestroy ev);;
                 mret true) (set_nccl_groups rest st)).
  { unfold RunSyncNcclOnce.
    erewrite bind_Ret; [|unfold DequeueNcclGroup; rewrite Hgroups; reflexivity].
    apply bind_ext. intros _ st1.
    rewrite !bind_unfold.
    rewrite (SyncNccl_advance_worded _ _ 0 st1). reflexivity. }
  split; [exact Heq|]. split; [|split].
  - intros st' Hrun. rewrite Heq in Hrun.
    apply bind_Ret_inv in Hrun as ([] & st1 & Hs & Hrun).
    apply bind_Ret_inv in Hrun as ([] & st2 & Hadv & Hrun).
    apply bind_Ret_inv in Hrun as ([] & st3 & Hd & Hrun).
    injection Hrun as <-. injection Hd as <-. injection Hs as <-.
    destruct (advance_and_report_calls _ _ _ Hadv) as (calls & Htr & Hf & _).
    exists calls. split.
    + cbn. rewrite Htr. cbn. rewrite <- !app_assoc. reflexivity.
    + rewrite Hf. apply reports_with_origin.
  - apply RunNonRootNcclLoopOnce_group.
  - split; [|apply RunRootNcclLoopOnce_group].
    intros st0 st1 e Hops.
    split; [eapply RootNccl_ops_queues; [|exact Hops]; reflexivity|].
    destruct (RootNccl_ops_origin g CPU_DEVICE_ID getNcclDataType _ _ _ Hops)
      as (reduced & broadcast & _ & _ & Ht & Hq & Hr & Hb).
    split; [exists reduced, broadcast; auto|].
    intros i task Hi.
    destruct (origin_recorded _ _ _ _ _ _ _ _ Ht Hq Hr Hb i task Hi)
      as [[H1 H2]|[H1 H2]]; eauto.
Qed.

End SyncNccl.

Lemma RunSyncNcclOnce_group_witness :
  exists st',
    RunSyncNcclOnce
      (set_nccl_groups
         [NcclGroupEntry.mk 3 [Sample.item "w_0" 1 [REDUCE; BROADCAST] 5 1]
            [REDUCE]]
         Sample.counter_state) = Ret true st' /\
    trace st' =
      [Call.cudaEventSynchronize 3;
       Call.addTask BROADCAST (Sample.item "w_0" 1 [BROADCAST] 5 1);
       Call.reportFinish REDUCE 16;
       Call.cudaEventDestroy 3].
Proof.
  destruct (RunSyncNcclOnce_group (Sample.root_registry false 1024)
              Sample.CPU_DEVICE_ID Sample.getNcclDataType
              (set_nccl_groups
                 [NcclGroupEntry.mk 3
                    [Sample.item "w_0" 1 [REDUCE; BROADCAST] 5 1] [REDUCE]]
                 Sample.counter_state)
              _ _ eq_refl) as (Heq & _).
  rewrite Heq. eexists. split; [vm_compute; reflexivity|reflexivity].
Defined.

(** C5, as stated, fails on a non-root device.  The non-root NCCL loop
    answers DO_REDUCE for key 1 and DO_GROUP by handing over a group that
    holds the item and no queue; the SyncNccl stage then advances the item
    (its last stage: the callback is invoked) and destroys the event without
    any call of [reportFinish]. *)
Lemma RunSyncNcclOnce_nonroot_no_report :
  exists st1 st2,
    RunNonRootNcclLoopOnce (Sample.nonroot_registry false 1024)
      Sample.CPU_DEVICE_ID Sample.getNcclDataType
      (set_inbox
         [(0, BytePSCommMsg.mk 0 DO_REDUCE 1); (0, BytePSCommMsg.mk 0 DO_GROUP 0)]
         (Sample.waiting REDUCE (Sample.item "w_0" 1 [REDUCE] 5 1)))
      = Ret true st1 /\
    nccl_groups st1 =
      [NcclGroupEntry.mk 0 [Sample.item "w_0" 1 [REDUCE] 5 1] []] /\
    RunSyncNcclOnce st1 = Ret true st2 /\
    trace st2 =
      [Call.ncclGroupStart;
       Call.ncclReduce 4096 4 0 0;
       Call.ncclGroupEnd;
       Call.cudaEventCreateWithFlags 0;
       Call.cudaEventRecord 0;
       Call.EnqueueNcclGroup
         (NcclGroupEntry.mk 0 [Sample.item "w_0" 1 [REDUCE] 5 1] []);
       Call.cudaEventSynchronize 0;
       Call.callback 7 OK;
       Call.cudaEventDestroy 0] /\
    filter is_reportFinish (trace st2) = [].
Proof.
  eexists. eexists.
  split; [vm_compute; reflexivity|].
  split; [reflexivity|].
  split; [vm_compute; reflexivity|].
  split; reflexivity.
Qed.

(** *** Coordinate stages *)

Lemma getTask_trace (q : QueueType) (st st' : State)
    (r : option TensorTableEntry) :
  getTask q st = Ret r st' -> trace st' = trace st.
Proof.
  unfold getTask.
  destruct (best_ready (is_ready st) (GetScheduledQueue q st) 0 None)
    as [[i e]|]; intros [= _ <-]; reflexivity.
Qed.



Section Coordinate.

Variable g : BytePSGlobal.t.


End Coordinate.



(** *** Non-root NCCL loop *)

Section NonRootNccl.

Variables (g : BytePSGlobal.t) (CPU_DEVICE_ID : Z) (getNcclDataType : Z -> Z).


End NonRootNccl.

(** C3.  The code does not do what the claim says for DO_REDUCE.  An item
    enqueued by [EnqueueTensor] with the queue list of a non-root device,
    [CoordinateReduce; Reduce; CoordinateBroadcast; Broadcast], passes the
    CoordinateReduce stage and waits on the queue of REDUCE with three
    stages left.  When DO_REDUCE for its key arrives from the root, the
    keyed lookup finds it, but the check that the item has a single stage
    left (whose message reads: BROADCAST should be the last op) fails: the
    process ends, and no collective has been issued.  The root NCCL loop,
    which has no such check, issues [ncclReduce] for an item that has a
    stage left after REDUCE. *)
Lemma RunNonRootNcclLoopOnce_reduce_check_fails :
  let g := Sample.nonroot_registry false 1024 in
  let stages := [COORDINATE_REDUCE; REDUCE; COORDINATE_BROADCAST; BROADCAST] in
  (exists st1 st2 st3 found st4,
      EnqueueTensor g 10 (Sample.context_of 16 [42])
        (Some (Sample.tensor_of 16)) (Some (Sample.tensor_of 16)) None "grad"
        0 0 0 7%nat stages Sample.empty_state = Ret OK st1 /\
      RunCoordinateLoopOnce g COORDINATE_REDUCE st1 = Ret true st2 /\
      getTask_key REDUCE 42 st2 = Ret (Some found) st4 /\
      queue_list found = [REDUCE; COORDINATE_BROADCAST; BROADCAST] /\
      RunNonRootNcclLoopOnce g Sample.CPU_DEVICE_ID Sample.getNcclDataType
        (set_inbox
           [(0, BytePSCommMsg.mk 0 DO_REDUCE 42);
            (0, BytePSCommMsg.mk 0 DO_GROUP 0)] st2) = Aborted st3 /\
      drop 4 (trace st3) = [Call.ncclGroupStart]) /\
  (exists st_root,
      RunRootNcclLoopOnce (Sample.root_registry false 1024)
        Sample.CPU_DEVICE_ID Sample.getNcclDataType
        (Sample.waiting REDUCE (Sample.item "w_0" 42 [REDUCE; BROADCAST] 5 1))
        = Ret true st_root /\
      In (Call.ncclReduce 4096 4 0 0) (trace st_root)).
Proof.
  intros g stages. split.
  - do 5 eexists.
    split; [vm_compute; reflexivity|].
    split; [vm_compute; reflexivity|].
    split; [vm_compute; reflexivity|].
    split; [reflexivity|].
    split; [vm_compute; reflexivity|reflexivity].
  - eexists. split; [vm_compute; reflexivity|].
    cbn. auto 10.
Qed.

(** * Further properties of the core loops *)

(** *** One item through its stages *)

Lemma visits_with_queue_list (task : TensorTableEntry)
    (l rest : list QueueType) :
  visits (with_queue_list l task) rest = visits task rest.
Proof.
  induction rest as [|q rest IH]; [reflexivity|].
  cbn [visits]. rewrite IH. reflexivity.
Qed.

Lemma travel_visits (n : nat) :
  forall (task : TensorTableEntry) (st : State),
    (n < length (queue_list task))%nat ->
    exists st',
      travel n task st =
        Ret (with_queue_list (drop n (queue_list task)) task) st' /\
      trace st' = trace st ++ take n (visits task (tail (queue_list task))) /\
      atomics st' = atomics st.
Proof.
  induction n as [|n IH]; intros task st Hn.
  - exists st. cbn. rewrite app_nil_r.
    destruct task; auto.
  - destruct (queue_list task) as [|head [|next rest]] eqn:Hq;
      cbn [length] in Hn; try lia.
    assert (Hadv : advanced task = with_queue_list (next :: rest) task).
    { unfold advanced. rewrite Hq. reflexivity. }
    destruct (IH (advanced task) (enqueued next (advanced task) st))
      as (st' & Hrun & Htr & Hat).
    { rewrite Hadv. cbn. lia. }
    rewrite Hadv in Hrun, Htr. cbn in Hrun, Htr.
    exists st'. split; [|split].
    + cbn [travel]. erewrite bind_Ret.
      2:{ apply (FinishOrProceed_next task st head next rest Hq). }
      rewrite Hadv. exact Hrun.
    + rewrite Htr, visits_with_queue_list. cbn.
      rewrite <- app_assoc. reflexivity.
    + rewrite Hat. reflexivity.
Qed.

Lemma travel_snoc (n : nat) :
  forall (task : TensorTableEntry) (st : State),
    travel (S n) task st =
    (t ← travel n task; FinishOrProceed t;; mret (advanced t)) st.
Proof.
  induction n as [|n IH]; intros task st.
  - reflexivity.
  - change (travel (S (S n)) task st)
      with ((FinishOrProceed task;; travel (S n) (advanced task)) st).
    change (travel (S n) task)
      with (FinishOrProceed task;; travel n (advanced task)).
    rewrite !bind_unfold.
    destruct (FinishOrProceed task st) as [[] st1| | |]; try reflexivity.
    rewrite IH. reflexivity.
Qed.

Lemma visited_queue_visits (task : TensorTableEntry) (rest : list QueueType) :
  omap visited_queue (visits task rest) = rest.
Proof.
  induction rest as [|q rest IH]; [reflexivity|].
  cbn. rewrite IH. reflexivity.
Qed.

(** X1.  A work item visits the stages of its [queue_list] in order, each
    once.  Starting on the queue of the head stage, the successive calls of
    [FinishOrProceed] hand it to the queues of the remaining stages, one
    after the other, without touching the completion counter; the call after
    the last hand-over increments the counter; any further call is a fatal
    error. *)
Theorem FinishOrProceed_stage_order :
  forall (task : TensorTableEntry) (st : State) (q0 : QueueType)
         (rest : list QueueType),
    queue_list task = q0 :: rest ->
    exists st',
      travel (length rest) task st =
        Ret (with_queue_list (drop (length rest) (q0 :: rest)) task) st' /\
      trace st' = trace st ++ visits task rest /\
      omap visited_queue (visits task rest) = rest /\
      atomics st' = atomics st /\
      forall c v,
        counter_ptr task = Some c ->
        atomics st !! c = Some v ->
        exists st'',
          travel (S (length rest)) task st =
            Ret (with_queue_list [] task) st'' /\
          atomics st'' !! c = Some (to_int (v + 1)) /\
          FinishOrProceed (with_queue_list [] task) st'' = Aborted st''.
Proof.
  intros task st q0 rest Hq.
  destruct (travel_visits (length rest) task st) as (st' & Hrun & Htr & Hat).
  { rewrite Hq. cbn. lia. }
  rewrite Hq in Hrun, Htr. cbn [tail] in Htr.
  rewrite firstn_all2 in Htr.
  2:{ clear. induction rest; cbn; [lia|]. apply le_n_S. assumption. }
  exists st'. split; [exact Hrun|]. split; [exact Htr|].
  split; [apply visited_queue_visits|]. split; [exact Hat|].
  intros c v Hc Hv.
  assert (Hlast : exists op,
             drop (length rest) (q0 :: rest) = [op]).
  { clear. revert q0. induction rest as [|q rest IH]; intros q0.
    - exists q0. reflexivity.
    - cbn [length drop]. apply IH. }
  destruct Hlast as [op Hop].
  set (final := with_queue_list (drop (length rest) (q0 :: rest)) task) in *.
  assert (Hfin : FinishOrProceed final st' =
                 Ret tt (if v =? total_partnum final - 1
                         then record (Call.callback (callback final) OK)
                                (incremented c v st')
                         else incremented c v st')).
  { apply (FinishOrProceed_last final st' op c v).
    - unfold final. cbn. exact Hop.
    - exact Hc.
    - rewrite Hat. exact Hv. }
  assert (Hfin' : exists st'',
             FinishOrProceed final st' = Ret tt st'' /\
             atomics st'' !! c = Some (to_int (v + 1))).
  { rewrite Hfin.
    destruct (v =? total_partnum final - 1); eexists; (split; [reflexivity|]);
      unfold incremented; cbn; rewrite lookup_insert_eq; reflexivity. }
  destruct Hfin' as (st'' & Hfin' & Hat').
  exists st''. split; [|split].
  - rewrite travel_snoc. erewrite bind_Ret; [|exact Hrun].
    erewrite bind_Ret; [|exact Hfin'].
    unfold advanced, final. cbn. rewrite Hop. reflexivity.
  - exact Hat'.
  - reflexivity.
Qed.

Lemma FinishOrProceed_stage_order_witness :
  let stages := [REDUCE; COPYD2H; PUSH; PULL; COPYH2D; BROADCAST] in
  exists st',
    travel 5 (Sample.item "w_0" 1 stages 5 1) Sample.counter_state =
      Ret (Sample.item "w_0" 1 [BROADCAST] 5 1) st' /\
    omap visited_queue (trace st') = [COPYD2H; PUSH; PULL; COPYH2D; BROADCAST].
Proof.
  intros stages.
  destruct (FinishOrProceed_stage_order (Sample.item "w_0" 1 stages 5 1)
              Sample.counter_state REDUCE
              [COPYD2H; PUSH; PULL; COPYH2D; BROADCAST] eq_refl)
    as (st' & Hrun & Htr & Hv & _).
  exists st'. split; [exact Hrun|]. rewrite Htr. exact Hv.
Defined.

(** X2.  [FinishOrProceed] ends in one of two ways: it returns, or the
    process ends with the state as it was (no partial effect).  The process
    ends exactly when the [queue_list] is empty, or the item is at its last
    stage and its counter pointer is null or dangling. *)
Theorem FinishOrProceed_outcome :
  forall (task : TensorTableEntry) (st : State),
    ((exists st', FinishOrProceed task st = Ret tt st') \/
     FinishOrProceed task st = Aborted st) /\
    (FinishOrProceed task st = Aborted st <->
     queue_list task = [] \/
     (length (queue_list task) = 1%nat /\ ~ counter_live task st)).
Proof.
  intros task st. unfold counter_live.
  destruct (queue_list task) as [|head [|next rest]] eqn:Hq.
  - assert (H : FinishOrProceed task st = Aborted st).
    { unfold FinishOrProceed. rewrite Hq. reflexivity. }
    split; [right; exact H|]. split; auto.
  - destruct (counter_ptr task) as [c|] eqn:Hc.
    + destruct (atomics st !! c) as [v|] eqn:Hv.
      * pose proof (FinishOrProceed_last task st head c v Hq Hc Hv) as H.
        split; [left; eauto|]. rewrite H. split; [discriminate|].
        intros [|[_ Hn]]; [discriminate|]. exfalso. apply Hn. eauto.
      * assert (H : FinishOrProceed task st = Aborted st).
        { unfold FinishOrProceed, mbind, M_bind, BPS_CHECK, fetch_add.
          rewrite Hq. cbn. rewrite Hc, Hv. reflexivity. }
        split; [right; exact H|]. split; [|auto].
        intros _. right. split; [reflexivity|].
        intros (c' & v' & [= <-] & Hv'). congruence.
    + assert (H : FinishOrProceed task st = Aborted st).
      { unfold FinishOrProceed, mbind, M_bind, BPS_CHECK.
        rewrite Hq. cbn. rewrite Hc. reflexivity. }
      split; [right; exact H|]. split; [|auto].
      intros _. right. split; [reflexivity|].
      intros (c' & v' & [=] & _).
  - pose proof (FinishOrProceed_next task st head next rest Hq) as H.
    split; [left; eauto|]. rewrite H. split; [discriminate|].
    intros [|[Hl _]]; [discriminate|]. cbn in Hl. lia.
Qed.

(** *** EnqueueTensor, then the last stage of every partition *)

Lemma enqueue_all_facts (q0 : QueueType) (partitions : list TensorTableEntry) :
  forall (key_list : list Z) (st : State),
    atomics (enqueue_all q0 key_list partitions st) = atomics st /\
    nccl_groups (enqueue_all q0 key_list partitions st) = nccl_groups st /\
    inbox (enqueue_all q0 key_list partitions st) = inbox st /\
    trace (enqueue_all q0 key_list partitions st) =
      trace st ++ (Call.addTask q0 <$> keyed key_list partitions) /\
    GetScheduledQueue q0 (enqueue_all q0 key_list partitions st) =
      GetScheduledQueue q0 st ++ keyed key_list partitions /\
    forall q, q <> q0 ->
      GetScheduledQueue q (enqueue_all q0 key_list partitions st) =
      GetScheduledQueue q st.
Proof.
  unfold enqueue_all, keyed.
  induction partitions as [|p ps IH]; intros keys st.
  - destruct keys; cbn; rewrite !app_nil_r; auto 10.
  - destruct keys as [|k keys]; [cbn; rewrite !app_nil_r; auto 10|].
    cbn [zip zip_with foldl fmap list_fmap].
    destruct (IH keys (enqueued q0 (with_key (k, p).1 (k, p).2) st))
      as (Ha & Hg & Hi & Ht & Hq & Hne).
    rewrite Ha, Hg, Hi, Ht, Hq. cbn [fst snd].
    rewrite GetScheduledQueue_enqueued. cbn.
    rewrite <- !app_assoc. repeat split; try reflexivity.
    intros q Hq'. rewrite Hne by exact Hq'.
    apply GetScheduledQueue_enqueued_ne. congruence.
Qed.

Lemma Forall_keyed (P : TensorTableEntry -> Prop)
    (partitions : list TensorTableEntry) :
  forall key_list : list Z,
    Forall (fun p => forall k, P (with_key k p)) partitions ->
    Forall P (keyed key_list partitions).
Proof.
  unfold keyed.
  induction partitions as [|p ps IH]; intros keys Hall.
  - destruct keys; constructor.
  - destruct keys as [|k keys]; [constructor|].
    apply Forall_cons in Hall as [Hp Hall].
    cbn. constructor; [apply Hp|apply IH; exact Hall].
Qed.

Lemma length_keyed (key_list : list Z) (partitions : list TensorTableEntry) :
  length key_list = length partitions ->
  length (keyed key_list partitions) = length partitions.
Proof.
  intros Hlen. unfold keyed. rewrite length_fmap, length_zip_with. lia.
Qed.

Lemma FinishAll_app (l1 l2 : list TensorTableEntry) (st : State) :
  FinishAll (l1 ++ l2) st = (FinishAll l1;; FinishAll l2) st.
Proof.
  revert st. induction l1 as [|t l1 IH]; intros st; [reflexivity|].
  cbn [app FinishAll]. rewrite !bind_unfold.
  destruct (FinishOrProceed t st) as [[] st1| | |]; try reflexivity.
  rewrite IH. reflexivity.
Qed.

Lemma partition_count_le (size bound : Z) :
  0 < bound -> 0 <= size -> Z.of_nat (partition_count size bound) <= size.
Proof.
  intros Hb Hs.
  destruct (Z_le_gt_dec (Z.of_nat (partition_count size bound)) size)
    as [|Hgt]; [assumption|].
  assert (Hlt : (Z.to_nat size < partition_count size bound)%nat) by lia.
  apply (below_count size bound Hb) in Hlt.
  rewrite Z2Nat.id in Hlt by lia. nia.
Qed.

(** X3.  Within the range the partitioner handles, a tensor enqueued with
    a single stage completes exactly once.  For a tensor of [size] bytes
    with [0 < size <= INT_MAX] (input and output, when both are given, of
    the same size), a positive partition bound and a context with one key
    per partition: after [EnqueueTensor] the partitions wait on the queue
    of that stage, one per key; in whatever order they then pass the stage,
    no call of [FinishOrProceed] but the last invokes anything, and the
    last invokes the callback, once, with success. *)
Theorem EnqueueTensor_completes_once :
  forall (g : BytePSGlobal.t) (fuel : nat) (context : BPSContext.t)
         (input output : option Tensor.t) (ready_event : option nat)
         (name : string) (device priority version : Z) (cb : nat)
         (q0 : QueueType) (size : Z) (st : State),
    let bound := BytePSGlobal.GetPartitionBound g in
    let count := partition_count size bound in
    byte_size input output = Some size ->
    0 < size <= INT_MAX ->
    0 < bound ->
    sizes_agree input output ->
    (count < fuel)%nat ->
    length (BPSContext.key_list context) = count ->
    exists st1 waiting,
      EnqueueTensor g fuel context input output ready_event name device
        priority version cb [q0] st = Ret OK st1 /\
      GetScheduledQueue q0 st1 = GetScheduledQueue q0 st ++ waiting /\
      key <$> waiting = BPSContext.key_list context /\
      forall order : list TensorTableEntry,
        order ≡ₚ waiting ->
        (exists st2,
            FinishAll order st1 = Ret tt st2 /\
            trace st2 = trace st1 ++ [Call.callback cb OK]) /\
        (forall k : nat,
            (k < length order)%nat ->
            exists st2,
              FinishAll (take k order) st1 = Ret tt st2 /\
              trace st2 = trace st1).
Proof.
  intros g fuel context input output re name dev prio ver cb q0 size st
    bound count Hsize Hrange Hbound Hagree Hfuel Hkeys.
  set (c := fresh (dom (atomics st))).
  set (e := EnqueueTensor_entry context input output re name dev prio ver cb
              [q0] c).
  set (partitions := map (nth_partition e size bound) (seq 0 count)).
  set (keys := BPSContext.key_list context) in *.
  set (n := Z.of_nat (length keys)).
  assert (Hlen : length partitions = count).
  { unfold partitions. rewrite length_map, length_seq. reflexivity. }
  assert (Hpos : (0 < count)%nat).
  { apply (below_count size bound Hbound 0). lia. }
  assert (Hn : n <= INT_MAX).
  { unfold n. rewrite Hkeys.
    pose proof (partition_count_le size bound Hbound) as H. fold count in H.
    lia. }
  exists (enqueue_all q0 keys partitions (allocated 0 st)),
         (keyed keys partitions).
  destruct (enqueue_all_facts q0 partitions keys (allocated 0 st))
    as (Hat & _ & _ & _ & Hq & _).
  assert (Hall : Forall (last_stage_of c cb n) (keyed keys partitions)).
  { apply Forall_keyed. unfold partitions.
    apply Forall_forall. intros p Hp%list_elem_of_In.
    apply in_map_iff in Hp as (i & <- & _).
    intros k. repeat split. exists q0. reflexivity. }
  split; [|split; [|split]].
  - rewrite (EnqueueTensor_run g context re name dev prio ver cb [q0] input
               output size fuel st Hsize (conj (Z.lt_le_incl _ _ (proj1 Hrange))
                                            (proj2 Hrange))
               Hbound Hagree Hfuel).
    fold keys count. rewrite Hkeys, Nat.eqb_refl. reflexivity.
  - rewrite Hq. reflexivity.
  - unfold keyed. clear -Hkeys Hlen. rewrite <- Hlen in Hkeys.
    revert Hkeys. generalize partitions as ps. clear.
    induction keys as [|k keys IH]; intros ps Hl; destruct ps as [|p ps];
      try discriminate; [reflexivity|].
    cbn. f_equal. apply IH. cbn in Hl. lia.
  - intros order Hperm.
    assert (Hord : Forall (last_stage_of c cb n) order).
    { rewrite Hperm. exact Hall. }
    assert (Hol : length order = length keys).
    { rewrite Hperm, length_keyed; lia. }
    assert (H0 : atomics (enqueue_all q0 keys partitions (allocated 0 st)) !! c
                 = Some 0).
    { rewrite Hat. cbn. apply lookup_insert_eq. }
    split.
    + destruct (exists_last (l := order)) as (others & last & ->).
      { intros ->. cbn in Hol. lia. }
      apply Forall_app in Hord as [Hoth Hlast].
      apply Forall_cons in Hlast as [Hlast _].
      destruct Hlast as ([op Hop] & Hc & Htot & Hcb).
      rewrite length_app in Hol. cbn in Hol.
      destruct (FinishAll_quiet c cb n others 0 _ Hoth H0)
        as (st2 & Hrun & Htr & _ & Hv); try lia.
      eexists. split.
      * rewrite FinishAll_app. erewrite bind_Ret; [|exact Hrun].
        cbn [FinishAll]. erewrite bind_Ret; [reflexivity|].
        rewrite (FinishOrProceed_last last st2 op c _ Hop Hc Hv).
        rewrite Htot. replace (0 + Z.of_nat (length others) =? n - 1)
          with true; [reflexivity|].
        symmetry. apply Z.eqb_eq. lia.
      * cbn. rewrite Htr, Hcb. reflexivity.
    + intros k Hk.
      destruct (FinishAll_quiet c cb n (take k order) 0 _
                  (Forall_take _ k _ Hord) H0)
        as (st2 & Hrun & Htr & _); try lia.
      { rewrite length_take. lia. }
      exists st2. auto.
Qed.

Lemma EnqueueTensor_completes_once_witness :
  exists st1 waiting,
    EnqueueTensor (Sample.root_registry false 20) 10
      (Sample.context_of 77 [1; 2; 3; 4]) (Some (Sample.tensor_of 77))
      (Some (Sample.tensor_of 77)) None "grad" 0 0 0 7%nat [BROADCAST]
      Sample.empty_state = Ret OK st1 /\
    key <$> waiting = [1; 2; 3; 4] /\
    exists st2,
      FinishAll (reverse waiting) st1 = Ret tt st2 /\
      trace st2 = trace st1 ++ [Call.callback 7%nat OK].
Proof.
  destruct (EnqueueTensor_completes_once (Sample.root_registry false 20) 10
              (Sample.context_of 77 [1; 2; 3; 4]) (Some (Sample.tensor_of 77))
              (Some (Sample.tensor_of 77)) None "grad" 0 0 0 7%nat BROADCAST
              77 Sample.empty_state)
    as (st1 & waiting & Hrun & _ & Hkeys & Horder).
  - reflexivity.
  - vm_compute. split; [reflexivity|discriminate].
  - reflexivity.
  - intros i o [= <-] [= <-]. reflexivity.
  - vm_compute. lia.
  - reflexivity.
  - exists st1, waiting. split; [exact Hrun|]. split; [exact Hkeys|].
    apply Horder. apply reverse_Permutation.
Defined.

Lemma EnqueueTensor_loop_atomics (q0 : QueueType)
    (partitions : list TensorTableEntry) :
  forall (key_list : list Z) (accumulated a : Z) (st st' : State),
    EnqueueTensor_loop q0 key_list partitions accumulated st = Ret a st' ->
    atomics st' = atomics st.
Proof.
  induction partitions as [|p ps IH]; intros keys acc a st st' Hrun.
  - destruct keys; injection Hrun as _ <-; reflexivity.
  - destruct keys as [|k keys]; [discriminate|].
    cbn [EnqueueTensor_loop] in Hrun.
    apply bind_Ret_inv in Hrun as ([] & st1 & Hadd & Hrun).
    unfold addTask in Hadd. injection Hadd as <-.
    apply IH in Hrun. rewrite Hrun. reflexivity.
Qed.

Lemma tensor_or_output_size_state (e : TensorTableEntry) (size : Z)
    (st st' : State) :
  tensor_or_output_size e st = Ret size st' -> st' = st.
Proof.
  unfold tensor_or_output_size.
  destruct (tensor e); [intros [= _ <-]; reflexivity|].
  destruct (output e); [intros [= _ <-]; reflexivity|discriminate].
Qed.

Lemma BPS_CHECK_state (b : bool) (st st' : State) :
  BPS_CHECK b st = Ret tt st' -> b = true /\ st' = st.
Proof.
  unfold BPS_CHECK. destruct b; [intros [= <-]; auto|discriminate].
Qed.

Lemma PartitionTensor_loop_counter (entry : TensorTableEntry)
    (size bound : Z) (fuel : nat) :
  forall (accumulated i : Z) (partitions result : list TensorTableEntry)
         (st st' : State),
    PartitionTensor_loop fuel entry size bound accumulated i partitions st =
      Ret result st' ->
    Forall (fun p => counter_ptr p = counter_ptr entry) partitions ->
    Forall (fun p => counter_ptr p = counter_ptr entry) result.
Proof.
  induction fuel as [|fuel IH]; intros acc i ps result st st' Hrun Hps;
    [discriminate|].
  cbn [PartitionTensor_loop] in Hrun.
  destruct (acc <? size).
  - apply (IH _ _ _ _ _ _ Hrun). apply Forall_app. split; [exact Hps|].
    constructor; [reflexivity|constructor].
  - inversion Hrun. subst. exact Hps.
Qed.

Lemma PartitionTensor_counter (g : BytePSGlobal.t) (fuel : nat)
    (entry : TensorTableEntry) (result : list TensorTableEntry)
    (st st' : State) :
  PartitionTensor g fuel entry [] st = Ret result st' ->
  Forall (fun p => counter_ptr p = counter_ptr entry) result.
Proof.
  unfold PartitionTensor. intros Hrun.
  apply bind_Ret_inv in Hrun as ([] & st1 & _ & Hrun).
  apply bind_Ret_inv in Hrun as (size & st2 & _ & Hrun).
  apply (PartitionTensor_loop_counter _ _ _ _ _ _ _ _ _ _ Hrun).
  constructor.
Qed.

Lemma EnqueueTensor_loop_items (q0 : QueueType) (c : option nat)
    (partitions : list TensorTableEntry) :
  forall (key_list : list Z) (accumulated a : Z) (st st' : State),
    EnqueueTensor_loop q0 key_list partitions accumulated st = Ret a st' ->
    Forall (fun p => counter_ptr p = c) partitions ->
    exists items,
      GetScheduledQueue q0 st' = GetScheduledQueue q0 st ++ items /\
      length items = length partitions /\
      Forall (fun item => counter_ptr item = c) items /\
      forall q, q <> q0 -> GetScheduledQueue q st' = GetScheduledQueue q st.
Proof.
  induction partitions as [|p ps IH]; intros keys acc a st st' Hrun Hps.
  - destruct keys; inversion Hrun; subst; exists []; rewrite app_nil_r;
      repeat split; auto.
  - destruct keys as [|k keys]; [discriminate|].
    cbn [EnqueueTensor_loop] in Hrun.
    apply bind_Ret_inv in Hrun as ([] & st1 & Hadd & Hrun).
    assert (st1 = enqueued q0 (with_key k p) st) as ->.
    { unfold addTask in Hadd. inversion Hadd. reflexivity. }
    inversion Hps as [|? ? Hp Hrest]. subst.
    destruct (IH _ _ _ _ _ Hrun Hrest) as (items & Hq & Hlen & Hc & Ho).
    exists (with_key k p :: items).
    rewrite Hq, GetScheduledQueue_enqueued, <- app_assoc. cbn [app length].
    split; [reflexivity|]. split; [lia|]. split.
    + constructor; [reflexivity|exact Hc].
    + intros q Hne. rewrite (Ho q Hne).
      apply GetScheduledQueue_enqueued_ne. congruence.
Qed.

(** X4.  Every tensor gets a completion counter of its own.  A call of
    [EnqueueTensor] that returns has created one new atomic, holding 0, at
    an address no atomic had before, and has left every other atomic as it
    was.  The items the call has put on the queue of the first stage, one
    per key of the context, all point at that new atomic, and nothing else
    was put on any queue; so of two tensors enqueued one after the other,
    the second gets a different counter and does not disturb the first. *)
Theorem EnqueueTensor_own_counter :
  forall (g : BytePSGlobal.t) (fuel : nat) (context : BPSContext.t)
         (input output : option Tensor.t) (ready_event : option nat)
         (name : string) (device priority version : Z) (cb : nat)
         (queue_list : list QueueType) (st st' : State) (s : Status),
    EnqueueTensor g fuel context input output ready_event name device
      priority version cb queue_list st = Ret s st' ->
    let c := fresh (dom (atomics st)) in
    atomics st !! c = None /\
    atomics st' = <[c := 0]> (atomics st) /\
    (forall c' v, atomics st !! c' = Some v -> atomics st' !! c' = Some v) /\
    fresh (dom (atomics st')) <> c /\
    match queue_list with
    | [] => forall q, GetScheduledQueue q st' = GetScheduledQueue q st
    | q0 :: _ =>
        exists items,
          GetScheduledQueue q0 st' = GetScheduledQueue q0 st ++ items /\
          length items = length (BPSContext.key_list context) /\
          Forall (fun item => counter_ptr item = Some c) items /\
          forall q, q <> q0 -> GetScheduledQueue q st' = GetScheduledQueue q st
    end.
Proof.
  intros g fuel context input output re name dev prio ver cb ql st st' s
    Hrun c.
  assert (Hfresh : atomics st !! c = None).
  { apply not_elem_of_dom. apply is_fresh. }
  assert (Hboth :
            atomics st' = <[c := 0]> (atomics st) /\
            match ql with
            | [] => forall q, GetScheduledQueue q st' = GetScheduledQueue q st
            | q0 :: _ =>
                exists items,
                  GetScheduledQueue q0 st' = GetScheduledQueue q0 st ++ items /\
                  length items = length (BPSContext.key_list context) /\
                  Forall (fun item => counter_ptr item = Some c) items /\
                  forall q, q <> q0 ->
                            GetScheduledQueue q st' = GetScheduledQueue q st
            end).
  { unfold EnqueueTensor in Hrun.
    apply bind_Ret_inv in Hrun as ([] & st1 & H1 & Hrun).
    assert (st1 = st) as ->.
    { destruct input, output; try (injection H1 as <-; reflexivity).
      apply BPS_CHECK_state in H1 as [_ ->]. reflexivity. }
    apply bind_Ret_inv in Hrun as (c0 & st2 & H2 & Hrun).
    injection H2 as <- <-.
    apply bind_Ret_inv in Hrun as (parts & st3 & H3 & Hrun).
    pose proof (PartitionTensor_counter _ _ _ _ _ _ H3) as Hparts.
    cbn [counter_ptr EnqueueTensor_entry] in Hparts. fold c in Hparts.
    apply PartitionTensor_state in H3 as ->.
    apply bind_Ret_inv in Hrun as ([] & st4 & H4 & Hrun).
    apply BPS_CHECK_state in H4 as [Hcount ->].
    apply Nat.eqb_eq in Hcount.
    destruct ql as [|q0 ql].
    - apply bind_Ret_inv in Hrun as ([] & st5 & H5 & Hrun).
      injection H5 as <-. injection Hrun as _ <-.
      split; reflexivity.
    - apply bind_Ret_inv in Hrun as (acc & st5 & H5 & Hrun).
      pose proof (EnqueueTensor_loop_atomics _ _ _ _ _ _ _ H5) as Hat.
      destruct (EnqueueTensor_loop_items _ _ _ _ _ _ _ _ H5 Hparts)
        as (items & Hq & Hlen & Hc & Ho).
      apply bind_Ret_inv in Hrun as (sz & st6 & H6 & Hrun).
      apply tensor_or_output_size_state in H6 as ->.
      apply bind_Ret_inv in Hrun as ([] & st7 & H7 & Hrun).
      apply BPS_CHECK_state in H7 as [_ ->].
      injection Hrun as _ <-. rewrite Hat.
      split; [reflexivity|].
      exists items. rewrite Hcount. auto. }
  destruct Hboth as (Hat & Hitems).
  split; [exact Hfresh|]. split; [exact Hat|]. split; [|split].
  - intros c' v Hc'. rewrite Hat.
    rewrite lookup_insert_ne; [exact Hc'|]. intros <-. congruence.
  - intros Heq.
    pose proof (is_fresh (dom (atomics st'))) as Hnew.
    rewrite Heq, Hat in Hnew. apply Hnew.
    apply elem_of_dom. rewrite lookup_insert_eq. eauto.
  - exact Hitems.
Qed.

Lemma EnqueueTensor_own_counter_witness :
  exists st',
    EnqueueTensor (Sample.root_registry false 20) 10
      (Sample.context_of 77 [1; 2; 3; 4]) (Some (Sample.tensor_of 77))
      (Some (Sample.tensor_of 77)) None "grad" 0 0 0 7%nat [REDUCE]
      Sample.counter_state = Ret OK st' /\
    atomics st' !! 5%nat = Some 0 /\
    fresh (dom (atomics st')) <> fresh (dom (atomics Sample.counter_state)) /\
    counter_ptr <$> GetScheduledQueue REDUCE st' =
      replicate 4 (Some (fresh (dom (atomics Sample.counter_state)))).
Proof.
  eexists. split; [vm_compute; reflexivity|].
  match goal with
  | |- context [atomics ?s] =>
      destruct (EnqueueTensor_own_counter (Sample.root_registry false 20) 10
                  (Sample.context_of 77 [1; 2; 3; 4])
                  (Some (Sample.tensor_of 77)) (Some (Sample.tensor_of 77))
                  None "grad" 0 0 0 7%nat [REDUCE] Sample.counter_state s OK)
        as (_ & _ & Hkeep & Hnew & _)
  end.
  - vm_compute. reflexivity.
  - split; [apply Hkeep; reflexivity|]. split; [exact Hnew|].
    vm_compute. reflexivity.
Defined.

(** *** Partition windows *)

Lemma PartitionTensor_run (g : BytePSGlobal.t) (fuel : nat)
    (entry : TensorTableEntry) (partitions : list TensorTableEntry)
    (size : Z) (st : State) :
  let bound := BytePSGlobal.GetPartitionBound g in
  counter_ptr entry <> None ->
  byte_size (tensor entry) (output entry) = Some size ->
  0 <= size <= INT_MAX ->
  0 < bound ->
  (partition_count size bound < fuel)%nat ->
  PartitionTensor g fuel entry partitions st =
  Ret (partitions ++
         map (nth_partition entry size bound)
           (seq 0 (partition_count size bound))) st.
Proof.
  intros bound Hc Hsize Hrange Hbound Hfuel. unfold PartitionTensor.
  erewrite bind_Ret with (st' := st) (a := tt).
  2:{ destruct (counter_ptr entry); [reflexivity|congruence]. }
  erewrite bind_Ret; [|apply tensor_or_output_size_read; exact Hsize].
  fold bound.
  pose proof (PartitionTensor_loop_run size bound Hbound entry fuel 0
                partitions st (proj2 Hrange)) as H.
  rewrite Nat.sub_0_r in H. cbn [Z.of_nat] in H.
  rewrite Z.mul_0_l, Z.min_l in H by lia.
  apply H. exact Hfuel.
Qed.

(** X5.  Within the range the partitioner handles, the partitions tile the
    tensor.  For a work item with a counter, over a tensor of [size] bytes
    with [0 <= size <= INT_MAX], and a positive partition bound,
    [PartitionTensor] returns, every window lies inside the tensor and is
    between 1 and [bound] bytes long, and every byte position of the tensor
    lies in the window of exactly one partition. *)
Theorem PartitionTensor_tiles :
  forall (g : BytePSGlobal.t) (fuel : nat) (entry : TensorTableEntry)
         (size : Z) (st : State),
    let bound := BytePSGlobal.GetPartitionBound g in
    counter_ptr entry <> None ->
    byte_size (tensor entry) (output entry) = Some size ->
    0 <= size <= INT_MAX ->
    0 < bound ->
    (partition_count size bound < fuel)%nat ->
    exists partitions,
      PartitionTensor g fuel entry [] st = Ret partitions st /\
      (forall (i : nat) part,
          partitions !! i = Some part ->
          0 <= offset part /\ 0 < len part <= bound /\
          offset part + len part <= size) /\
      (forall p : Z,
          0 <= p < size ->
          exists (i : nat) part,
            partitions !! i = Some part /\
            offset part <= p < offset part + len part /\
            forall (j : nat) part',
              partitions !! j = Some part' ->
              offset part' <= p < offset part' + len part' ->
              j = i).
Proof.
  intros g fuel entry size st bound Hc Hsize Hrange Hbound Hfuel.
  set (count := partition_count size bound).
  exists (map (nth_partition entry size bound) (seq 0 count)).
  assert (Hlook : forall (i : nat) part,
             map (nth_partition entry size bound) (seq 0 count) !! i = Some part ->
             (i < count)%nat /\ part = nth_partition entry size bound i).
  { intros i part Hi.
    assert (Hlt : (i < count)%nat).
    { apply lookup_lt_Some in Hi. rewrite length_map, length_seq in Hi.
      exact Hi. }
    rewrite lookup_map_seq in Hi by exact Hlt. injection Hi as <-. auto. }
  split; [|split].
  - apply (PartitionTensor_run g fuel entry [] size st); assumption.
  - intros i part Hi. apply Hlook in Hi as [Hlt ->].
    apply (below_count size bound Hbound) in Hlt.
    cbn [offset len nth_partition]. lia.
  - intros p Hp.
    set (i := Z.to_nat (p `div` bound)).
    assert (Hdiv : Z.of_nat i * bound <= p < (Z.of_nat i + 1) * bound).
    { unfold i. rewrite Z2Nat.id by (apply Z.div_pos; lia).
      pose proof (Z.mul_div_le p bound Hbound).
      pose proof (Z.mul_succ_div_gt p bound Hbound). lia. }
    assert (Hlt : (i < count)%nat).
    { apply (below_count size bound Hbound). lia. }
    exists i, (nth_partition entry size bound i).
    split; [|split].
    + rewrite lookup_map_seq by exact Hlt. reflexivity.
    + cbn [offset len nth_partition]. lia.
    + intros j part' Hj Hin. apply Hlook in Hj as [Hjlt ->].
      cbn [offset len nth_partition] in Hin. nia.
Qed.

Lemma PartitionTensor_tiles_witness :
  exists partitions,
    PartitionTensor (Sample.root_registry false 20) 10
      (EnqueueTensor_entry (Sample.context_of 77 [1; 2; 3; 4])
         (Some (Sample.tensor_of 77)) None None "grad" 0 0 0 7%nat
         [REDUCE; BROADCAST] 5)
      [] Sample.empty_state = Ret partitions Sample.empty_state /\
    exists (i : nat) part,
      partitions !! i = Some part /\ offset part <= 65 < offset part + len part.
Proof.
  destruct (PartitionTensor_tiles (Sample.root_registry false 20) 10
              (EnqueueTensor_entry (Sample.context_of 77 [1; 2; 3; 4])
                 (Some (Sample.tensor_of 77)) None None "grad" 0 0 0 7%nat
                 [REDUCE; BROADCAST] 5)
              77 Sample.empty_state)
    as (partitions & Hrun & _ & Hcover).
  - discriminate.
  - reflexivity.
  - vm_compute. split; discriminate.
  - reflexivity.
  - vm_compute. lia.
  - exists partitions. split; [exact Hrun|].
    destruct (Hcover 65) as (i & part & Hi & Hin & _); [lia|].
    exists i, part. auto.
Defined.

(** X6.  Boundary cases of the partitioner, for a work item with a counter
    over a tensor of [size] bytes with [0 <= size <= INT_MAX] and a
    positive partition bound.  [PartitionTensor] keeps what the caller's
    vector already holds and appends to it.  A tensor of no bytes adds
    nothing; a tensor no larger than the bound adds a single partition that
    covers it; a tensor of [k] times the bound (at most [INT_MAX] bytes)
    adds [k] partitions of exactly [bound] bytes. *)
Theorem PartitionTensor_boundaries :
  forall (g : BytePSGlobal.t) (fuel : nat) (entry : TensorTableEntry)
         (before : list TensorTableEntry) (size : Z) (st : State),
    let bound := BytePSGlobal.GetPartitionBound g in
    counter_ptr entry <> None ->
    byte_size (tensor entry) (output entry) = Some size ->
    0 <= size <= INT_MAX ->
    0 < bound ->
    (partition_count size bound < fuel)%nat ->
    exists added,
      PartitionTensor g fuel entry before st = Ret (before ++ added) st /\
      (size = 0 -> added = []) /\
      (0 < size <= bound ->
       exists part,
         added = [part] /\ offset part = 0 /\ len part = size /\
         tensor_name part = tensor_name entry +:+ "_0") /\
      (forall k : nat,
          size = Z.of_nat k * bound ->
          length added = k /\ Forall (fun part => len part = bound) added).
Proof.
  intros g fuel entry before size st bound Hc Hsize Hrange Hbound Hfuel.
  set (count := partition_count size bound).
  exists (map (nth_partition entry size bound) (seq 0 count)).
  split; [|split; [|split]].
  - apply (PartitionTensor_run g fuel entry before size st); assumption.
  - intros Hs. unfold count, partition_count. rewrite Hs.
    replace ((0 + bound - 1) `div` bound) with 0; [reflexivity|].
    symmetry. apply Z.div_small. lia.
  - intros Hs.
    assert (Hcount : count = 1%nat).
    { unfold count, partition_count.
      replace ((size + bound - 1) `div` bound) with 1; [reflexivity|].
      apply (Z.div_unique _ _ 1 (size - 1)); lia. }
    rewrite Hcount. cbn [seq map].
    eexists. split; [reflexivity|]. cbn. repeat split; lia.
  - intros k Hk.
    assert (Hcount : count = k).
    { unfold count, partition_count. rewrite Hk.
      replace ((Z.of_nat k * bound + bound - 1) `div` bound)
        with (Z.of_nat k); [lia|].
      apply (Z.div_unique _ _ (Z.of_nat k) (bound - 1)); lia. }
    split; [rewrite length_map, length_seq; exact Hcount|].
    apply Forall_forall. intros part Hp%list_elem_of_In.
    apply in_map_iff in Hp as (i & <- & Hi).
    apply in_seq in Hi. cbn [len nth_partition].
    rewrite Hcount in Hi. nia.
Qed.

Lemma PartitionTensor_boundaries_witness :
  exists added,
    PartitionTensor (Sample.root_registry false 20) 10
      (EnqueueTensor_entry (Sample.context_of 60 [1; 2; 3])
         (Some (Sample.tensor_of 60)) None None "grad" 0 0 0 7%nat
         [REDUCE; BROADCAST] 5)
      [] Sample.empty_state = Ret ([] ++ added) Sample.empty_state /\
    length added = 3%nat /\ Forall (fun part => len part = 20) added.
Proof.
  destruct (PartitionTensor_boundaries (Sample.root_registry false 20) 10
              (EnqueueTensor_entry (Sample.context_of 60 [1; 2; 3])
                 (Some (Sample.tensor_of 60)) None None "grad" 0 0 0 7%nat
                 [REDUCE; BROADCAST] 5)
              [] 60 Sample.empty_state)
    as (added & Hrun & _ & _ & Hk).
  - discriminate.
  - reflexivity.
  - vm_compute. split; discriminate.
  - reflexivity.
  - vm_compute. lia.
  - exists added. split; [exact Hrun|]. apply (Hk 3%nat). reflexivity.
Defined.

(** X7.  For a tensor of [size] bytes with [0 <= size <= INT_MAX] (input
    and output, when both are given, of the same size) and a positive
    partition bound, [EnqueueTensor] goes through exactly when the context
    holds one key per partition.  With any other number of keys the check
    after partitioning ends the process before anything is put on a queue
    and before any callback, also when the [queue_list] is empty. *)
Theorem EnqueueTensor_key_count :
  forall (g : BytePSGlobal.t) (fuel : nat) (context : BPSContext.t)
         (input output : option Tensor.t) (ready_event : option nat)
         (name : string) (device priority version : Z) (cb : nat)
         (queue_list : list QueueType) (size : Z) (st : State),
    let bound := BytePSGlobal.GetPartitionBound g in
    let count := partition_count size bound in
    byte_size input output = Some size ->
    0 <= size <= INT_MAX ->
    0 < bound ->
    sizes_agree input output ->
    (count < fuel)%nat ->
    (length (BPSContext.key_list context) = count ->
     exists st',
       EnqueueTensor g fuel context input output ready_event name device
         priority version cb queue_list st = Ret OK st') /\
    (length (BPSContext.key_list context) <> count ->
     exists st',
       EnqueueTensor g fuel context input output ready_event name device
         priority version cb queue_list st = Aborted st' /\
       trace st' = trace st /\
       sched_queues st' = sched_queues st).
Proof.
  intros g fuel context input output re name dev prio ver cb ql size st
    bound count Hsize Hrange Hbound Hagree Hfuel.
  rewrite (EnqueueTensor_run g context re name dev prio ver cb ql input
             output size fuel st Hsize Hrange Hbound Hagree Hfuel).
  fold bound count. split; intros Hkeys.
  - rewrite Hkeys, Nat.eqb_refl. destruct ql; eauto.
  - apply Nat.eqb_neq in Hkeys. rewrite Hkeys. eauto.
Qed.

Lemma EnqueueTensor_key_count_witness :
  exists st',
    EnqueueTensor (Sample.root_registry false 20) 10
      (Sample.context_of 77 [1; 2; 3]) (Some (Sample.tensor_of 77))
      (Some (Sample.tensor_of 77)) None "grad" 0 0 0 7%nat []
      Sample.empty_state = Aborted st' /\
    trace st' = trace Sample.empty_state /\
    sched_queues st' = sched_queues Sample.empty_state.
Proof.
  apply (EnqueueTensor_key_count (Sample.root_registry false 20) 10
           (Sample.context_of 77 [1; 2; 3]) (Some (Sample.tensor_of 77))
           (Some (Sample.tensor_of 77)) None "grad" 0 0 0 7%nat [] 77
           Sample.empty_state).
  - reflexivity.
  - vm_compute. split; discriminate.
  - reflexivity.
  - intros i o [= <-] [= <-]. reflexivity.
  - vm_compute. lia.
  - vm_compute. discriminate.
Defined.

(** *** Batches of the root NCCL loop *)

Section RootBatch.

Variables (g : BytePSGlobal.t) (CPU_DEVICE_ID : Z) (getNcclDataType : Z -> Z).

Lemma RootNccl_pull_shape (n : nat) (this_op : QueueType) :
  forall (nccl_entry e : NcclGroupEntry.t) (st st' : State),
    RootNccl_pull g CPU_DEVICE_ID getNcclDataType n this_op nccl_entry st =
      Ret e st' ->
    exists k : nat,
      (k <= n)%nat /\
      NcclGroupEntry.queues e =
        NcclGroupEntry.queues nccl_entry ++ replicate k this_op /\
      length (NcclGroupEntry.tasks e) =
        (length (NcclGroupEntry.tasks nccl_entry) + k)%nat /\
      NcclGroupEntry.cuda_event e = NcclGroupEntry.cuda_event nccl_entry.
Proof.
  induction n as [|n IH]; intros nccl_entry e st st' Hrun.
  - injection Hrun as <- _. exists 0%nat. cbn. rewrite app_nil_r.
    repeat split; lia.
  - cbn [RootNccl_pull] in Hrun.
    apply bind_Ret_inv in Hrun as (task & st1 & _ & Hrun).
    destruct task as [task|].
    + apply bind_Ret_inv in Hrun as ([] & st2 & _ & Hrun).
      apply IH in Hrun as (k & Hk & Hq & Ht & Hev).
      exists (S k). cbn in Hq, Ht, Hev.
      rewrite Hq, Ht, Hev, length_app, <- app_assoc. cbn.
      repeat split; lia.
    + injection Hrun as <- _. exists 0%nat. cbn. rewrite app_nil_r.
      repeat split; lia.
Qed.

(** X8.  A batch of the root NCCL loop holds the items pulled from the
    REDUCE queue, at most [nccl_group_size] of them, followed by the items
    pulled from the BROADCAST queue, again at most [nccl_group_size], and
    records for every item the queue it was pulled from: the reduce items
    are recorded under REDUCE and are exactly the items that have left the
    REDUCE queue, the broadcast items are recorded under BROADCAST and are
    exactly the items that have left the BROADCAST queue. *)
Theorem RootNccl_batch_shape :
  forall (st st1 : State) (e : NcclGroupEntry.t),
    RootNccl_ops g CPU_DEVICE_ID getNcclDataType [REDUCE; BROADCAST]
      (NcclGroupEntry.mk 0 [] []) st = Ret e st1 ->
    exists reduced broadcast : list TensorTableEntry,
      (Z.of_nat (length reduced) <=
         Z.max 0 (BytePSGlobal.GetNcclGroupSize g)) /\
      (Z.of_nat (length broadcast) <=
         Z.max 0 (BytePSGlobal.GetNcclGroupSize g)) /\
      NcclGroupEntry.tasks e = reduced ++ broadcast /\
      NcclGroupEntry.queues e =
        replicate (length reduced) REDUCE ++
        replicate (length broadcast) BROADCAST /\
      GetScheduledQueue REDUCE st ≡ₚ reduced ++ GetScheduledQueue REDUCE st1 /\
      GetScheduledQueue BROADCAST st ≡ₚ
        broadcast ++ GetScheduledQueue BROADCAST st1.
Proof.
  intros st st1 e Hrun.
  destruct (RootNccl_ops_origin g CPU_DEVICE_ID getNcclDataType _ _ _ Hrun)
    as (reduced & broadcast & Hl1 & Hl2 & Ht & Hq & Hr & Hb).
  exists reduced, broadcast.
  repeat split; try assumption; lia.
Qed.

End RootBatch.

Lemma RootNccl_batch_shape_witness :
  exists reduced broadcast : list TensorTableEntry,
    (Z.of_nat (length reduced) <= 4) /\
    (Z.of_nat (length broadcast) <= 4) /\
    [Sample.item "w_0" 1 [REDUCE; BROADCAST] 5 1] ≡ₚ reduced ++ [] /\
    [] ≡ₚ broadcast ++ [].
Proof.
  destruct (RootNccl_batch_shape (Sample.root_registry false 1024)
              Sample.CPU_DEVICE_ID Sample.getNcclDataType
              (Sample.waiting REDUCE
                 (Sample.item "w_0" 1 [REDUCE; BROADCAST] 5 1))
              (record (Call.ncclReduce 4096 4 0 0)
                 (record
                    (Call.broadcastSignal 0 (BytePSCommMsg.mk 0 DO_REDUCE 1))
                    (put_queue REDUCE []
                       (Sample.waiting REDUCE
                          (Sample.item "w_0" 1 [REDUCE; BROADCAST] 5 1)))))
              (NcclGroupEntry.mk 0
                 [Sample.item "w_0" 1 [REDUCE; BROADCAST] 5 1] [REDUCE]))
    as (reduced & broadcast & Ha & Hb & _ & _ & Hr & Hbr).
  - vm_compute. reflexivity.
  - exists reduced, broadcast. auto.
Defined.

(** *** The collective on the root and on a non-root device *)

Section Collectives.

Variables (CPU_DEVICE_ID : Z) (getNcclDataType : Z -> Z).



End Collectives.


(** *** Signals the non-root NCCL loop cannot serve *)

Section NonRootErrors.

Variables (g : BytePSGlobal.t) (CPU_DEVICE_ID : Z) (getNcclDataType : Z -> Z).

(** X10.  What stops the non-root NCCL loop.  With no signal waiting it
    blocks in [recvSignal], the NCCL group left open.  A signal from any
    rank but the root, a signal that is none of DO_REDUCE, DO_BROADCAST and
    DO_GROUP, and a DO_REDUCE or DO_BROADCAST whose key is on no item of the
    queue of its stage each end the process: the signal is consumed, the
    queues are as they were, and no collective is issued. *)
Theorem NonRootNccl_loop_stops :
  forall (fuel : nat) (tasks : list TensorTableEntry) (st : State),
    (inbox st = [] ->
     NonRootNccl_loop g CPU_DEVICE_ID getNcclDataType (S fuel) tasks st =
       Blocked st /\
     (GetMyLocalRank g <> GetRoot g ->
      RunNonRootNcclLoopOnce g CPU_DEVICE_ID getNcclDataType st =
        Blocked (record Call.ncclGroupStart st))) /\
    (forall (src : Z) (msg : BytePSCommMsg.t)
            (waiting : list (Z * BytePSCommMsg.t)),
        inbox st = (src, msg) :: waiting ->
        src <> GetRoot g \/
        BytePSCommMsg.signal msg = REDUCE_READY \/
        BytePSCommMsg.signal msg = BCAST_READY \/
        (BytePSCommMsg.signal msg <> DO_GROUP /\
         find_key (BytePSCommMsg.key msg)
           (GetScheduledQueue (stage_of_signal msg) st) = None) ->
        NonRootNccl_loop g CPU_DEVICE_ID getNcclDataType (S fuel) tasks st =
          Aborted (set_inbox waiting st)).
Proof.
  intros fuel tasks st. split.
  - intros Hin. split.
    + cbn [NonRootNccl_loop]. rewrite bind_unfold. unfold recvSignal.
      rewrite Hin. reflexivity.
    + intros Hrank. unfold RunNonRootNcclLoopOnce.
      apply Z.eqb_neq in Hrank. rewrite Hrank. cbn [negb].
      erewrite bind_Ret; [|reflexivity].
      erewrite bind_Ret; [|reflexivity].
      rewrite bind_unfold. cbn [inbox record]. rewrite Hin.
      cbn [length NonRootNccl_loop]. rewrite bind_unfold. unfold recvSignal.
      cbn [inbox record]. rewrite Hin. reflexivity.
  - intros src msg waiting Hin Hbad.
    cbn [NonRootNccl_loop].
    erewrite bind_Ret; [|unfold recvSignal; rewrite Hin; reflexivity].
    cbn [fst snd].
    destruct (src =? GetRoot g) eqn:Hsrc.
    2:{ reflexivity. }
    apply Z.eqb_eq in Hsrc.
    erewrite bind_Ret; [|reflexivity].
    destruct Hbad as [Hbad|[Hbad|[Hbad|[Hng Hfind]]]].
    + contradiction.
    + rewrite Hbad. reflexivity.
    + rewrite Hbad. reflexivity.
    + destruct (decide (BytePSCommMsg.signal msg = DO_GROUP)) as [|_];
        [contradiction|].
      unfold stage_of_signal in Hfind.
      destruct (decide (BytePSCommMsg.signal msg = DO_BROADCAST)) as [Hb|Hb].
      * erewrite bind_Ret; [|reflexivity].
        erewrite bind_Ret.
        2:{ unfold getTask_key.
            change (GetScheduledQueue BROADCAST (set_inbox waiting st))
              with (GetScheduledQueue BROADCAST st).
            rewrite Hfind. reflexivity. }
        reflexivity.
      * destruct (bool_decide (BytePSCommMsg.signal msg = DO_REDUCE)) eqn:Hr.
        -- erewrite bind_Ret.
           2:{ erewrite bind_Ret; reflexivity. }
           erewrite bind_Ret.
           2:{ unfold getTask_key.
               change (GetScheduledQueue REDUCE (set_inbox waiting st))
                 with (GetScheduledQueue REDUCE st).
               rewrite Hfind. reflexivity. }
           reflexivity.
        -- apply bind_Aborted. apply bind_Aborted. reflexivity.
Qed.

End NonRootErrors.

Lemma NonRootNccl_loop_stops_witness :
  NonRootNccl_loop (Sample.nonroot_registry false 1024) Sample.CPU_DEVICE_ID
    Sample.getNcclDataType 3 []
    (set_inbox [(0, BytePSCommMsg.mk 0 DO_REDUCE 9)]
       (Sample.waiting REDUCE (Sample.item "w_0" 1 [REDUCE] 5 1))) =
  Aborted (Sample.waiting REDUCE (Sample.item "w_0" 1 [REDUCE] 5 1)).
Proof.
  destruct (NonRootNccl_loop_stops (Sample.nonroot_registry false 1024)
              Sample.CPU_DEVICE_ID Sample.getNcclDataType 2 []
              (set_inbox [(0, BytePSCommMsg.mk 0 DO_REDUCE 9)]
                 (Sample.waiting REDUCE (Sample.item "w_0" 1 [REDUCE] 5 1))))
    as (_ & H).
  apply (H 0 (BytePSCommMsg.mk 0 DO_REDUCE 9) []); [reflexivity|].
  right. right. right. split; [discriminate|reflexivity].
Defined.

(** *** The non-root NCCL loop follows the signals of the root *)


Section NonRootServe.

Variables (g : BytePSGlobal.t) (CPU_DEVICE_ID : Z) (getNcclDataType : Z -> Z).





End NonRootServe.


(** * Stages with device copies and parameter-server traffic *)

Lemma io_bind_unfold {A B} (m : IoM A) (k : A -> IoM B) (s : Engine) :
  (m ≫= k) s =
  match m s with
  | Done a s' => k a s'
  | Died s' => Died s'
  | Stuck s' => Stuck s'
  | Exhausted => Exhausted
  end.
Proof. reflexivity. Qed.

Lemma io_bind_Done {A B} (m : IoM A) (k : A -> IoM B) (s s' : Engine) (a : A) :
  m s = Done a s' -> (m ≫= k) s = k a s'.
Proof. intros H. rewrite io_bind_unfold, H. reflexivity. Qed.

Lemma io_bind_Died {A B} (m : IoM A) (k : A -> IoM B) (s s' : Engine) :
  m s = Died s' -> (m ≫= k) s = Died s'.
Proof. intros H. rewrite io_bind_unfold, H. reflexivity. Qed.

Lemma io_bind_Done_inv {A B} (m : IoM A) (k : A -> IoM B) (s s' : Engine)
    (b : B) :
  (m ≫= k) s = Done b s' ->
  exists a s1, m s = Done a s1 /\ k a s1 = Done b s'.
Proof.
  rewrite io_bind_unfold. destruct (m s) as [a s1| | |]; try discriminate.
  intros H. exists a, s1. auto.
Qed.

Lemma absorb_moved_on (s : Engine) (st' : State) (calls : list Call.t) :
  trace st' = trace (core s) ++ calls ->
  absorb s st' = moved_on s st' calls.
Proof.
  intros Htr. unfold absorb, moved_on. rewrite Htr, drop_app_length.
  reflexivity.
Qed.

Lemma lift_Done {A} (m : M A) (s : Engine) (a : A) (st' : State)
    (calls : list Call.t) :
  m (core s) = Ret a st' ->
  trace st' = trace (core s) ++ calls ->
  lift m s = Done a (moved_on s st' calls).
Proof.
  intros Hm Htr. unfold lift. rewrite Hm, (absorb_moved_on _ _ _ Htr).
  reflexivity.
Qed.

Lemma lift_Died {A} (m : M A) (s : Engine) (st' : State)
    (calls : list Call.t) :
  m (core s) = Aborted st' ->
  trace st' = trace (core s) ++ calls ->
  lift m s = @Died A (moved_on s st' calls).
Proof.
  intros Hm Htr. unfold lift. rewrite Hm, (absorb_moved_on _ _ _ Htr).
  reflexivity.
Qed.

Lemma moved_on_nil (s : Engine) : moved_on s (core s) [] = s.
Proof.
  unfold moved_on. cbn. rewrite app_nil_r. destruct s. reflexivity.
Qed.

Lemma lift_check (b : bool) (s : Engine) :
  lift (BPS_CHECK b) s = if b then Done tt s else Died s.
Proof.
  destruct b.
  - rewrite (lift_Done _ s tt (core s) []); [|reflexivity|].
    + rewrite moved_on_nil. reflexivity.
    + rewrite app_nil_r. reflexivity.
  - rewrite (lift_Died _ s (core s) []); [|reflexivity|].
    + rewrite moved_on_nil. reflexivity.
    + rewrite app_nil_r. reflexivity.
Qed.

Lemma lift_check_true (s : Engine) : lift (BPS_CHECK true) s = Done tt s.
Proof. apply (lift_check true). Qed.

Lemma lift_check_false (s : Engine) : lift (BPS_CHECK false) s = Died s.
Proof. apply (lift_check false). Qed.

Lemma lift_getTask (q : QueueType) (s : Engine)
    (r : option TensorTableEntry) (st0 : State) :
  getTask q (core s) = Ret r st0 ->
  lift (getTask q) s = Done r (mkEngine st0 (log s) (pending s) (host_brk s)).
Proof.
  intros Hget.
  rewrite (lift_Done _ s r st0 [] Hget).
  - unfold moved_on. cbn. rewrite app_nil_r. reflexivity.
  - rewrite (getTask_trace _ _ _ _ Hget), app_nil_r. reflexivity.
Qed.

Lemma lift_emit (c : Call.t) (s : Engine) :
  lift (emit c) s = Done tt (moved_on s (record c (core s)) [c]).
Proof. apply lift_Done; reflexivity. Qed.

(** *** Copy stages *)

Section Copies.

Variables (g : BytePSGlobal.t) (CPU_DEVICE_ID : Z).

Lemma advance_and_report_run (q : QueueType) (task : TensorTableEntry)
    (s : Engine) (st1 : State) (calls : list Call.t) :
  FinishOrProceed task (core s) = Ret tt st1 ->
  trace st1 = trace (core s) ++ calls ->
  (lift (FinishOrProceed task);;
   lift (reportFinish q (len task));;
   mret true) s =
  Done true
    (mkEngine (record (Call.reportFinish q (len task)) st1)
       (log s ++ (Io.core <$> calls) ++
        [Io.core (Call.reportFinish q (len task))])
       (pending s) (host_brk s)).
Proof.
  intros Hfin Htr.
  erewrite io_bind_Done; [|exact (lift_Done _ s tt st1 calls Hfin Htr)].
  erewrite io_bind_Done; [|apply lift_emit].
  unfold moved_on. cbn. rewrite <- app_assoc. reflexivity.
Qed.

Lemma RunCopyDevice2HostLoopOnce_run (s : Engine) (task : TensorTableEntry)
    (t : Tensor.t) (st0 st1 : State) (calls : list Call.t) :
  getTask COPYD2H (core s) = Ret (Some task) st0 ->
  IsRoot g = true ->
  tensor task = Some t ->
  FinishOrProceed task st0 = Ret tt st1 ->
  trace st1 = trace st0 ++ calls ->
  (device task = CPU_DEVICE_ID \/ cpubuff task + offset task <> 0) ->
  RunCopyDevice2HostLoopOnce g CPU_DEVICE_ID s =
  Done true
    (mkEngine (record (Call.reportFinish COPYD2H (len task)) st1)
       (log s ++
        (if device task =? CPU_DEVICE_ID then []
         else [Io.cudaMemcpyAsync (cpubuff task + offset task)
                 (Tensor.data t + offset task) (len task)
                 Io.cudaMemcpyDeviceToHost Io.CopyDevice2HostStream;
               Io.cudaStreamSynchronize Io.CopyDevice2HostStream]) ++
        (Io.core <$> calls) ++
        [Io.core (Call.reportFinish COPYD2H (len task))])
       (pending s) (host_brk s)).
Proof.
  intros Hget Hroot Ht Hfin Htr Hbuf.
  unfold RunCopyDevice2HostLoopOnce.
  erewrite io_bind_Done; [|exact (lift_getTask _ _ _ _ Hget)].
  cbn match. rewrite Hroot, Ht. cbn [non_null].
  erewrite io_bind_Done; [|apply lift_check_true].
  erewrite io_bind_Done; [|apply lift_check_true].
  destruct (device task =? CPU_DEVICE_ID) eqn:Hdev; cbn [negb].
  - erewrite io_bind_Done; [|reflexivity].
    erewrite (advance_and_report_run COPYD2H task); [|exact Hfin|exact Htr].
    reflexivity.
  - destruct Hbuf as [Hcpu|Hbuf]; [apply Z.eqb_neq in Hdev; contradiction|].
    apply Z.eqb_neq in Hbuf. rewrite Hbuf. cbn [negb].
    erewrite io_bind_Done.
    2:{ erewrite io_bind_Done; [|apply lift_check_true].
        erewrite io_bind_Done; [|reflexivity]. reflexivity. }
    erewrite (advance_and_report_run COPYD2H task); [|exact Hfin|exact Htr].
    cbn. rewrite <- !app_assoc. reflexivity.
Qed.

Lemma RunCopyHost2DeviceLoopOnce_run (s : Engine) (task : TensorTableEntry)
    (t : Tensor.t) (st0 st1 : State) (calls : list Call.t) :
  getTask COPYH2D (core s) = Ret (Some task) st0 ->
  IsRoot g = true ->
  output task = Some t ->
  FinishOrProceed task st0 = Ret tt st1 ->
  trace st1 = trace st0 ++ calls ->
  (device task = CPU_DEVICE_ID \/ cpubuff task + offset task <> 0) ->
  RunCopyHost2DeviceLoopOnce g CPU_DEVICE_ID s =
  Done true
    (mkEngine (record (Call.reportFinish COPYH2D (len task)) st1)
       (log s ++
        (if device task =? CPU_DEVICE_ID then []
         else [Io.cudaMemcpyAsync (Tensor.data t + offset task)
                 (cpubuff task + offset task) (len task)
                 Io.cudaMemcpyHostToDevice Io.CopyHost2DeviceStream;
               Io.cudaStreamSynchronize Io.CopyHost2DeviceStream]) ++
        (Io.core <$> calls) ++
        [Io.core (Call.reportFinish COPYH2D (len task))])
       (pending s) (host_brk s)).
Proof.
  intros Hget Hroot Ht Hfin Htr Hbuf.
  unfold RunCopyHost2DeviceLoopOnce.
  erewrite io_bind_Done; [|exact (lift_getTask _ _ _ _ Hget)].
  cbn match. rewrite Hroot, Ht. cbn [non_null].
  erewrite io_bind_Done; [|apply lift_check_true].
  erewrite io_bind_Done; [|apply lift_check_true].
  destruct (device task =? CPU_DEVICE_ID) eqn:Hdev; cbn [negb].
  - erewrite io_bind_Done; [|reflexivity].
    erewrite (advance_and_report_run COPYH2D task); [|exact Hfin|exact Htr].
    reflexivity.
  - destruct Hbuf as [Hcpu|Hbuf]; [apply Z.eqb_neq in Hdev; contradiction|].
    apply Z.eqb_neq in Hbuf. rewrite Hbuf. cbn [negb].
    erewrite io_bind_Done.
    2:{ erewrite io_bind_Done; [|apply lift_check_true].
        erewrite io_bind_Done; [|reflexivity]. reflexivity. }
    erewrite (advance_and_report_run COPYH2D task); [|exact Hfin|exact Htr].
    cbn. rewrite <- !app_assoc. reflexivity.
Qed.

End Copies.

Section CopyWindow.

Variables (g : BytePSGlobal.t) (CPU_DEVICE_ID : Z).

Lemma filter_memcpy_core (calls : list Call.t) :
  filter is_memcpy (Io.core <$> calls) = [].
Proof. induction calls as [|c calls IH]; [reflexivity|exact IH]. Qed.

(** X12.  The two copy stages work on the same host window, and copy before
    they let the item go.  For an item on a device, CopyD2H copies [len]
    bytes from the tensor at [offset] to the host buffer at [offset], waits
    for the copy stream, and only then advances the item and reports it;
    CopyH2D later copies the same [len] bytes from that same host address to
    the output at [offset], in the same order of calls.  Each stage makes
    exactly one copy per item. *)
Theorem copy_stages_share_host_window :
  forall (s s' : Engine) (task : TensorTableEntry) (stages : list QueueType)
         (t t' : Tensor.t) (st0 st1 st0' st1' : State)
         (calls calls' : list Call.t),
    let later := with_queue_list stages task in
    IsRoot g = true ->
    device task <> CPU_DEVICE_ID ->
    cpubuff task + offset task <> 0 ->
    tensor task = Some t ->
    output task = Some t' ->
    getTask COPYD2H (core s) = Ret (Some task) st0 ->
    FinishOrProceed task st0 = Ret tt st1 ->
    trace st1 = trace st0 ++ calls ->
    getTask COPYH2D (core s') = Ret (Some later) st0' ->
    FinishOrProceed later st0' = Ret tt st1' ->
    trace st1' = trace st0' ++ calls' ->
    let host := cpubuff task + offset task in
    exists s1 s2,
      RunCopyDevice2HostLoopOnce g CPU_DEVICE_ID s = Done true s1 /\
      RunCopyHost2DeviceLoopOnce g CPU_DEVICE_ID s' = Done true s2 /\
      log s1 =
        log s ++
        [Io.cudaMemcpyAsync host (Tensor.data t + offset task) (len task)
           Io.cudaMemcpyDeviceToHost Io.CopyDevice2HostStream;
         Io.cudaStreamSynchronize Io.CopyDevice2HostStream] ++
        (Io.core <$> calls) ++
        [Io.core (Call.reportFinish COPYD2H (len task))] /\
      log s2 =
        log s' ++
        [Io.cudaMemcpyAsync (Tensor.data t' + offset task) host (len task)
           Io.cudaMemcpyHostToDevice Io.CopyHost2DeviceStream;
         Io.cudaStreamSynchronize Io.CopyHost2DeviceStream] ++
        (Io.core <$> calls') ++
        [Io.core (Call.reportFinish COPYH2D (len task))] /\
      length (filter is_memcpy (drop (length (log s)) (log s1))) = 1%nat /\
      length (filter is_memcpy (drop (length (log s')) (log s2))) = 1%nat.
Proof.
  intros s s' task stages t t' st0 st1 st0' st1' calls calls' later
    Hroot Hdev Hbuf Ht Ht' Hget Hfin Htr Hget' Hfin' Htr' host.
  pose proof (RunCopyDevice2HostLoopOnce_run g CPU_DEVICE_ID s task t st0 st1
                calls Hget Hroot Ht Hfin Htr (or_intror Hbuf)) as H1.
  pose proof (RunCopyHost2DeviceLoopOnce_run g CPU_DEVICE_ID s' later t' st0'
                st1' calls' Hget' Hroot Ht' Hfin' Htr' (or_intror Hbuf)) as H2.
  apply Z.eqb_neq in Hdev.
  change (device later) with (device task) in H2.
  rewrite Hdev in H1, H2.
  eexists. eexists. split; [exact H1|]. split; [exact H2|].
  cbn [log]. split; [reflexivity|]. split; [reflexivity|].
  rewrite !drop_app_length.
  split;
    (cbn [app]; rewrite filter_cons_True by exact I;
     rewrite filter_cons_False by (intros []);
     rewrite filter_app, filter_memcpy_core; reflexivity).
Qed.

End CopyWindow.

Lemma copy_stages_share_host_window_witness :
  exists s1 s2,
    RunCopyDevice2HostLoopOnce (Sample.root_registry true 1024)
      Sample.CPU_DEVICE_ID
      (Scenario.engine
         (Sample.waiting COPYD2H
            (Scenario.traveller [COPYD2H; PUSH; PULL; COPYH2D; BROADCAST])))
      = Done true s1 /\
    RunCopyHost2DeviceLoopOnce (Sample.root_registry true 1024)
      Sample.CPU_DEVICE_ID
      (Scenario.engine
         (Sample.waiting COPYH2D (Scenario.traveller [COPYH2D; BROADCAST])))
      = Done true s2 /\
    filter is_memcpy (log s1) =
      [Io.cudaMemcpyAsync 8192 4096 16 Io.cudaMemcpyDeviceToHost
         Io.CopyDevice2HostStream] /\
    filter is_memcpy (log s2) =
      [Io.cudaMemcpyAsync 4096 8192 16 Io.cudaMemcpyHostToDevice
         Io.CopyHost2DeviceStream].
Proof.
  destruct (copy_stages_share_host_window (Sample.root_registry true 1024)
              Sample.CPU_DEVICE_ID
              (Scenario.engine
                 (Sample.waiting COPYD2H
                    (Scenario.traveller
                       [COPYD2H; PUSH; PULL; COPYH2D; BROADCAST])))
              (Scenario.engine
                 (Sample.waiting COPYH2D
                    (Scenario.traveller [COPYH2D; BROADCAST])))
              (Scenario.traveller [COPYD2H; PUSH; PULL; COPYH2D; BROADCAST])
              [COPYH2D; BROADCAST] (Sample.tensor_of 16) (Sample.tensor_of 16)
              _ _ _ _
              [Call.addTask PUSH
                 (Scenario.traveller [PUSH; PULL; COPYH2D; BROADCAST])]
              [Call.addTask BROADCAST (Scenario.traveller [BROADCAST])]
              eq_refl ltac:(discriminate) ltac:(discriminate)
              eq_refl eq_refl eq_refl eq_refl eq_refl eq_refl eq_refl eq_refl)
    as (s1 & s2 & H1 & H2 & Hl1 & Hl2 & _).
  exists s1, s2. split; [exact H1|]. split; [exact H2|].
  rewrite Hl1, Hl2. split; reflexivity.
Defined.

(** *** Push and pull stages *)

Lemma ps_complete_run (s : Engine) (i : nat) (cb : Continuation)
    (st1 : State) (calls : list Call.t) :
  pending s !! i = Some cb ->
  FinishOrProceed (cont_task cb) (core s) = Ret tt st1 ->
  trace st1 = trace (core s) ++ calls ->
  ps_complete i s =
  Done tt
    (mkEngine
       (record (Call.reportFinish (cont_queue cb) (len (cont_task cb))) st1)
       (log s ++ (Io.core <$> calls) ++
        [Io.core (Call.reportFinish (cont_queue cb) (len (cont_task cb)))])
       (delete i (pending s)) (host_brk s)).
Proof.
  intros Hcb Hfin Htr. unfold ps_complete. rewrite Hcb.
  erewrite io_bind_Done.
  2:{ apply (lift_Done _ _ tt st1 calls); [exact Hfin|exact Htr]. }
  unfold reportFinish. rewrite lift_emit. unfold moved_on. cbn.
  rewrite <- app_assoc. reflexivity.
Qed.

Section PushPull.

Variables (g : BytePSGlobal.t) (CPU_DEVICE_ID : Z) (GetCommandType : Z -> Z).

Lemma RunPushLoopOnce_run (s : Engine) (task : TensorTableEntry)
    (t : Tensor.t) (st0 : State) :
  getTask PUSH (core s) = Ret (Some task) st0 ->
  IsRoot g = true ->
  tensor task = Some t ->
  (device task = CPU_DEVICE_ID \/ cpubuff task + offset task <> 0) ->
  RunPushLoopOnce g CPU_DEVICE_ID GetCommandType s =
  Done true
    (mkEngine st0
       (log s ++
        [Io.ZPush (key task)
           ((if device task =? CPU_DEVICE_ID then Tensor.data t
             else cpubuff task) + offset task)
           (len task) (GetCommandType (Tensor.dtype t))])
       (pending s ++ [mkContinuation task PUSH]) (host_brk s)).
Proof.
  intros Hget Hroot Ht Hbuf.
  unfold RunPushLoopOnce.
  erewrite io_bind_Done; [|exact (lift_getTask _ _ _ _ Hget)].
  cbn match. rewrite Hroot, Ht. cbn [non_null].
  erewrite io_bind_Done; [|apply lift_check_true].
  destruct (device task =? CPU_DEVICE_ID) eqn:Hdev; cbn [negb].
  - erewrite io_bind_Done.
    2:{ erewrite io_bind_Done; [|apply lift_check_true]. reflexivity. }
    reflexivity.
  - destruct Hbuf as [Hcpu|Hbuf]; [apply Z.eqb_neq in Hdev; contradiction|].
    apply Z.eqb_neq in Hbuf. rewrite Hbuf. cbn [negb].
    erewrite io_bind_Done.
    2:{ erewrite io_bind_Done; [|apply lift_check_true]. reflexivity. }
    reflexivity.
Qed.

Lemma RunPullLoopOnce_run (s : Engine) (task : TensorTableEntry)
    (t : Tensor.t) (st0 : State) :
  getTask PULL (core s) = Ret (Some task) st0 ->
  IsRoot g = true ->
  output task = Some t ->
  (device task = CPU_DEVICE_ID \/ cpubuff task <> 0) ->
  RunPullLoopOnce g CPU_DEVICE_ID GetCommandType s =
  Done true
    (mkEngine st0
       (log s ++
        [Io.ZPull (key task)
           ((if device task =? CPU_DEVICE_ID then Tensor.data t
             else cpubuff task) + offset task)
           (len task) (GetCommandType (Tensor.dtype t))])
       (pending s ++ [mkContinuation task PULL]) (host_brk s)).
Proof.
  intros Hget Hroot Ht Hbuf.
  unfold RunPullLoopOnce.
  erewrite io_bind_Done; [|exact (lift_getTask _ _ _ _ Hget)].
  cbn match. rewrite Hroot, Ht. cbn [non_null].
  erewrite io_bind_Done; [|apply lift_check_true].
  destruct (device task =? CPU_DEVICE_ID) eqn:Hdev; cbn [negb].
  - erewrite io_bind_Done.
    2:{ erewrite io_bind_Done; [|apply lift_check_true]. reflexivity. }
    reflexivity.
  - destruct Hbuf as [Hcpu|Hbuf]; [apply Z.eqb_neq in Hdev; contradiction|].
    apply Z.eqb_neq in Hbuf. rewrite Hbuf. cbn [negb].
    erewrite io_bind_Done.
    2:{ erewrite io_bind_Done; [|apply lift_check_true]. reflexivity. }
    reflexivity.
Qed.

(** X13.  The push stage hands the item to the parameter-server client and
    lets go of it: it issues one [ZPush] of the window of the item (the host
    buffer at [offset] for an item on a device, the tensor data at [offset]
    for an item on the CPU) and returns without advancing or reporting the
    item.  The item moves on only when the client completes the request:
    then, and in this order, [FinishOrProceed] makes its calls and the
    length is reported on the PUSH queue. *)
Theorem RunPushLoopOnce_defers :
  forall (s : Engine) (task : TensorTableEntry) (t : Tensor.t)
         (st0 st1 : State) (calls : list Call.t),
    IsRoot g = true ->
    tensor task = Some t ->
    (device task = CPU_DEVICE_ID \/ cpubuff task + offset task <> 0) ->
    getTask PUSH (core s) = Ret (Some task) st0 ->
    FinishOrProceed task st0 = Ret tt st1 ->
    trace st1 = trace st0 ++ calls ->
    exists s1 s2,
      RunPushLoopOnce g CPU_DEVICE_ID GetCommandType s = Done true s1 /\
      core s1 = st0 /\
      trace (core s1) = trace (core s) /\
      log s1 =
        log s ++
        [Io.ZPush (key task)
           ((if device task =? CPU_DEVICE_ID then Tensor.data t
             else cpubuff task) + offset task)
           (len task) (GetCommandType (Tensor.dtype t))] /\
      pending s1 = pending s ++ [mkContinuation task PUSH] /\
      ps_complete (length (pending s)) s1 = Done tt s2 /\
      log s2 =
        log s1 ++ (Io.core <$> calls) ++
        [Io.core (Call.reportFinish PUSH (len task))] /\
      pending s2 = pending s.
Proof.
  intros s task t st0 st1 calls Hroot Ht Hbuf Hget Hfin Htr.
  eexists. eexists.
  split; [exact (RunPushLoopOnce_run s task t st0 Hget Hroot Ht Hbuf)|].
  cbn [core log pending].
  split; [reflexivity|].
  split; [exact (getTask_trace _ _ _ _ Hget)|].
  split; [reflexivity|]. split; [reflexivity|].
  erewrite (ps_complete_run _ _ (mkContinuation task PUSH) st1 calls);
    [|cbn [pending]; apply list_lookup_middle; reflexivity
     |exact Hfin|exact Htr].
  split; [reflexivity|]. cbn [log pending cont_task cont_queue].
  split; [reflexivity|].
  rewrite delete_middle, app_nil_r. reflexivity.
Qed.

(** X14.  The pull stage mirrors the push stage on the output side: one
    [ZPull] with the key and length of the item into the same window (the
    host buffer at [offset] for an item on a device, the output data at
    [offset] for an item on the CPU), with the data type of the output; the
    item is advanced and reported on the PULL queue at completion only.
    For an item on a device only the base of the host buffer is checked. *)
Theorem RunPullLoopOnce_defers :
  forall (s : Engine) (task : TensorTableEntry) (t : Tensor.t)
         (st0 st1 : State) (calls : list Call.t),
    IsRoot g = true ->
    output task = Some t ->
    (device task = CPU_DEVICE_ID \/ cpubuff task <> 0) ->
    getTask PULL (core s) = Ret (Some task) st0 ->
    FinishOrProceed task st0 = Ret tt st1 ->
    trace st1 = trace st0 ++ calls ->
    exists s1 s2,
      RunPullLoopOnce g CPU_DEVICE_ID GetCommandType s = Done true s1 /\
      core s1 = st0 /\
      trace (core s1) = trace (core s) /\
      log s1 =
        log s ++
        [Io.ZPull (key task)
           ((if device task =? CPU_DEVICE_ID then Tensor.data t
             else cpubuff task) + offset task)
           (len task) (GetCommandType (Tensor.dtype t))] /\
      pending s1 = pending s ++ [mkContinuation task PULL] /\
      ps_complete (length (pending s)) s1 = Done tt s2 /\
      log s2 =
        log s1 ++ (Io.core <$> calls) ++
        [Io.core (Call.reportFinish PULL (len task))] /\
      pending s2 = pending s.
Proof.
  intros s task t st0 st1 calls Hroot Ht Hbuf Hget Hfin Htr.
  eexists. eexists.
  split; [exact (RunPullLoopOnce_run s task t st0 Hget Hroot Ht Hbuf)|].
  cbn [core log pending].
  split; [reflexivity|].
  split; [exact (getTask_trace _ _ _ _ Hget)|].
  split; [reflexivity|]. split; [reflexivity|].
  erewrite (ps_complete_run _ _ (mkContinuation task PULL) st1 calls);
    [|cbn [pending]; apply list_lookup_middle; reflexivity
     |exact Hfin|exact Htr].
  split; [reflexivity|]. cbn [log pending cont_task cont_queue].
  split; [reflexivity|].
  rewrite delete_middle, app_nil_r. reflexivity.
Qed.

End PushPull.

Lemma RunPushLoopOnce_defers_witness :
  exists s1 s2,
    RunPushLoopOnce (Sample.root_registry true 1024) Sample.CPU_DEVICE_ID
      Scenario.GetCommandType
      (Scenario.engine
         (Sample.waiting PUSH (Scenario.traveller [PUSH; PULL]))) =
      Done true s1 /\
    log s1 = [Io.ZPush 1 8192 16 100] /\
    ps_complete 0 s1 = Done tt s2 /\
    log s2 =
      [Io.ZPush 1 8192 16 100;
       Io.core (Call.addTask PULL (Scenario.traveller [PULL]));
       Io.core (Call.reportFinish PUSH 16)].
Proof.
  destruct (RunPushLoopOnce_defers (Sample.root_registry true 1024)
              Sample.CPU_DEVICE_ID Scenario.GetCommandType
              (Scenario.engine
                 (Sample.waiting PUSH (Scenario.traveller [PUSH; PULL])))
              (Scenario.traveller [PUSH; PULL]) (Sample.tensor_of 16)
              (put_queue PUSH []
                 (Sample.waiting PUSH (Scenario.traveller [PUSH; PULL])))
              (enqueued PULL (Scenario.traveller [PULL])
                 (put_queue PUSH []
                    (Sample.waiting PUSH (Scenario.traveller [PUSH; PULL]))))
              [Call.addTask PULL (Scenario.traveller [PULL])])
    as (s1 & s2 & H1 & _ & _ & Hl1 & _ & H2 & Hl2 & _);
    [reflexivity|reflexivity|right; discriminate
    |vm_compute; reflexivity|vm_compute; reflexivity|reflexivity|].
  exists s1, s2. split; [exact H1|]. split; [exact Hl1|].
  split; [exact H2|]. rewrite Hl2, Hl1. reflexivity.
Defined.

Lemma RunPullLoopOnce_defers_witness :
  exists s1 s2,
    RunPullLoopOnce (Sample.root_registry true 1024) Sample.CPU_DEVICE_ID
      Scenario.GetCommandType
      (Scenario.engine
         (Sample.waiting PULL (Scenario.traveller [PULL; COPYH2D]))) =
      Done true s1 /\
    log s1 = [Io.ZPull 1 8192 16 100] /\
    ps_complete 0 s1 = Done tt s2 /\
    log s2 =
      [Io.ZPull 1 8192 16 100;
       Io.core (Call.addTask COPYH2D (Scenario.traveller [COPYH2D]));
       Io.core (Call.reportFinish PULL 16)].
Proof.
  destruct (RunPullLoopOnce_defers (Sample.root_registry true 1024)
              Sample.CPU_DEVICE_ID Scenario.GetCommandType
              (Scenario.engine
                 (Sample.waiting PULL (Scenario.traveller [PULL; COPYH2D])))
              (Scenario.traveller [PULL; COPYH2D]) (Sample.tensor_of 16)
              (put_queue PULL []
                 (Sample.waiting PULL (Scenario.traveller [PULL; COPYH2D])))
              (enqueued COPYH2D (Scenario.traveller [COPYH2D])
                 (put_queue PULL []
                    (Sample.waiting PULL
                       (Scenario.traveller [PULL; COPYH2D]))))
              [Call.addTask COPYH2D (Scenario.traveller [COPYH2D])])
    as (s1 & s2 & H1 & _ & _ & Hl1 & _ & H2 & Hl2 & _);
    [reflexivity|reflexivity|right; discriminate
    |vm_compute; reflexivity|vm_compute; reflexivity|reflexivity|].
  exists s1, s2. split; [exact H1|]. split; [exact Hl1|].
  split; [exact H2|]. rewrite Hl2, Hl1. reflexivity.
Defined.

(** *** Role checks and idle stages *)

Lemma best_ready_none (ready : TensorTableEntry -> bool)
    (l : list TensorTableEntry) :
  Forall (fun e => ready e = false) l ->
  forall (i : nat) (best : option (nat * TensorTableEntry)),
    best_ready ready l i best = best.
Proof.
  induction 1 as [|e l He _ IH]; intros i best; [reflexivity|].
  cbn [best_ready]. rewrite He. apply IH.
Qed.

Lemma getTask_none (q : QueueType) (st : State) :
  none_ready q st -> getTask q st = Ret None st.
Proof.
  intros H. unfold getTask. rewrite (best_ready_none _ _ H). reflexivity.
Qed.

Lemma mkEngine_eta (s : Engine) :
  mkEngine (core s) (log s) (pending s) (host_brk s) = s.
Proof. destruct s. reflexivity. Qed.

Section Roles.

Variables (g : BytePSGlobal.t) (CPU_DEVICE_ID : Z).
Variables (getNcclDataType GetCommandType : Z -> Z).

(** X15.  The role check of a single-queue stage comes after the dequeue.
    When the coordinate stages run on the root, or the copy, push and pull
    stages on a non-root device, and an item is ready, the process ends on
    the check; the item has left its queue by then, and nothing has been
    sent, copied, pushed or reported for it. *)
Theorem stage_role_guard :
  forall (f : LoopFunction) (q : QueueType) (s : Engine)
         (task : TensorTableEntry) (st0 : State),
    stage_queue f = Some q ->
    IsRoot g <> root_stage f ->
    getTask q (core s) = Ret (Some task) st0 ->
    RunOnce g CPU_DEVICE_ID getNcclDataType GetCommandType f s =
    Died (mkEngine st0 (log s) (pending s) (host_brk s)).
Proof.
  intros f q s task st0 Hq Hrole Hget.
  assert (Hcoord : forall this_op,
             this_op = q -> IsRoot g = true ->
             lift (RunCoordinateLoopOnce g this_op) s =
             Died (mkEngine st0 (log s) (pending s) (host_brk s))).
  { intros this_op -> Hroot.
    rewrite (lift_Died _ s st0 []).
    - unfold moved_on. cbn. rewrite app_nil_r. reflexivity.
    - unfold RunCoordinateLoopOnce.
      erewrite bind_Ret; [|exact Hget]. cbn match.
      rewrite Hroot. reflexivity.
    - rewrite (getTask_trace _ _ _ _ Hget), app_nil_r. reflexivity. }
  destruct f; cbn in Hq; try discriminate;
    injection Hq as <-; cbn [root_stage] in Hrole; cbn [RunOnce].
  - apply Hcoord; [reflexivity|]. destruct (IsRoot g); congruence.
  - apply Hcoord; [reflexivity|]. destruct (IsRoot g); congruence.
  - unfold RunCopyDevice2HostLoopOnce.
    erewrite io_bind_Done; [|exact (lift_getTask _ _ _ _ Hget)].
    cbn match. destruct (IsRoot g); [congruence|].
    erewrite io_bind_Died; [|apply lift_check_false]. reflexivity.
  - unfold RunPushLoopOnce.
    erewrite io_bind_Done; [|exact (lift_getTask _ _ _ _ Hget)].
    cbn match. destruct (IsRoot g); [congruence|].
    erewrite io_bind_Died; [|apply lift_check_false]. reflexivity.
  - unfold RunPullLoopOnce.
    erewrite io_bind_Done; [|exact (lift_getTask _ _ _ _ Hget)].
    cbn match. destruct (IsRoot g); [congruence|].
    erewrite io_bind_Died; [|apply lift_check_false]. reflexivity.
  - unfold RunCopyHost2DeviceLoopOnce.
    erewrite io_bind_Done; [|exact (lift_getTask _ _ _ _ Hget)].
    cbn match. destruct (IsRoot g); [congruence|].
    erewrite io_bind_Died; [|apply lift_check_false]. reflexivity.
Qed.

(** X16.  A single-queue stage with no ready item does nothing but wait:
    whether its queue is empty or holds only items whose ready event has
    not fired, it sleeps for 1000 ns and returns true.  The queues, the
    requests owed by the parameter-server client and the rest of the log
    are as before, and the role of the device is not looked at. *)
Theorem stage_idle :
  forall (f : LoopFunction) (q : QueueType) (s : Engine),
    stage_queue f = Some q ->
    none_ready q (core s) ->
    RunOnce g CPU_DEVICE_ID getNcclDataType GetCommandType f s =
    Done true
      (mkEngine (record (Call.sleep_for 1000) (core s))
         (log s ++ [Io.core (Call.sleep_for 1000)]) (pending s)
         (host_brk s)).
Proof.
  intros f q s Hq Hidle.
  pose proof (getTask_none q (core s) Hidle) as Hget.
  assert (Hsleep : (lift (sleep_for 1000);; mret true) s =
                   Done true
                     (mkEngine (record (Call.sleep_for 1000) (core s))
                        (log s ++ [Io.core (Call.sleep_for 1000)])
                        (pending s) (host_brk s))).
  { erewrite io_bind_Done; [|apply lift_emit]. reflexivity. }
  assert (Hcoord : forall this_op,
             this_op = q ->
             lift (RunCoordinateLoopOnce g this_op) s =
             Done true
               (mkEngine (record (Call.sleep_for 1000) (core s))
                  (log s ++ [Io.core (Call.sleep_for 1000)]) (pending s)
                  (host_brk s))).
  { intros this_op ->.
    apply (lift_Done _ s true _ [Call.sleep_for 1000]); [|reflexivity].
    unfold RunCoordinateLoopOnce.
    erewrite bind_Ret; [|exact Hget]. reflexivity. }
  destruct f; cbn in Hq; try discriminate; injection Hq as <-;
    cbn [RunOnce]; try (apply Hcoord; reflexivity).
  - unfold RunCopyDevice2HostLoopOnce.
    erewrite io_bind_Done; [|exact (lift_getTask _ _ _ _ Hget)].
    rewrite mkEngine_eta. exact Hsleep.
  - unfold RunPushLoopOnce.
    erewrite io_bind_Done; [|exact (lift_getTask _ _ _ _ Hget)].
    rewrite mkEngine_eta. exact Hsleep.
  - unfold RunPullLoopOnce.
    erewrite io_bind_Done; [|exact (lift_getTask _ _ _ _ Hget)].
    rewrite mkEngine_eta. exact Hsleep.
  - unfold RunCopyHost2DeviceLoopOnce.
    erewrite io_bind_Done; [|exact (lift_getTask _ _ _ _ Hget)].
    rewrite mkEngine_eta. exact Hsleep.
Qed.

End Roles.

Lemma stage_role_guard_witness :
  RunOnce (Sample.nonroot_registry true 1024) Sample.CPU_DEVICE_ID
    Sample.getNcclDataType Scenario.GetCommandType PushLoop
    (Scenario.engine (Sample.waiting PUSH (Scenario.traveller [PUSH; PULL])))
  = Died (Scenario.engine (put_queue PUSH [] Sample.counter_state)).
Proof.
  rewrite (stage_role_guard (Sample.nonroot_registry true 1024)
             Sample.CPU_DEVICE_ID Sample.getNcclDataType
             Scenario.GetCommandType PushLoop PUSH
             (Scenario.engine
                (Sample.waiting PUSH (Scenario.traveller [PUSH; PULL])))
             (Scenario.traveller [PUSH; PULL])
             (put_queue PUSH [] (Sample.waiting PUSH
                                   (Scenario.traveller [PUSH; PULL])))
             eq_refl ltac:(discriminate) eq_refl).
  reflexivity.
Defined.

Lemma stage_idle_witness :
  RunOnce (Sample.root_registry true 1024) Sample.CPU_DEVICE_ID
    Sample.getNcclDataType Scenario.GetCommandType CopyDevice2HostLoop
    (Scenario.engine
       (Sample.waiting COPYD2H (Scenario.unready [COPYD2H; PUSH]))) =
  Done true
    (mkEngine
       (record (Call.sleep_for 1000)
          (Sample.waiting COPYD2H (Scenario.unready [COPYD2H; PUSH])))
       [Io.core (Call.sleep_for 1000)] [] 65536).
Proof.
  apply (stage_idle (Sample.root_registry true 1024) Sample.CPU_DEVICE_ID
           Sample.getNcclDataType Scenario.GetCommandType CopyDevice2HostLoop
           COPYD2H
           (Scenario.engine
              (Sample.waiting COPYD2H (Scenario.unready [COPYD2H; PUSH])))
           eq_refl).
  constructor; [reflexivity|constructor].
Defined.

(** *** The stage threads *)

Lemma core_true_ret : core_returns_true (mret true).
Proof. intros st b st' [= <- _]. reflexivity. Qed.

Lemma core_true_bind {A} (m : M A) (k : A -> M bool) :
  (forall a, core_returns_true (k a)) -> core_returns_true (m ≫= k).
Proof.
  intros Hk st b st' H. apply bind_Ret_inv in H as (a & st1 & _ & H).
  exact (Hk a st1 b st' H).
Qed.

Lemma io_true_ret : returns_true (mret true).
Proof. intros s b s' [= <- _]. reflexivity. Qed.

Lemma io_true_bind {A} (m : IoM A) (k : A -> IoM bool) :
  (forall a, returns_true (k a)) -> returns_true (m ≫= k).
Proof.
  intros Hk s b s' H. apply io_bind_Done_inv in H as (a & s1 & _ & H).
  exact (Hk a s1 b s' H).
Qed.

Lemma io_true_lift (m : M bool) :
  core_returns_true m -> returns_true (lift m).
Proof.
  intros Hm s b s'. unfold lift.
  destruct (m (core s)) as [b' st'| | |] eqn:E; try discriminate.
  intros [= <- _]. exact (Hm _ _ _ E).
Qed.

Ltac step_true :=
  repeat first
    [ apply core_true_ret | apply io_true_ret
    | apply core_true_bind; intros ? | apply io_true_bind; intros ? ].

Section Threads.

Variables (g : BytePSGlobal.t) (CPU_DEVICE_ID : Z).
Variables (getNcclDataType GetCommandType : Z -> Z).

Lemma RunOnce_returns_true (f : LoopFunction) :
  returns_true (RunOnce g CPU_DEVICE_ID getNcclDataType GetCommandType f).
Proof.
  destruct f; cbn [RunOnce]; try apply io_true_lift.
  - unfold RunCoordinateLoopOnce. apply core_true_bind. intros [task|];
      step_true.
  - unfold RunCoordinateLoopOnce. apply core_true_bind. intros [task|];
      step_true.
  - unfold RunRootNcclLoopOnce. do 3 (apply core_true_bind; intros ?).
    destruct (0 <? length (NcclGroupEntry.tasks _))%nat; step_true.
  - unfold RunNonRootNcclLoopOnce. step_true.
  - unfold RunSyncNcclOnce. apply core_true_bind. intros [e|]; step_true.
  - unfold RunCopyDevice2HostLoopOnce. apply io_true_bind.
    intros [task|]; step_true.
  - unfold RunPushLoopOnce. apply io_true_bind. intros [task|]; step_true.
  - unfold RunPullLoopOnce. apply io_true_bind. intros [task|]; step_true.
  - unfold RunCopyHost2DeviceLoopOnce. apply io_true_bind.
    intros [task|]; step_true.
Qed.

Lemma stage_loop_unfold (RunOnce : IoM bool) (ShouldShutdown : list bool) :
  stage_loop RunOnce ShouldShutdown =
  (continue ← RunOnce;
   if continue : bool then
     match ShouldShutdown return IoM (list bool) with
     | [] => fun _ => Exhausted
     | shutdown :: later =>
         if shutdown then mret later else stage_loop RunOnce later
     end
   else mret ShouldShutdown).
Proof. destruct ShouldShutdown; reflexivity. Qed.

Lemma stage_loop_ends_on_shutdown (body : IoM bool) :
  returns_true body ->
  forall (ShouldShutdown later : list bool) (s s' : Engine),
    stage_loop body ShouldShutdown s = Done later s' ->
    exists n : nat,
      ShouldShutdown = replicate n false ++ true :: later /\
      runs body (S n) s = Done tt s'.
Proof.
  intros Hbody readings.
  induction readings as [|b readings IH]; intros later s s' H;
    rewrite stage_loop_unfold in H;
    apply io_bind_Done_inv in H as (c & s1 & Hc & H);
    rewrite (Hbody _ _ _ Hc) in H.
  - discriminate.
  - destruct b.
    + injection H as <- <-. exists 0%nat. split; [reflexivity|].
      cbn [runs]. erewrite io_bind_Done; [|exact Hc]. reflexivity.
    + apply IH in H as (n & -> & Hruns). exists (S n).
      split; [reflexivity|].
      change (runs body (S (S n))) with (body;; runs body (S n)).
      erewrite io_bind_Done; [|exact Hc]. exact Hruns.
Qed.

(** X17.  A stage thread ends only on shutdown.  None of the nine
    [Run...Once] functions ever returns false, so a loop function returns
    only after [ShouldShutdown] has answered true: the answers it has read
    are [n] refusals followed by that one consent.  The stage function has
    then run [n + 1] times, once per answer and the first time before any
    answer was read, after the device was set in the loops that set it. *)
Theorem run_loop_ends_on_shutdown :
  forall (f : LoopFunction) (ShouldShutdown later : list bool)
         (s s' : Engine),
    run_loop g CPU_DEVICE_ID getNcclDataType GetCommandType f ShouldShutdown s
      = Done later s' ->
    exists n : nat,
      ShouldShutdown = replicate n false ++ true :: later /\
      ((if sets_device f
        then io (Io.cudaSetDevice (BytePSGlobal.GetLocalRank g))
        else mret tt);;
       runs (RunOnce g CPU_DEVICE_ID getNcclDataType GetCommandType f) (S n))
        s = Done tt s'.
Proof.
  intros f readings later s s' H. unfold run_loop in H.
  apply io_bind_Done_inv in H as (u & s0 & Hpre & H).
  apply (stage_loop_ends_on_shutdown _ (RunOnce_returns_true f)) in H
    as (n & Hread & Hruns).
  exists n. split; [exact Hread|].
  erewrite io_bind_Done; [|exact Hpre]. exact Hruns.
Qed.

End Threads.

Lemma run_loop_ends_on_shutdown_witness :
  exists n : nat,
    [false; true; false] = replicate n false ++ [true; false] /\
    (io (Io.cudaSetDevice 0);;
     runs (RunOnce (Sample.root_registry true 1024) Sample.CPU_DEVICE_ID
             Sample.getNcclDataType Scenario.GetCommandType
             CopyDevice2HostLoop) (S n))
      (Scenario.engine
         (Sample.waiting COPYD2H
            (Scenario.traveller [COPYD2H; PUSH; PULL; COPYH2D; BROADCAST])))
    = Done tt
        (mkEngine
           (record (Call.sleep_for 1000)
              (record (Call.reportFinish COPYD2H 16)
                 (enqueued PUSH
                    (Scenario.traveller [PUSH; PULL; COPYH2D; BROADCAST])
                    (put_queue COPYD2H [] Sample.counter_state))))
           [Io.cudaSetDevice 0;
            Io.cudaMemcpyAsync 8192 4096 16 Io.cudaMemcpyDeviceToHost
              Io.CopyDevice2HostStream;
            Io.cudaStreamSynchronize Io.CopyDevice2HostStream;
            Io.core (Call.addTask PUSH
                       (Scenario.traveller [PUSH; PULL; COPYH2D; BROADCAST]));
            Io.core (Call.reportFinish COPYD2H 16);
            Io.core (Call.sleep_for 1000)] [] 65536).
Proof.
  apply (run_loop_ends_on_shutdown (Sample.root_registry true 1024)
           Sample.CPU_DEVICE_ID Sample.getNcclDataType Scenario.GetCommandType
           CopyDevice2HostLoop [false; true; false] [false]
           (Scenario.engine
              (Sample.waiting COPYD2H
                 (Scenario.traveller
                    [COPYD2H; PUSH; PULL; COPYH2D; BROADCAST])))).
  vm_compute. reflexivity.
Defined.

Lemma io_bind_Stuck {A B} (m : IoM A) (k : A -> IoM B) (s s' : Engine) :
  m s = Stuck s' -> (m ≫= k) s = Stuck s'.
Proof. intros H. rewrite io_bind_unfold, H. reflexivity. Qed.

Lemma lift_Stuck {A} (m : M A) (s : Engine) (st' : State)
    (calls : list Call.t) :
  m (core s) = Blocked st' ->
  trace st' = trace (core s) ++ calls ->
  lift m s = @Stuck A (moved_on s st' calls).
Proof.
  intros Hm Htr. unfold lift. rewrite Hm, (absorb_moved_on _ _ _ Htr).
  reflexivity.
Qed.

(** X18.  A non-root NCCL thread that waits for a signal does not see the
    shutdown.  With no signal from the root waiting, [NonRootNcclLoop] sets
    its device, opens a NCCL group and blocks in [recvSignal]; whatever
    [ShouldShutdown] would answer, the flag is not read, the group is not
    closed and the thread does not return. *)
Theorem NonRootNcclLoop_waits_for_signal :
  forall (g : BytePSGlobal.t) (CPU_DEVICE_ID : Z)
         (getNcclDataType GetCommandType : Z -> Z)
         (ShouldShutdown : list bool) (s : Engine),
    GetMyLocalRank g <> GetRoot g ->
    inbox (core s) = [] ->
    run_loop g CPU_DEVICE_ID getNcclDataType GetCommandType NonRootNcclLoop
      ShouldShutdown s =
    Stuck
      (mkEngine (record Call.ncclGroupStart (core s))
         (log s ++ [Io.cudaSetDevice (BytePSGlobal.GetLocalRank g);
                    Io.core Call.ncclGroupStart])
         (pending s) (host_brk s)).
Proof.
  intros g CPU nccl cmd readings s Hrank Hin.
  unfold run_loop. cbn [sets_device].
  erewrite io_bind_Done; [|reflexivity].
  rewrite stage_loop_unfold.
  erewrite io_bind_Stuck; [reflexivity|].
  cbn [RunOnce].
  erewrite (lift_Stuck _ _ (record Call.ncclGroupStart (core s))
              [Call.ncclGroupStart]).
  - unfold moved_on. cbn. rewrite <- app_assoc. reflexivity.
  - cbn [core]. unfold RunNonRootNcclLoopOnce.
    apply Z.eqb_neq in Hrank. rewrite Hrank. cbn [negb].
    erewrite bind_Ret; [|reflexivity].
    erewrite bind_Ret; [|reflexivity].
    rewrite bind_unfold. cbn [inbox record]. rewrite Hin.
    cbn [length NonRootNccl_loop]. rewrite bind_unfold.
    unfold recvSignal. cbn [inbox record]. rewrite Hin. reflexivity.
  - reflexivity.
Qed.

Lemma NonRootNcclLoop_waits_for_signal_witness :
  run_loop (Sample.nonroot_registry false 1024) Sample.CPU_DEVICE_ID
    Sample.getNcclDataType Scenario.GetCommandType NonRootNcclLoop
    [true] (Scenario.engine Sample.counter_state) =
  Stuck
    (mkEngine (record Call.ncclGroupStart Sample.counter_state)
       [Io.cudaSetDevice 1; Io.core Call.ncclGroupStart] [] 65536).
Proof.
  apply (NonRootNcclLoop_waits_for_signal (Sample.nonroot_registry false 1024)
           Sample.CPU_DEVICE_ID Sample.getNcclDataType Scenario.GetCommandType
           [true] (Scenario.engine Sample.counter_state)).
  - discriminate.
  - reflexivity.
Defined.

(** *** Initialisation of a tensor *)

Section Init.

Variables (g : BytePSGlobal.t) (GetCommandType : Z -> Z) (GetWorkerID : Z).

Lemma init_round_run {A} (key_list : list Z) (data size bound dtype : Z)
    (i : nat) (key : Z) (k : IoM A) (s : Engine) :
  key_list !! i = Some key ->
  ((if IsDistributedJob g && IsRoot g && (GetWorkerID =? 0) then
      io (Io.ZPush key (data + Z.of_nat i * bound)
            (Z.min bound (size - Z.of_nat i * bound)) (GetCommandType dtype));;
      io Io.Wait
    else mret tt);;
   (if IsDistributedJob g && IsRoot g then io (Io.Barrier 0 Io.kWorkerGroup)
    else mret tt);;
   k) s =
  k (mkEngine (core s)
       (log s ++
        init_round g GetCommandType GetWorkerID key_list data size bound
          dtype i)
       (pending s) (host_brk s)).
Proof.
  intros Hkey. unfold init_round. rewrite Hkey. cbn [default].
  destruct (IsDistributedJob g && IsRoot g); cbn [andb];
    [destruct (GetWorkerID =? 0)|];
    cbv [mbind IoM_bind io mret IoM_ret];
    cbn [core log pending host_brk app];
    rewrite <- ?app_assoc; cbn [app]; try reflexivity.
  rewrite app_nil_r, mkEngine_eta. reflexivity.
Qed.

Lemma InitTensor_loop_run (key_list : list Z) (data size bound dtype : Z) :
  0 < bound <= INT_MAX ->
  0 <= size < 2 ^ 32 ->
  length key_list = partition_count size bound ->
  forall (fuel i : nat) (s : Engine),
    (partition_count size bound - i < fuel)%nat ->
    (i <= partition_count size bound)%nat ->
    InitTensor_loop g GetCommandType GetWorkerID fuel key_list data size bound
      dtype (Z.min (Z.of_nat i * bound) size) (Z.of_nat i) s =
    Done (size, Z.of_nat (partition_count size bound))
      (mkEngine (core s)
         (log s ++
          concat (init_round g GetCommandType GetWorkerID key_list data size
                    bound dtype <$>
                  seq i (partition_count size bound - i)))
         (pending s) (host_brk s)).
Proof.
  intros [bound_pos bound_max] [size_pos size_max] Hlen.
  induction fuel as [|fuel IH]; intros i s Hfuel Hi; [lia|].
  cbn [InitTensor_loop].
  destruct (Z.min (Z.of_nat i * bound) size <? size) eqn:E.
  - apply Z.ltb_lt in E.
    assert (Hb : Z.of_nat i * bound < size) by lia.
    pose proof (proj1 (below_count size bound bound_pos i) Hb) as Hc.
    rewrite Z.min_l by lia. rewrite Nat2Z.id.
    destruct (key_list !! i) as [key|] eqn:Hkey.
    2:{ apply lookup_ge_None in Hkey. lia. }
    assert (Hl : to_int (if size - Z.of_nat i * bound >? bound then bound
                         else size - Z.of_nat i * bound) =
                 Z.min bound (size - Z.of_nat i * bound)).
    { unfold INT_MAX in bound_max.
      destruct (size - Z.of_nat i * bound >? bound) eqn:G.
      - apply Z.gtb_lt in G. rewrite to_int_id by (unfold INT_MAX; lia).
        lia.
      - rewrite Z.gtb_ltb in G. apply Z.ltb_ge in G.
        rewrite to_int_id by (unfold INT_MAX; lia). lia. }
    rewrite Hl.
    rewrite (init_round_run key_list data size bound dtype i key _ s Hkey).
    replace (to_uint (Z.of_nat i + 1)) with (Z.of_nat (S i)).
    2:{ rewrite to_uint_id; [lia|]. nia. }
    replace (to_uint (Z.of_nat i * bound +
                      Z.min bound (size - Z.of_nat i * bound)))
      with (Z.min (Z.of_nat (S i) * bound) size).
    2:{ rewrite to_uint_id; lia. }
    rewrite IH by lia. cbn [core log pending host_brk].
    replace (partition_count size bound - i)%nat
      with (S (partition_count size bound - S i)) by lia.
    cbn [seq fmap list_fmap concat]. rewrite <- app_assoc. reflexivity.
  - apply Z.ltb_ge in E.
    assert (Hb : ~ Z.of_nat i * bound < size) by lia.
    assert (Hc : i = partition_count size bound).
    { destruct (decide (i < partition_count size bound)%nat) as [H|H];
        [|lia].
      apply (below_count size bound bound_pos) in H. contradiction. }
    rewrite Z.min_r by lia. rewrite <- Hc, Nat.sub_diag. cbn.
    rewrite app_nil_r, mkEngine_eta. reflexivity.
Qed.

Lemma InitTensor_alloc (context : BPSContext.t) (cpubuff : Z) (s : Engine) :
  (if IsRoot g then
     if negb (cpubuff =? 0) then
       mret (BPSContext.mk cpubuff (BPSContext.buff_len context)
               (BPSContext.key_list context)
               (BPSContext.initialized context) true)
     else
       ptr ← cudaHostAlloc (BPSContext.buff_len context);
       mret (BPSContext.mk ptr (BPSContext.buff_len context)
               (BPSContext.key_list context)
               (BPSContext.initialized context) false)
   else mret context) s =
  Done (BPSContext.mk (init_buffer g context cpubuff s)
          (BPSContext.buff_len context) (BPSContext.key_list context)
          (BPSContext.initialized context)
          (if IsRoot g then negb (cpubuff =? 0)
           else BPSContext.reuse_buff context))
    (after_alloc g context cpubuff s).
Proof.
  unfold init_buffer, after_alloc.
  destruct (IsRoot g), (cpubuff =? 0); cbn [negb andb]; try reflexivity;
    destruct context; reflexivity.
Qed.

Lemma partition_count_pos (size bound : Z) :
  0 < bound -> 0 < size -> (0 < partition_count size bound)%nat.
Proof.
  intros Hb Hs. unfold partition_count.
  assert (1 <= (size + bound - 1) `div` bound).
  { apply Z.div_le_lower_bound; lia. }
  lia.
Qed.

Lemma after_alloc_core (context : BPSContext.t) (cpubuff : Z) (s : Engine) :
  core (after_alloc g context cpubuff s) = core s /\
  pending (after_alloc g context cpubuff s) = pending s.
Proof.
  unfold after_alloc. destruct (IsRoot g && (cpubuff =? 0)); auto.
Qed.

(** [InitTensor] as one equation: the run with the right number of keys,
    and the end on a check with any other number. *)
Lemma InitTensor_run :
  forall (fuel : nat) (context : BPSContext.t) (name : string)
         (dtype cpubuff : Z) (s : Engine),
    let size := BPSContext.buff_len context in
    let bound := BytePSGlobal.GetPartitionBound g in
    let key_list := BPSContext.key_list context in
    let s0 := after_alloc g context cpubuff s in
    0 < bound <= INT_MAX ->
    0 < size ->
    size + bound - 1 < 2 ^ 32 ->
    (partition_count size bound < fuel)%nat ->
    InitTensor g GetCommandType GetWorkerID fuel context name dtype cpubuff s =
    if (length key_list =? partition_count size bound)%nat then
      Done (initialised g context cpubuff s)
        (mkEngine (core s0)
           (log s0 ++
            concat (init_round g GetCommandType GetWorkerID key_list
                      (init_buffer g context cpubuff s) size bound dtype <$>
                    seq 0 (partition_count size bound)))
           (pending s0) (host_brk s0))
    else Died s0.
Proof.
  intros fuel context name dtype cpubuff s size bound key_list s0
    [bound_pos bound_max] size_pos size_max Hfuel.
  pose proof (partition_count_pos size bound bound_pos size_pos) as Hcount.
  unfold InitTensor.
  erewrite io_bind_Done; [|apply InitTensor_alloc].
  fold s0 size bound. cbn [BPSContext.key_list BPSContext.cpubuff
                            BPSContext.buff_len BPSContext.reuse_buff].
  fold key_list.
  assert (Hparts : lift (c_div (to_uint (size + bound - 1)) bound) s0 =
                   Done (Z.of_nat (partition_count size bound)) s0).
  { rewrite (lift_Done _ s0 (Z.of_nat (partition_count size bound))
               (core s0) []).
    - rewrite moved_on_nil. reflexivity.
    - unfold c_div. destruct (bound =? 0) eqn:E;
        [apply Z.eqb_eq in E; lia|].
      rewrite to_uint_id by lia.
      rewrite Z.quot_div_nonneg by lia.
      unfold partition_count. rewrite Z2Nat.id; [reflexivity|].
      apply Z.div_pos; lia.
    - rewrite app_nil_r. reflexivity. }
  destruct (length key_list =? partition_count size bound)%nat eqn:E.
  - apply Nat.eqb_eq in E.
    erewrite io_bind_Done.
    2:{ rewrite lift_check.
        destruct (0 <? length key_list)%nat eqn:G; [reflexivity|].
        apply Nat.ltb_ge in G. lia. }
    erewrite io_bind_Done; [|exact Hparts].
    erewrite io_bind_Done.
    2:{ rewrite lift_check, E, Z.eqb_refl. reflexivity. }
    pose proof (InitTensor_loop_run key_list
                  (init_buffer g context cpubuff s) size bound dtype
                  (conj bound_pos bound_max) ltac:(lia) E fuel 0%nat s0
                  ltac:(lia) ltac:(lia)) as Hloop.
    rewrite Nat.sub_0_r in Hloop. cbn [Z.of_nat] in Hloop.
    rewrite Z.mul_0_l, Z.min_l in Hloop by lia.
    erewrite io_bind_Done; [|exact Hloop]. cbn [fst snd].
    erewrite io_bind_Done.
    2:{ rewrite lift_check, Z.eqb_refl. reflexivity. }
    erewrite io_bind_Done.
    2:{ rewrite lift_check, E, Z.eqb_refl. reflexivity. }
    reflexivity.
  - apply Nat.eqb_neq in E.
    destruct (0 <? length key_list)%nat eqn:G.
    + erewrite io_bind_Done; [|apply lift_check_true].
      erewrite io_bind_Done; [|exact Hparts].
      erewrite io_bind_Died; [reflexivity|].
      rewrite lift_check.
      destruct (Z.of_nat (length key_list) =?
                Z.of_nat (partition_count size bound)) eqn:F;
        [apply Z.eqb_eq in F; lia|reflexivity].
    + erewrite io_bind_Died; [reflexivity|apply lift_check_false].
Qed.

(** X19.  For a buffer of [size] bytes and a partition bound [bound] with
    [0 < size], [0 < bound <= INT_MAX] and [size + bound - 1 < 2 ^ 32] (the
    rounded-up count of line 629 is computed in an [unsigned int]),
    [InitTensor] goes through exactly when the context holds one key per
    partition of its buffer.  On the root the context first gets its host
    buffer, the one handed in or a newly allocated one of [buff_len] bytes.
    With the right number of keys there is then one round per partition, in
    order: on worker 0 of a distributed root a push of the window of the
    partition under its key and the wait for it, and on every distributed
    root a barrier; the context ends up initialised.  With any other number
    of keys the process ends on a check before the first round. *)
Theorem InitTensor_key_count :
  forall (fuel : nat) (context : BPSContext.t) (name : string)
         (dtype cpubuff : Z) (s : Engine),
    let size := BPSContext.buff_len context in
    let bound := BytePSGlobal.GetPartitionBound g in
    let key_list := BPSContext.key_list context in
    let count := partition_count size bound in
    let s0 := after_alloc g context cpubuff s in
    0 < bound <= INT_MAX ->
    0 < size ->
    size + bound - 1 < 2 ^ 32 ->
    (count < fuel)%nat ->
    (length key_list = count ->
     exists s',
       InitTensor g GetCommandType GetWorkerID fuel context name dtype
         cpubuff s = Done (initialised g context cpubuff s) s' /\
       core s' = core s /\
       pending s' = pending s /\
       log s' =
         log s0 ++
         concat (init_round g GetCommandType GetWorkerID key_list
                   (init_buffer g context cpubuff s) size bound dtype <$>
                 seq 0 count)) /\
    (length key_list <> count ->
     InitTensor g GetCommandType GetWorkerID fuel context name dtype cpubuff s
       = Died s0).
Proof.
  intros fuel context name dtype cpubuff s size bound key_list count s0
    Hbound Hsize Hmax Hfuel.
  rewrite (InitTensor_run fuel context name dtype cpubuff s Hbound Hsize Hmax
             Hfuel).
  fold size bound key_list count s0.
  destruct (after_alloc_core context cpubuff s) as (Hc & Hp).
  split; intros Hkeys.
  - rewrite Hkeys, Nat.eqb_refl. eexists. split; [reflexivity|].
    cbn [core pending log]. auto.
  - apply Nat.eqb_neq in Hkeys. rewrite Hkeys. reflexivity.
Qed.

End Init.

Lemma InitTensor_key_count_witness :
  exists s',
    InitTensor (Sample.root_registry true 8) Scenario.GetCommandType 0 3
      (Sample.context_of 16 [10; 11]) "w" 2 0
      (Scenario.engine Sample.counter_state) =
    Done (BPSContext.mk 65536 16 [10; 11] true false) s' /\
    log s' =
      [Io.cudaHostAlloc 65536 16;
       Io.ZPush 10 65536 8 102; Io.Wait; Io.Barrier 0 Io.kWorkerGroup;
       Io.ZPush 11 65544 8 102; Io.Wait; Io.Barrier 0 Io.kWorkerGroup].
Proof.
  destruct (InitTensor_key_count (Sample.root_registry true 8)
              Scenario.GetCommandType 0 3 (Sample.context_of 16 [10; 11]) "w"
              2 0 (Scenario.engine Sample.counter_state))
    as [Hok _].
  - cbn. unfold INT_MAX. lia.
  - cbn. lia.
  - cbn. lia.
  - vm_compute. lia.
  - destruct Hok as (s' & Hrun & _ & _ & Hlog); [reflexivity|].
    exists s'. split; [exact Hrun|]. rewrite Hlog. reflexivity.
Defined.

Section InitEdge.

Variables (g : BytePSGlobal.t) (GetCommandType : Z -> Z) (GetWorkerID : Z).

Lemma lift_crash {A} (s : Engine) : lift (@crash A) s = Died s.
Proof.
  rewrite (lift_Died _ s (core s) []); [|reflexivity|].
  - rewrite moved_on_nil. reflexivity.
  - rewrite app_nil_r. reflexivity.
Qed.

Lemma lift_c_div (a b : Z) (s : Engine) :
  lift (c_div a b) s = if b =? 0 then Died s else Done (Z.quot a b) s.
Proof.
  unfold c_div. destruct (b =? 0); [apply lift_crash|].
  rewrite (lift_Done _ s (Z.quot a b) (core s) []); [|reflexivity|].
  - rewrite moved_on_nil. reflexivity.
  - rewrite app_nil_r. reflexivity.
Qed.

(** X20.  A context with an empty buffer cannot be initialised.  With
    [buff_len = 0] no key list passes both checks on its length: an empty
    list fails the first, a list with keys fails the comparison with the
    rounded-up partition count, which is 0 (and a partition bound of 0
    traps in the division).  The process ends before any push or barrier,
    whatever the keys, the bound, the role and the buffer handed in. *)
Theorem InitTensor_empty_buffer :
  forall (fuel : nat) (context : BPSContext.t) (name : string)
         (dtype cpubuff : Z) (s : Engine),
    BPSContext.buff_len context = 0 ->
    InitTensor g GetCommandType GetWorkerID fuel context name dtype cpubuff s =
    Died (after_alloc g context cpubuff s).
Proof.
  intros fuel context name dtype cpubuff s Hsize. unfold InitTensor.
  erewrite io_bind_Done; [|apply InitTensor_alloc].
  cbn [BPSContext.key_list BPSContext.cpubuff BPSContext.buff_len].
  rewrite Hsize.
  set (s0 := after_alloc g context cpubuff s).
  set (bound := BytePSGlobal.GetPartitionBound g).
  destruct (0 <? length (BPSContext.key_list context))%nat eqn:G.
  2:{ erewrite io_bind_Died; [reflexivity|apply lift_check_false]. }
  erewrite io_bind_Done; [|apply lift_check_true].
  rewrite io_bind_unfold, lift_c_div.
  destruct (bound =? 0) eqn:E; [reflexivity|].
  erewrite io_bind_Died; [reflexivity|]. rewrite lift_check.
  destruct (Z.of_nat (length (BPSContext.key_list context)) =?
            Z.quot (to_uint (0 + bound - 1)) bound) eqn:F; [|reflexivity].
  exfalso. apply Z.eqb_eq in F. apply Nat.ltb_lt in G. apply Z.eqb_neq in E.
  assert (Hq : Z.quot (to_uint (0 + bound - 1)) bound <= 0); [|lia].
  unfold to_uint.
  pose proof (Z.mod_pos_bound (0 + bound - 1) (2 ^ 32) ltac:(lia)) as Hm.
  destruct (Z.lt_ge_cases 0 bound) as [Hpos|Hneg].
  - rewrite Z.quot_small; [lia|]. split; [lia|].
    pose proof (Z.mod_le (0 + bound - 1) (2 ^ 32) ltac:(lia) ltac:(lia)).
    lia.
  - replace bound with (- (- bound)) at 2 by lia.
    rewrite Z.quot_opp_r by lia.
    pose proof (Z.quot_pos ((0 + bound - 1) `mod` 2 ^ 32) (- bound)
                  ltac:(lia) ltac:(lia)).
    lia.
Qed.

End InitEdge.

Lemma InitTensor_empty_buffer_witness :
  InitTensor (Sample.root_registry true 8) Scenario.GetCommandType 0 3
    (Sample.context_of 0 [10]) "w" 2 4096
    (Scenario.engine Sample.counter_state) =
  Died (Scenario.engine Sample.counter_state).
Proof.
  apply (InitTensor_empty_buffer (Sample.root_registry true 8)
           Scenario.GetCommandType 0 3 (Sample.context_of 0 [10]) "w" 2 4096
           (Scenario.engine Sample.counter_state)).
  reflexivity.
Defined.

Lemma pushes_rounds (g : BytePSGlobal.t) (GetCommandType : Z -> Z)
    (GetWorkerID : Z) (key_list : list Z) (data size bound dtype : Z) :
  IsDistributedJob g && IsRoot g && (GetWorkerID =? 0) = true ->
  forall (n j : nat),
    pushes (concat (init_round g GetCommandType GetWorkerID key_list data
                      size bound dtype <$> seq j n)) =
    (fun i => (default 0 (key_list !! i), data + Z.of_nat i * bound,
               Z.min bound (size - Z.of_nat i * bound))) <$> seq j n.
Proof.
  intros Hpush. induction n as [|n IH]; intros j; [reflexivity|].
  cbn [seq fmap list_fmap concat]. unfold pushes in *.
  rewrite omap_app, IH. unfold init_round. rewrite Hpush.
  destruct (IsDistributedJob g && IsRoot g); reflexivity.
Qed.

Lemma windows_keyed (e : TensorTableEntry) (size bound : Z) :
  forall (key_list pre : list Z),
    host_window <$>
      keyed key_list
        (map (nth_partition e size bound)
           (seq (length pre) (length key_list))) =
    (fun i => (default 0 ((pre ++ key_list) !! i),
               cpubuff e + Z.of_nat i * bound,
               Z.min bound (size - Z.of_nat i * bound))) <$>
      seq (length pre) (length key_list).
Proof.
  induction key_list as [|k key_list IH]; intros pre; [reflexivity|].
  cbn [length seq map]. unfold keyed. cbn [zip zip_with fmap list_fmap].
  f_equal.
  - rewrite list_lookup_middle by reflexivity. reflexivity.
  - specialize (IH (pre ++ [k])).
    rewrite length_app, Nat.add_1_r, <- app_assoc in IH. exact IH.
Qed.

Lemma after_alloc_log (g : BytePSGlobal.t) (context : BPSContext.t)
    (cpubuff : Z) (s : Engine) :
  exists pre,
    log (after_alloc g context cpubuff s) = log s ++ pre /\
    pushes pre = [] /\ Forall beside_core pre.
Proof.
  unfold after_alloc. destruct (IsRoot g && (cpubuff =? 0)).
  - eexists. split; [reflexivity|]. split; [reflexivity|].
    repeat constructor.
  - exists []. rewrite app_nil_r. repeat split. constructor.
Qed.

(** X21.  What [InitTensor] pushes is what [EnqueueTensor] later cuts, for
    a buffer of [size] bytes with [0 < size <= INT_MAX] and a partition
    bound with [0 < bound <= INT_MAX].  On worker 0 of a distributed root,
    once [InitTensor] has gone through on a context, [EnqueueTensor] on
    that context for a tensor of [buff_len] bytes (input and output, when
    both are given, of the same size) passes its check of the key count,
    and the partitions it puts on the first queue have, one for one and in
    order, the keys, host addresses and lengths of the pushes the
    initialisation made. *)
Theorem InitTensor_windows_match_EnqueueTensor :
  forall (g : BytePSGlobal.t) (GetCommandType : Z -> Z) (GetWorkerID : Z)
         (fuel fuel' : nat) (context context' : BPSContext.t)
         (name name' : string) (dtype cpubuff : Z) (s s' : Engine)
         (input output : option Tensor.t) (ready_event : option nat)
         (device priority version : Z) (callback : nat) (q0 : QueueType)
         (stages : list QueueType),
    let size := BPSContext.buff_len context in
    let bound := BytePSGlobal.GetPartitionBound g in
    0 < bound <= INT_MAX ->
    0 < size <= INT_MAX ->
    (partition_count size bound < fuel)%nat ->
    (partition_count size bound < fuel')%nat ->
    IsDistributedJob g && IsRoot g && (GetWorkerID =? 0) = true ->
    byte_size input output = Some size ->
    sizes_agree input output ->
    InitTensor g GetCommandType GetWorkerID fuel context name dtype cpubuff s
      = Done context' s' ->
    exists st' items,
      EnqueueTensor g fuel' context' input output ready_event name' device
        priority version callback (q0 :: stages) (core s') = Ret OK st' /\
      GetScheduledQueue q0 st' = GetScheduledQueue q0 (core s') ++ items /\
      host_window <$> items = pushes (drop (length (log s)) (log s')).
Proof.
  intros g cmd wid fuel fuel' context context' name name' dtype cpubuff s s'
    input output re dev prio ver cb q0 stages size bound
    Hbound Hsize Hfuel Hfuel' Hpush Hbytes Hagree Hinit.
  unfold INT_MAX in *.
  rewrite InitTensor_run in Hinit; fold size bound;
    try (unfold INT_MAX; lia).
  fold size bound in Hinit.
  destruct (length (BPSContext.key_list context) =?
            partition_count size bound)%nat eqn:E; [|discriminate].
  apply Nat.eqb_eq in E. injection Hinit as <- <-.
  destruct (after_alloc_log g context cpubuff s) as (pre & Hpre & Hnone & _).
  pose proof (EnqueueTensor_run g (initialised g context cpubuff s) re name'
                dev prio ver cb (q0 :: stages) input output size fuel'
                (core (after_alloc g context cpubuff s)) Hbytes
                ltac:(unfold INT_MAX; lia) (proj1 Hbound) Hagree Hfuel')
    as Hrun.
  cbn [BPSContext.key_list initialised] in Hrun. fold bound in Hrun.
  rewrite E, Nat.eqb_refl in Hrun.
  eexists. eexists. cbn [core]. split; [exact Hrun|].
  match type of Hrun with
  | _ = Ret OK (enqueue_all ?q ?k ?p ?st) =>
      destruct (enqueue_all_facts q p k st) as (_ & _ & _ & _ & Hq & _)
  end.
  split; [exact Hq|].
  cbn [log]. rewrite Hpre, <- app_assoc, drop_app_length.
  unfold pushes at 1. rewrite omap_app. fold (pushes pre). rewrite Hnone.
  cbn [app].
  rewrite (pushes_rounds g cmd wid _ _ _ _ _ Hpush).
  rewrite <- E.
  rewrite (windows_keyed _ size bound (BPSContext.key_list context) []).
  reflexivity.
Qed.

Lemma InitTensor_windows_match_EnqueueTensor_witness :
  exists st' items,
    EnqueueTensor (Sample.root_registry true 8) 3
      (BPSContext.mk 65536 16 [10; 11] true false)
      (Some (Sample.tensor_of 16)) None None "w" 0 0 0 7 [PUSH; PULL]
      Sample.counter_state = Ret OK st' /\
    GetScheduledQueue PUSH st' = items /\
    host_window <$> items = [(10, 65536, 8); (11, 65544, 8)].
Proof.
  destruct (InitTensor_windows_match_EnqueueTensor
              (Sample.root_registry true 8) Scenario.GetCommandType 0 3 3
              (Sample.context_of 16 [10; 11])
              (BPSContext.mk 65536 16 [10; 11] true false) "w" "w" 2 0
              (Scenario.engine Sample.counter_state)
              (mkEngine Sample.counter_state
                 [Io.cudaHostAlloc 65536 16;
                  Io.ZPush 10 65536 8 102; Io.Wait;
                  Io.Barrier 0 Io.kWorkerGroup;
                  Io.ZPush 11 65544 8 102; Io.Wait;
                  Io.Barrier 0 Io.kWorkerGroup]
                 [] 65552)
              (Some (Sample.tensor_of 16)) None None 0 0 0 7%nat PUSH [PULL])
    as (st' & items & Hrun & Hq & Hw).
  - cbn. unfold INT_MAX. lia.
  - cbn. unfold INT_MAX. lia.
  - vm_compute. lia.
  - vm_compute. lia.
  - reflexivity.
  - reflexivity.
  - intros i o _ [=].
  - vm_compute. reflexivity.
  - exists st', items. split; [exact Hrun|]. split; [exact Hq|].
    rewrite Hw. reflexivity.
Defined.

(** *** Initialisation and the core *)

Lemma keeps_core_ret {A} (P : A -> Prop) (a : A) :
  P a -> keeps_core P (mret a).
Proof.
  intros HP s. cbn. split; [exact HP|]. split; [reflexivity|].
  exists []. rewrite app_nil_r. split; [reflexivity|constructor].
Qed.

Lemma keeps_core_bind {A B} (P : B -> Prop) (m : IoM A) (k : A -> IoM B) :
  keeps_core (fun _ => True) m ->
  (forall a, keeps_core P (k a)) ->
  keeps_core P (m ≫= k).
Proof.
  intros Hm Hk s. rewrite io_bind_unfold. specialize (Hm s).
  destruct (m s) as [a s1|s1|s1|]; [|exact Hm|exact Hm|exact I].
  destruct Hm as (_ & Hc & l1 & Hl1 & Hq1). specialize (Hk a s1).
  destruct (k a s1) as [b s2|s2|s2|]; [| | |exact I].
  - destruct Hk as (HP & Hc2 & l2 & Hl2 & Hq2).
    split; [exact HP|]. split; [congruence|].
    exists (l1 ++ l2). rewrite Hl2, Hl1, app_assoc.
    split; [reflexivity|]. apply Forall_app; auto.
  - destruct Hk as (Hc2 & l2 & Hl2 & Hq2). split; [congruence|].
    exists (l1 ++ l2). rewrite Hl2, Hl1, app_assoc.
    split; [reflexivity|]. apply Forall_app; auto.
  - destruct Hk as (Hc2 & l2 & Hl2 & Hq2). split; [congruence|].
    exists (l1 ++ l2). rewrite Hl2, Hl1, app_assoc.
    split; [reflexivity|]. apply Forall_app; auto.
Qed.

Lemma keeps_core_weaken {A} (P : A -> Prop) (m : IoM A) :
  keeps_core P m -> keeps_core (fun _ => True) m.
Proof.
  intros Hm s. specialize (Hm s). destruct (m s); try exact Hm.
  destruct Hm as (_ & H). split; [exact I|exact H].
Qed.

Lemma keeps_core_io (c : Io.t) : beside_core c -> keeps_core (fun _ => True) (io c).
Proof.
  intros Hc s. cbn. split; [exact I|]. split; [reflexivity|].
  exists [c]. split; [reflexivity|]. constructor; [exact Hc|constructor].
Qed.

Lemma keeps_core_same {A} (P : A -> Prop) (m : IoM A) :
  (forall s, match m s with
             | Done a s' => P a /\ s' = s
             | Died s' | Stuck s' => s' = s
             | Exhausted => True
             end) ->
  keeps_core P m.
Proof.
  intros Hm s. specialize (Hm s).
  assert (Hs : core s = core s /\
               exists l, log s = log s ++ l /\ Forall beside_core l).
  { split; [reflexivity|]. exists []. rewrite app_nil_r.
    split; [reflexivity|constructor]. }
  destruct (m s) as [a s1|s1|s1|]; [| | |exact I].
  - destruct Hm as (HP & ->). split; [exact HP|exact Hs].
  - subst s1. exact Hs.
  - subst s1. exact Hs.
Qed.

Lemma keeps_core_check (b : bool) :
  keeps_core (fun _ => True) (lift (BPS_CHECK b)).
Proof.
  apply keeps_core_same. intros s. rewrite lift_check.
  destruct b; auto.
Qed.

Lemma keeps_core_crash {A} (P : A -> Prop) : keeps_core P (lift crash).
Proof.
  apply keeps_core_same. intros s. rewrite lift_crash. reflexivity.
Qed.

Lemma keeps_core_c_div (a b : Z) :
  keeps_core (fun _ => True) (lift (c_div a b)).
Proof.
  apply keeps_core_same. intros s. rewrite lift_c_div.
  destruct (b =? 0); auto.
Qed.

Lemma keeps_core_cudaHostAlloc (size : Z) :
  keeps_core (fun _ => True) (cudaHostAlloc size).
Proof.
  intros s. cbn. split; [exact I|]. split; [reflexivity|].
  eexists. split; [reflexivity|]. repeat constructor.
Qed.

Section InitCore.

Variables (g : BytePSGlobal.t) (GetCommandType : Z -> Z) (GetWorkerID : Z).

Lemma keeps_core_InitTensor_loop (key_list : list Z)
    (data size bound dtype : Z) (fuel : nat) :
  forall accumulated i,
    keeps_core (fun _ => True)
      (InitTensor_loop g GetCommandType GetWorkerID fuel key_list data size
         bound dtype accumulated i).
Proof.
  induction fuel as [|fuel IH]; intros acc i; [intros s; exact I|].
  cbn [InitTensor_loop].
  destruct (acc <? size); [|apply keeps_core_ret; exact I].
  destruct (key_list !! Z.to_nat i) as [key|]; [|apply keeps_core_crash].
  apply keeps_core_bind.
  - destruct (IsDistributedJob g && IsRoot g && (GetWorkerID =? 0));
      [|apply keeps_core_ret; exact I].
    apply keeps_core_bind; [apply keeps_core_io; exact I|].
    intros _. apply keeps_core_io. exact I.
  - intros _. apply keeps_core_bind; [|intros _; apply IH].
    destruct (IsDistributedJob g && IsRoot g);
      [apply keeps_core_io; exact I|apply keeps_core_ret; exact I].
Qed.

Lemma keeps_core_InitTensor (fuel : nat) (context : BPSContext.t)
    (name : string) (dtype cpubuff : Z) :
  keeps_core (fun c => BPSContext.initialized c = true)
    (InitTensor g GetCommandType GetWorkerID fuel context name dtype cpubuff).
Proof.
  unfold InitTensor. apply keeps_core_bind.
  - destruct (IsRoot g); [|apply keeps_core_ret; exact I].
    destruct (negb (cpubuff =? 0)); [apply keeps_core_ret; exact I|].
    apply keeps_core_bind; [apply keeps_core_cudaHostAlloc|].
    intros ptr. apply keeps_core_ret. exact I.
  - intros c. apply keeps_core_bind; [apply keeps_core_check|]. intros _.
    apply keeps_core_bind; [apply keeps_core_c_div|]. intros parts.
    apply keeps_core_bind; [apply keeps_core_check|]. intros _.
    apply keeps_core_bind; [apply keeps_core_InitTensor_loop|]. intros r.
    apply keeps_core_bind; [apply keeps_core_check|]. intros _.
    apply keeps_core_bind; [apply keeps_core_check|]. intros _.
    apply keeps_core_ret. reflexivity.
Qed.

(** X22.  [EnqueueTensorInit] reports success last, once, and only if the
    initialisation went through.  Whatever the context, the keys, the bound
    and the role: when it returns, the status is OK, the context is marked
    initialised, and the callback with OK is the last entry of the log and
    the only call of the core loops the function made; when the process
    ends or blocks in it, no callback was made.  The scheduled queues, the
    counters and the signal channel are never touched. *)
Theorem EnqueueTensorInit_callback_last :
  forall (fuel : nat) (context : BPSContext.t) (name : string)
         (dtype cpubuff : Z) (callback : nat) (s : Engine),
    match EnqueueTensorInit g GetCommandType GetWorkerID fuel context name
            dtype cpubuff callback s with
    | Done r s' =>
        r.1 = OK /\ BPSContext.initialized r.2 = true /\
        core s' = record (Call.callback callback OK) (core s) /\
        exists l,
          log s' = log s ++ l ++ [Io.core (Call.callback callback OK)] /\
          Forall beside_core l
    | Died s' | Stuck s' =>
        core s' = core s /\
        exists l, log s' = log s ++ l /\ Forall beside_core l
    | Exhausted => True
    end.
Proof.
  intros fuel context name dtype cpubuff callback s.
  unfold EnqueueTensorInit. rewrite io_bind_unfold.
  pose proof (keeps_core_InitTensor fuel context name dtype cpubuff s) as H.
  destruct (InitTensor g GetCommandType GetWorkerID fuel context name dtype
              cpubuff s) as [c s1|s1|s1|]; [|exact H|exact H|exact I].
  destruct H as (Hinit & Hcore & l & Hl & Hq).
  erewrite io_bind_Done; [|apply lift_emit].
  cbn. rewrite Hcore, Hl, <- app_assoc. repeat split; try assumption.
  exists l. split; [reflexivity|exact Hq].
Qed.

End InitCore.

(** *** The threads [byteps_init] starts *)

(** X23.  [byteps_init] starts a single-queue stage only on a device that
    passes the role check of that stage: the coordinate loops on non-root
    devices, the copy, push and pull loops on the root, and these four in a
    distributed job only.  So the role check of a single-queue stage
    never ends a thread that [byteps_init] has started. *)
Theorem byteps_init_roles :
  forall (g : BytePSGlobal.t) (f : LoopFunction) (q : QueueType),
    In f (byteps_init g) ->
    stage_queue f = Some q ->
    IsRoot g = root_stage f /\
    (root_stage f = true -> IsDistributedJob g = true).
Proof.
  intros g f q Hin Hq. unfold byteps_init, Start in Hin.
  destruct (IsRoot g), (IsDistributedJob g); cbn in Hin;
    intuition subst; cbn in Hq |- *; try discriminate; auto.
Qed.

Lemma byteps_init_roles_witness :
  IsRoot (Sample.root_registry true 1024) = root_stage PushLoop /\
  (root_stage PushLoop = true ->
   IsDistributedJob (Sample.root_registry true 1024) = true).
Proof.
  apply (byteps_init_roles (Sample.root_registry true 1024) PushLoop PUSH).
  - cbn. auto 10.
  - reflexivity.
Defined.

(** *** The inter-node stages in a row *)





Lemma is_ready_handled (q next : QueueType) (task' : TensorTableEntry)
    (len : Z) (st : State) (e : TensorTableEntry) :
  is_ready (handled q next task' len st) e = is_ready st e.
Proof. reflexivity. Qed.

Section Internode.

Variables (g : BytePSGlobal.t) (CPU_DEVICE_ID : Z) (GetCommandType : Z -> Z).






End Internode.

